(** * jobtrack: the ATS analysis service ([backend/app/ats_service.py])

    A shallow embedding of the two public operations of the service,
    [analyze_resume_ats] and [generate_cover_letter], of the library calls
    they make ([client.messages.create] of the Anthropic SDK, [json.loads]
    of the Python standard library), and the properties the specification
    states about them.

    Representation choices.
    - A Python [str] is a [string]: the sequence of bytes of its UTF-8
      encoding (a lone surrogate, which [json.loads] can produce from a
      [\uXXXX] escape, is written with the three-byte scheme).  Every
      character the code and the JSON grammar look at is ASCII, so
      concatenation, prefixes and substrings are the same on both sides.
    - A Python exception is a value of [exn]; a call that can raise returns
      an [outcome].
    - The object that [json.loads] builds is a [value]; a Python [dict] is
      an association list with distinct keys, kept in insertion order.
    - A Python [float] is kept as the text it was read from: the service
      never computes with one. *)

From Stdlib Require Import String Ascii List ZArith Bool Arith Lia.
Import ListNotations.
Open Scope string_scope.

(** ** Python values, exceptions and outcomes *)

Inductive exn : Type :=
| JSONDecodeError          (* json.JSONDecodeError, a subclass of ValueError *)
| ValueError               (* a plain ValueError: int() over the digits limit *)
| RecursionError           (* the interpreter stack is exhausted *)
| IndexError               (* [][0] *)
| AttributeError           (* a content block without .text *)
| ClientError (cls : string). (* whatever the SDK raises: APIConnectionError,
                                 AuthenticationError, RateLimitError, ... *)

Inductive outcome (A : Type) : Type :=
| Returned (a : A)
| Raised (e : exn).
Arguments Returned {A} a.
Arguments Raised {A} e.

Unset Elimination Schemes.
Inductive value : Type :=
| PyNone
| PyBool (b : bool)
| PyInt (z : Z)
| PyFloat (literal : string)
| PyStr (s : string)
| PyList (items : list value)
| PyDict (items : list (string * value)).
Set Elimination Schemes.

(** The two settings of the running interpreter that [json.loads] can
    observe.

    [recursion_budget] is what is left of [sys.getrecursionlimit()] where
    [json.loads] is called, counted in nested calls beyond those that
    [json.loads] takes on every text: its own frames down to the scanner,
    and the calls with which it reports a text that holds no value.  (The
    scanner then starts with two calls more than the budget, see
    [json.loads].  A stack too short for that is none on which the service
    has called its client the line before.)

    [int_max_str_digits] is [sys.get_int_max_str_digits()], where 0
    switches the limit off. *)
Record interpreter : Type := {
  recursion_budget : nat;
  int_max_str_digits : nat
}.

(** CPython 3.11, the version the project's CI installs, with its defaults:
    a limit of 4300 digits, and a recursion limit of 1000, of which the
    scanner has 994 nested calls left when [analyze_resume_ats] is called
    from the top of a script, and fewer when it is called from deeper. *)
Definition cpython_3_11 : interpreter :=
  {| recursion_budget := 992; int_max_str_digits := 4300 |}.

(** ** Dictionaries *)

(** [d[k] = v]: an existing key keeps its place and takes the new value, a
    new key goes last. *)
Fixpoint dict_setitem (k : string) (v : value) (d : list (string * value))
  : list (string * value) :=
  match d with
  | [] => [(k, v)]
  | (k', v') :: d' =>
      if String.eqb k' k then (k, v) :: d' else (k', v') :: dict_setitem k v d'
  end.

(** [dict(pairs)] *)
Definition dict (pairs : list (string * value)) : list (string * value) :=
  fold_left (fun d kv => dict_setitem (fst kv) (snd kv) d) pairs [].

(** [d.get(k)] on an association list *)
Fixpoint dict_get (k : string) (d : list (string * value)) : option value :=
  match d with
  | [] => None
  | (k', v) :: d' => if String.eqb k' k then Some v else dict_get k d'
  end.

(** [obj[k]] for an arbitrary object: only a dict holding [k] has it. *)
Definition field (k : string) (obj : value) : option value :=
  match obj with
  | PyDict d => dict_get k d
  | _ => None
  end.

(** ** [json.loads], after CPython's json/decoder.py and json/scanner.py,
    with the nested calls counted as the C scanner that CPython runs in
    their place ([_json.c]) makes them *)

Module json.

(** What one scanning step gives back: the object and the text that follows
    it, [StopIteration] when no value starts here, or an exception.
    [OutOfGas] is the bound of the two [while True] loops running out; it
    cannot happen ([scan_once_gas] below). *)
Inductive scan (A : Type) : Type :=
| Scanned (a : A) (rest : string)
| StopIteration
| Error (e : exn)
| OutOfGas.
Arguments Scanned {A} a rest.
Arguments StopIteration {A}.
Arguments Error {A} e.
Arguments OutOfGas {A}.

Definition quote : ascii := "034"%char.
Definition backslash : ascii := "092"%char.

(** [raise_errmsg] of the C scanner.  It builds the JSONDecodeError by
    calling the class, whose [__init__] is Python code: the call of the
    class, the frame of [__init__] and a call made from it are three nested
    calls on top of the [remaining] ones.  With fewer than three left, the
    RecursionError of the attempt is what the scanner raises. *)
Definition raise_errmsg {A : Type} (remaining : nat) : scan A :=
  if Nat.ltb remaining 3 then Error RecursionError else Error JSONDecodeError.

(** [parse_constant(name)], which is [_CONSTANTS.__getitem__]: one nested
    call. *)
Definition parse_constant (remaining : nat) (constant : string)
  (rest : string) : scan value :=
  match remaining with
  | 0 => Error RecursionError
  | S _ => Scanned (PyFloat constant) rest
  end.

(** WHITESPACE_STR = ' \t\n\r' *)
Definition is_ws (c : ascii) : bool :=
  Ascii.eqb c " " || Ascii.eqb c "009" || Ascii.eqb c "010" || Ascii.eqb c "013".

(** [_w(s, end).end()]: the text after the leading whitespace. *)
Fixpoint skip_ws (s : string) : string :=
  match s with
  | String c r => if is_ws c then skip_ws r else s
  | EmptyString => EmptyString
  end.

(** [s[idx:idx+len(p)] == p], and the text after [p] when it holds. *)
Fixpoint after_prefix (p s : string) : option string :=
  match p, s with
  | EmptyString, _ => Some s
  | String a p', String b s' => if Ascii.eqb a b then after_prefix p' s' else None
  | String _ _, EmptyString => None
  end.

(** *** Strings *)

Definition hex_digit (c : ascii) : option N :=
  let n := N_of_ascii c in
  if (48 <=? n)%N && (n <=? 57)%N then Some (n - 48)%N
  else if (65 <=? n)%N && (n <=? 70)%N then Some (n - 55)%N
  else if (97 <=? n)%N && (n <=? 102)%N then Some (n - 87)%N
  else None.

(** [_decode_uXXXX]: the number written by four hexadecimal digits. *)
Definition decode_uXXXX (a b c d : ascii) : option N :=
  match hex_digit a, hex_digit b, hex_digit c, hex_digit d with
  | Some x, Some y, Some z, Some w => Some (((x * 16 + y) * 16 + z) * 16 + w)%N
  | _, _, _, _ => None
  end.

(** [chr(uni)], in the UTF-8 representation of [str]. *)
Definition chr (uni : N) : string :=
  let byte n := String (ascii_of_N n) EmptyString in
  let cont n := byte (128 + n mod 64)%N in
  if (uni <? 128)%N then byte uni
  else if (uni <? 2048)%N then byte (192 + uni / 64)%N ++ cont uni
  else if (uni <? 65536)%N then
    byte (224 + uni / 4096)%N ++ cont (uni / 64)%N ++ cont uni
  else
    byte (240 + uni / 262144)%N ++ cont (uni / 4096)%N ++ cont (uni / 64)%N
      ++ cont uni.

(** BACKSLASH: the one-letter escapes. *)
Definition BACKSLASH (esc : ascii) : option ascii :=
  if Ascii.eqb esc quote then Some quote
  else if Ascii.eqb esc backslash then Some backslash
  else if Ascii.eqb esc "/" then Some "/"%char
  else if Ascii.eqb esc "b" then Some "008"%char
  else if Ascii.eqb esc "f" then Some "012"%char
  else if Ascii.eqb esc "n" then Some "010"%char
  else if Ascii.eqb esc "r" then Some "013"%char
  else if Ascii.eqb esc "t" then Some "009"%char
  else None.

(** [chunks.append(x)] followed by the rest of the loop. *)
Definition emit (x : string) (k : scan string) : scan string :=
  match k with
  | Scanned str rest => Scanned (x ++ str) rest
  | other => other
  end.

(** [s[end:end + 2] == '\\u'] *)
Definition at_u_escape (s : string) : bool :=
  match s with
  | String a (String b _) => Ascii.eqb a backslash && Ascii.eqb b "u"
  | _ => false
  end.

(** [scanstring(s, end, strict=True)], entered after the opening quote. *)
Fixpoint scanstring (s : string) : scan string :=
  match s with
  | EmptyString => Error JSONDecodeError   (* Unterminated string *)
  | String c r =>
      if Ascii.eqb c quote then Scanned EmptyString r
      else if Ascii.eqb c backslash then
        match r with
        | EmptyString => Error JSONDecodeError   (* Unterminated string *)
        | String esc r1 =>
            if Ascii.eqb esc "u" then
              match r1 with
              | String h1 (String h2 (String h3 (String h4 r2))) =>
                  match decode_uXXXX h1 h2 h3 h4 with
                  | None => Error JSONDecodeError   (* Invalid \uXXXX escape *)
                  | Some uni =>
                      if (55296 <=? uni)%N && (uni <=? 56319)%N
                         && at_u_escape r2 then
                        match r2 with
                        | String _ (String _ (String g1 (String g2
                            (String g3 (String g4 r3))))) =>
                            match decode_uXXXX g1 g2 g3 g4 with
                            | None => Error JSONDecodeError
                            | Some uni2 =>
                                if (56320 <=? uni2)%N && (uni2 <=? 57343)%N then
                                  emit (chr (65536 + ((uni - 55296) * 1024
                                                      + (uni2 - 56320)))%N)
                                       (scanstring r3)
                                else emit (chr uni) (scanstring r2)
                            end
                        | _ => Error JSONDecodeError   (* Invalid \uXXXX escape *)
                        end
                      else emit (chr uni) (scanstring r2)
                  end
              | _ => Error JSONDecodeError   (* Invalid \uXXXX escape *)
              end
            else
              match BACKSLASH esc with
              | None => Error JSONDecodeError   (* Invalid \escape *)
              | Some char => emit (String char EmptyString) (scanstring r1)
              end
        end
      else if (N_of_ascii c <? 32)%N then
        Error JSONDecodeError   (* Invalid control character *)
      else emit (String c EmptyString) (scanstring r)
  end.

(** [scanstring] as the scanner calls it with [remaining] nested calls
    left: the failures above are raised with [raise_errmsg]. *)
Definition scanstring_at (remaining : nat) (s : string) : scan string :=
  match scanstring s with
  | Error JSONDecodeError => raise_errmsg remaining
  | result => result
  end.

(** *** Numbers *)

Definition is_digit (c : ascii) : bool :=
  let n := N_of_ascii c in (48 <=? n)%N && (n <=? 57)%N.

(** The longest run of digits in front, and the text after it. *)
Fixpoint span_digits (s : string) : string * string :=
  match s with
  | String c r =>
      if is_digit c then
        let (ds, rest) := span_digits r in (String c ds, rest)
      else (EmptyString, s)
  | EmptyString => (EmptyString, EmptyString)
  end.

(** The fraction of NUMBER_RE, a dot and one digit or more; empty when
    there is none. *)
Definition match_frac (s : string) : string * string :=
  match s with
  | String c r =>
      if Ascii.eqb c "." then
        match span_digits r with
        | (EmptyString, _) => (EmptyString, s)
        | (ds, rest) => (String c ds, rest)
        end
      else (EmptyString, s)
  | EmptyString => (EmptyString, s)
  end.

(** The exponent of NUMBER_RE, e or E, an optional sign and one digit or
    more; empty when there is none. *)
Definition match_exp (s : string) : string * string :=
  match s with
  | String e r =>
      if Ascii.eqb e "e" || Ascii.eqb e "E" then
        match r with
        | String sg r' =>
            if Ascii.eqb sg "-" || Ascii.eqb sg "+" then
              match span_digits r' with
              | (EmptyString, _) => (EmptyString, s)
              | (ds, rest) => (String e (String sg ds), rest)
              end
            else
              match span_digits r with
              | (EmptyString, _) => (EmptyString, s)
              | (ds, rest) => (String e ds, rest)
              end
        | EmptyString => (EmptyString, s)
        end
      else (EmptyString, s)
  | EmptyString => (EmptyString, s)
  end.

(** The optional minus sign of NUMBER_RE. *)
Definition match_sign (s : string) : string * string :=
  match s with
  | String c r => if Ascii.eqb c "-" then (String c EmptyString, r) else (EmptyString, s)
  | EmptyString => (EmptyString, s)
  end.

(** The integer part of NUMBER_RE: a lone 0, or a digit from 1 to 9 and
    the digits that follow it. *)
Definition match_digits (s : string) : option (string * string) :=
  match s with
  | String c r =>
      if Ascii.eqb c "0" then Some (String c EmptyString, r)
      else if is_digit c then Some (span_digits s)
      else None
  | EmptyString => None
  end.

(** [NUMBER_RE.match(string, idx)]: the groups (sign, digits of the integer
    part, frac, exp) and the text after the match: an optional minus sign,
    the integer part, an optional fraction and an optional exponent. *)
Definition match_number (s : string)
  : option (string * string * string * string * string) :=
  let (sign, s1) := match_sign s in
  match match_digits s1 with
  | None => None
  | Some (digits, s2) =>
      let (frac, s3) := match_frac s2 in
      let (exp, s4) := match_exp s3 in
      Some (sign, digits, frac, exp, s4)
  end.

(** The number written by a run of decimal digits. *)
Definition digits_value (ds : string) : Z :=
  let fix go (acc : Z) (s : string) : Z :=
    match s with
    | String c r => go (10 * acc + (Z.of_N (N_of_ascii c) - 48))%Z r
    | EmptyString => acc
    end in
  go 0%Z ds.

(** [int(integer)]: refused with a ValueError when the text has more digits
    than the interpreter's limit (a limit of 0 means none). *)
Definition parse_int (py : interpreter) (sign digits : string) : outcome Z :=
  if negb (Nat.eqb (int_max_str_digits py) 0)
     && Nat.ltb (int_max_str_digits py) (String.length digits)
  then Raised ValueError
  else Returned (match sign with
                 | EmptyString => digits_value digits
                 | _ => (- digits_value digits)%Z
                 end).

(** *** Arrays and objects *)

Section Containers.
(** [scan_once], as JSONArray and JSONObject receive it, and the nested
    calls that are left inside the array or object.  Where the scanner finds
    no value, it raises StopIteration, which travels up to [raw_decode] and
    becomes the JSONDecodeError there; every other failure is raised on the
    spot, with [raise_errmsg]. *)
Variable scan_once : string -> scan value.
Variable remaining : nat.

(** The [while True] loop of JSONArray, entered in front of an element. *)
Fixpoint array_loop (gas : nat) (s : string) (values : list value)
  : scan value :=
  match gas with
  | 0 => OutOfGas
  | S gas' =>
      match scan_once s with
      | Scanned v r =>
          let values := (values ++ [v])%list in
          match skip_ws r with
          | String nextchar r' =>
              if Ascii.eqb nextchar "]" then Scanned (PyList values) r'
              else if Ascii.eqb nextchar "," then
                array_loop gas' (skip_ws r') values
              else raise_errmsg remaining   (* Expecting ',' delimiter *)
          | EmptyString => raise_errmsg remaining   (* Expecting ',' delimiter *)
          end
      | StopIteration => Error JSONDecodeError   (* Expecting value *)
      | Error e => Error e
      | OutOfGas => OutOfGas
      end
  end.

(** [JSONArray((s, end), scan_once)], entered after the bracket. *)
Definition JSONArray (s : string) : scan value :=
  let s := skip_ws s in
  match s with
  | String nextchar r =>
      if Ascii.eqb nextchar "]" then Scanned (PyList []) r
      else array_loop (S (String.length s)) s []
  | EmptyString => array_loop (S (String.length s)) s []
  end.

(** The [while True] loop of JSONObject, entered after the quote that
    opens a key. *)
Fixpoint object_loop (gas : nat) (s : string) (pairs : list (string * value))
  : scan value :=
  match gas with
  | 0 => OutOfGas
  | S gas' =>
      match scanstring_at remaining s with
      | Scanned key r =>
          match skip_ws r with
          | String colon r1 =>
              if Ascii.eqb colon ":" then
                match scan_once (skip_ws r1) with
                | Scanned v r2 =>
                    let pairs := (pairs ++ [(key, v)])%list in
                    match skip_ws r2 with
                    | String nextchar r3 =>
                        if Ascii.eqb nextchar "}" then
                          Scanned (PyDict (dict pairs)) r3
                        else if Ascii.eqb nextchar "," then
                          match skip_ws r3 with
                          | String nextchar r4 =>
                              if Ascii.eqb nextchar quote then
                                object_loop gas' r4 pairs
                              else raise_errmsg remaining   (* Expecting property name *)
                          | EmptyString => raise_errmsg remaining
                          end
                        else raise_errmsg remaining   (* Expecting ',' delimiter *)
                    | EmptyString => raise_errmsg remaining   (* Expecting ',' delimiter *)
                    end
                | StopIteration => Error JSONDecodeError   (* Expecting value *)
                | Error e => Error e
                | OutOfGas => OutOfGas
                end
              else raise_errmsg remaining   (* Expecting ':' delimiter *)
          | EmptyString => raise_errmsg remaining   (* Expecting ':' delimiter *)
          end
      | StopIteration => Error JSONDecodeError
      | Error e => Error e
      | OutOfGas => OutOfGas
      end
  end.

(** [JSONObject((s, end), strict, scan_once, None, None, memo)], entered
    after the brace. *)
Definition JSONObject (s : string) : scan value :=
  match skip_ws s with
  | String nextchar r =>
      if Ascii.eqb nextchar "}" then Scanned (PyDict []) r
      else if Ascii.eqb nextchar quote then
        object_loop (S (String.length r)) r []
      else raise_errmsg remaining   (* Expecting property name *)
  | EmptyString => raise_errmsg remaining   (* Expecting property name *)
  end.
End Containers.

(** *** The scanner *)

(** [scan_once(string, idx)].  Entering an object or an array is a nested
    call that the interpreter counts ([Py_EnterRecursiveCall] in the C
    scanner): [depth] is how many nested calls are still allowed. *)
Fixpoint scan_once (py : interpreter) (depth : nat) (s : string) {struct depth}
  : scan value :=
  match s with
  | EmptyString => StopIteration
  | String nextchar r =>
      if Ascii.eqb nextchar quote then
        match scanstring_at depth r with
        | Scanned str rest => Scanned (PyStr str) rest
        | StopIteration => StopIteration
        | Error e => Error e
        | OutOfGas => OutOfGas
        end
      else if Ascii.eqb nextchar "{" then
        match depth with
        | 0 => Error RecursionError
        | S d => JSONObject (scan_once py d) d r
        end
      else if Ascii.eqb nextchar "[" then
        match depth with
        | 0 => Error RecursionError
        | S d => JSONArray (scan_once py d) d r
        end
      else
        match after_prefix "null" s, after_prefix "true" s,
              after_prefix "false" s with
        | Some rest, _, _ => Scanned PyNone rest
        | _, Some rest, _ => Scanned (PyBool true) rest
        | _, _, Some rest => Scanned (PyBool false) rest
        | None, None, None =>
            match match_number s with
            | Some (sign, digits, frac, exp, rest) =>
                match frac, exp with
                | EmptyString, EmptyString =>
                    match parse_int py sign digits with
                    | Returned z => Scanned (PyInt z) rest
                    | Raised e => Error e
                    end
                | _, _ => Scanned (PyFloat (sign ++ digits ++ frac ++ exp)) rest
                end
            | None =>
                match after_prefix "NaN" s, after_prefix "Infinity" s,
                      after_prefix "-Infinity" s with
                | Some rest, _, _ => parse_constant depth "nan" rest
                | _, Some rest, _ => parse_constant depth "inf" rest
                | _, _, Some rest => parse_constant depth "-inf" rest
                | None, None, None => StopIteration
                end
            end
        end
  end.

(** The nested calls that the scanner has left when it starts: two are
    what [raw_decode], one call above it, needs of the three that build the
    JSONDecodeError for a text without a value. *)
Definition scanner_depth (py : interpreter) : nat :=
  S (S (recursion_budget py)).

(** [json.loads(s)] for a [str]: [JSONDecoder.decode], which skips the
    whitespace around the one value and refuses anything after it. *)
Definition loads (py : interpreter) (s : string) : outcome value :=
  match scan_once py (scanner_depth py) (skip_ws s) with
  | Scanned obj rest =>
      match skip_ws rest with
      | EmptyString => Returned obj
      | _ => Raised JSONDecodeError   (* Extra data *)
      end
  | StopIteration => Raised JSONDecodeError   (* Expecting value *)
  | Error e => Raised e
  | OutOfGas => Raised RecursionError
  end.

End json.

(** ** The Anthropic client, as the service calls it *)

(** The keyword arguments of [client.messages.create]. *)
Record create_kwargs : Type := {
  model : string;
  max_tokens : Z;
  messages : list value
}.

(** A block of the reply: [message.content[0].text] exists on a text block
    only. *)
Inductive ContentBlock : Type :=
| TextBlock (text : string)
| ToolUseBlock.

Record Message : Type := { content : list ContentBlock }.

(** [message.content[0].text] *)
Definition content_0_text (message : Message) : outcome string :=
  match content message with
  | [] => Raised IndexError
  | TextBlock text :: _ => Returned text
  | ToolUseBlock :: _ => Raised AttributeError
  end.

(** ** Prompt templates (the two f-strings) *)

Definition nl : string := String "010" EmptyString.
Definition dq : string := String "034" EmptyString.

(** Lines 23-44. *)
Definition ats_prompt (resume_text job_description : string) : string :=
  "You are an expert ATS (Applicant Tracking System) analyzer and career coach." ++ nl ++
  nl ++
  "Analyze this resume against the job description and provide:" ++ nl ++
  "1. An ATS compatibility score from 0-100" ++ nl ++
  "2. Keywords from the job description that are MISSING from the resume" ++ nl ++
  "3. Specific suggestions to improve the resume for this role" ++ nl ++
  "4. A brief summary of the analysis" ++ nl ++
  nl ++
  "RESUME:" ++ nl ++
  resume_text ++ nl ++
  nl ++
  "JOB DESCRIPTION:" ++ nl ++
  job_description ++ nl ++
  nl ++
  "Respond in this exact JSON format (no markdown, just pure JSON):" ++ nl ++
  "{" ++ nl ++
  "    " ++ dq ++ "score" ++ dq ++ ": <number 0-100>," ++ nl ++
  "    " ++ dq ++ "missing_keywords" ++ dq ++ ": [" ++ dq ++ "keyword1" ++ dq
         ++ ", " ++ dq ++ "keyword2" ++ dq ++ ", ...]," ++ nl ++
  "    " ++ dq ++ "suggestions" ++ dq ++ ": [" ++ dq ++ "suggestion1" ++ dq
         ++ ", " ++ dq ++ "suggestion2" ++ dq ++ ", ...]," ++ nl ++
  "    " ++ dq ++ "summary" ++ dq ++ ": " ++ dq
         ++ "Brief 2-3 sentence summary of the analysis" ++ dq ++ nl ++
  "}" ++ nl.

(** Lines 92-110. *)
Definition cover_letter_prompt
  (resume_text job_description company_name tone : string) : string :=
  "You are an expert career coach and professional writer." ++ nl ++
  nl ++
  "Write a compelling cover letter for this candidate applying to "
    ++ company_name ++ "." ++ nl ++
  nl ++
  "RESUME:" ++ nl ++
  resume_text ++ nl ++
  nl ++
  "JOB DESCRIPTION:" ++ nl ++
  job_description ++ nl ++
  nl ++
  "INSTRUCTIONS:" ++ nl ++
  "- Tone: " ++ tone ++ nl ++
  "- Length: 3-4 paragraphs" ++ nl ++
  "- Highlight relevant experience from the resume" ++ nl ++
  "- Show enthusiasm for the specific role and company" ++ nl ++
  "- Include a strong opening and call to action" ++ nl ++
  "- Do NOT use placeholder text like [Your Name] - write it as a complete letter" ++ nl ++
  nl ++
  "Write the cover letter now:".

(** ** The response interpretation step (lines 57-70) *)

(** The default structure of the [except] branch. *)
Definition default_structure (response_text : string) : value :=
  PyDict [ ("score", PyInt 0);
           ("missing_keywords", PyList []);
           ("suggestions", PyList [PyStr "Could not analyze - please try again"]);
           ("summary", PyStr response_text) ].

(** [try: result = json.loads(response_text)
     except json.JSONDecodeError: result = {...}
     return result] *)
Definition interpret (py : interpreter) (response_text : string)
  : outcome value :=
  match json.loads py response_text with
  | Raised JSONDecodeError => Returned (default_structure response_text)
  | result => result
  end.

(** The four keys of a ScoreReport, and the test that an object is a dict
    holding all of them. *)
Definition required_keys : list string :=
  ["score"; "missing_keywords"; "suggestions"; "summary"].

Definition fully_populated (obj : value) : bool :=
  forallb (fun k => match field k obj with Some _ => true | None => false end)
          required_keys.

(** ** The two public operations *)

Declare Scope py_scope.
Delimit Scope py_scope with py.

Section Service.
(** The generation backend is opaque: some state behind the client handle
    (the module creates the handle once, when it is imported) and what one
    [client.messages.create] call does with it. *)
Variable Backend : Type.
Variable messages_create :
  create_kwargs -> Backend -> outcome Message * Backend.
Variable py : interpreter.

(** The world a call runs in: the backend, and the requests sent to it so
    far, oldest first. *)
Record world : Type := { backend : Backend; sent : list create_kwargs }.

(** A Python computation: it changes the world and returns or raises. *)
Definition Py (A : Type) : Type := world -> outcome A * world.

Definition ret {A : Type} (a : A) : Py A := fun w => (Returned a, w).

Definition bind {A B : Type} (c : Py A) (k : A -> Py B) : Py B :=
  fun w =>
    match c w with
    | (Returned a, w') => k a w'
    | (Raised e, w') => (Raised e, w')
    end.

(** A call without effect on the world that returns or raises. *)
Definition lift {A : Type} (o : outcome A) : Py A := fun w => (o, w).

(** [client.messages.create(model=..., max_tokens=..., messages=...)] *)
Definition client_messages_create (kwargs : create_kwargs) : Py Message :=
  fun w =>
    let (reply, backend') := messages_create kwargs (backend w) in
    (reply, {| backend := backend'; sent := (sent w ++ [kwargs])%list |}).

Local Notation "x <- c ;; k" := (bind c (fun x => k))
  (at level 61, c at next level, right associativity) : py_scope.
Local Open Scope py_scope.

Definition user_message (prompt : string) : value :=
  PyDict [("role", PyStr "user"); ("content", PyStr prompt)].

Definition analyze_resume_ats (resume_text job_description : string)
  : Py value :=
  let prompt := ats_prompt resume_text job_description in
  message <- client_messages_create
               {| model := "claude-sonnet-4-20250514";
                  max_tokens := 1024;
                  messages := [user_message prompt] |} ;;
  response_text <- lift (content_0_text message) ;;
  result <- lift (interpret py response_text) ;;
  ret result.

(** [tone] is the keyword with a default: [None] when the caller omits it. *)
Definition generate_cover_letter
  (resume_text job_description company_name : string) (tone : option string)
  : Py string :=
  let tone := match tone with Some t => t | None => "professional" end in
  let prompt :=
    cover_letter_prompt resume_text job_description company_name tone in
  message <- client_messages_create
               {| model := "claude-sonnet-4-20250514";
                  max_tokens := 1500;
                  messages := [user_message prompt] |} ;;
  lift (content_0_text message).

(** The requests that running [c] in [w] adds to the log. *)
Definition requests_of {A : Type} (c : Py A) (w : world)
  : list create_kwargs :=
  skipn (List.length (sent w)) (sent (snd (c w))).
End Service.

Arguments backend {Backend} w.
Arguments sent {Backend} w.
Arguments analyze_resume_ats {Backend} messages_create py resume_text job_description.
Arguments generate_cover_letter {Backend} messages_create resume_text job_description company_name tone.
Arguments requests_of {Backend A} c w.

(** A scripted client for running the service without a network: the
    backend is the list of replies still to give; with none left the call
    fails as a connection would. *)
Definition scripted (kwargs : create_kwargs) (replies : list (outcome Message))
  : outcome Message * list (outcome Message) :=
  match replies with
  | reply :: rest => (reply, rest)
  | [] => (Raised (ClientError "APIConnectionError"), [])
  end.

Definition text_reply (text : string) : outcome Message :=
  Returned {| content := [TextBlock text] |}.

Definition fresh (replies : list (outcome Message)) : world (list (outcome Message)) :=
  {| backend := replies; sent := [] |}.

(** ** Inputs of the scenarios and notions used by the statements *)

(** Scenario A: the reply of a generator that follows the prompt. *)
Definition scenario_A : string :=
  "{" ++ dq ++ "score" ++ dq ++ ": 72, "
      ++ dq ++ "missing_keywords" ++ dq ++ ": [" ++ dq ++ "AWS" ++ dq ++ "], "
      ++ dq ++ "suggestions" ++ dq ++ ": [" ++ dq ++ "Add AWS experience" ++ dq ++ "], "
      ++ dq ++ "summary" ++ dq ++ ": " ++ dq ++ "Good match" ++ dq ++ "}".

(** Scenario B: a reply that is not JSON. *)
Definition scenario_B : string := "Sorry, I cannot help.".

(** A reply with the four keys and values of unexpected types. *)
Definition mistyped_report : string :=
  "{" ++ dq ++ "score" ++ dq ++ ": " ++ dq ++ "high" ++ dq ++ ", "
      ++ dq ++ "missing_keywords" ++ dq ++ ": 250, "
      ++ dq ++ "suggestions" ++ dq ++ ": null, "
      ++ dq ++ "summary" ++ dq ++ ": [true]}".

(** [c * n] *)
Fixpoint times (c : ascii) (n : nat) : string :=
  match n with
  | 0 => EmptyString
  | S n' => String c (times c n')
  end.

(** How many brackets and braces open in a text (those inside string
    literals included). *)
Fixpoint brackets (s : string) : nat :=
  match s with
  | String c r =>
      (if Ascii.eqb c "[" || Ascii.eqb c "{" then 1 else 0) + brackets r
  | EmptyString => 0
  end.

(** The length of the run of digits in front of a text, and of the longest
    run of digits anywhere in it. *)
Fixpoint digit_run (s : string) : nat :=
  match s with
  | String c r => if json.is_digit c then S (digit_run r) else 0
  | EmptyString => 0
  end.

Fixpoint longest_digit_run (s : string) : nat :=
  match s with
  | String c r => Nat.max (digit_run s) (longest_digit_run r)
  | EmptyString => 0
  end.

(** A text that the decoder can read to its end, or refuse, with the
    interpreter's resources: fewer brackets than the budget of nested calls
    (so that, every bracket entered, the three calls of a JSONDecodeError
    are still left), and no run of digits over the limit on integers. *)
Definition within_limits (py : interpreter) (s : string) : Prop :=
  brackets s + 1 <= recursion_budget py /\
  (int_max_str_digits py = 0 \/ longest_digit_run s <= int_max_str_digits py).

(** The request each operation is expected to send: one user message that
    carries the prompt, for a fixed model and a fixed ceiling of output
    tokens. *)
Definition scoring_request (resume_text job_description : string)
  : create_kwargs :=
  {| model := "claude-sonnet-4-20250514";
     max_tokens := 1024;
     messages :=
       [PyDict [("role", PyStr "user");
                ("content", PyStr (ats_prompt resume_text job_description))]] |}.

Definition letter_request
  (resume_text job_description company_name tone : string) : create_kwargs :=
  {| model := "claude-sonnet-4-20250514";
     max_tokens := 1500;
     messages :=
       [PyDict [("role", PyStr "user");
                ("content",
                 PyStr (cover_letter_prompt resume_text job_description
                          company_name tone))]] |}.

(** The tone a call of [generate_cover_letter] uses. *)
Definition tone_used (tone : option string) : string :=
  match tone with
  | Some t => t
  | None => "professional"
  end.

(** Valid JSON that holds one integer of 4301 digits, and the same text cut
    after the integer. *)
Definition long_integer : string := "[" ++ times "1" 4301 ++ "]".
Definition long_integer_cut : string := "[" ++ times "1" 4301.

(** Valid JSON of 1001 nested empty arrays, and the same text cut after the
    opening brackets. *)
Definition deep_array : string := times "[" 1001 ++ times "]" 1001.
Definition deep_array_cut : string := times "[" 1001.

(** A reply with the four keys and one more. *)
Definition extra_key_report : string :=
  "{" ++ dq ++ "score" ++ dq ++ ": 72, "
      ++ dq ++ "missing_keywords" ++ dq ++ ": [], "
      ++ dq ++ "suggestions" ++ dq ++ ": [], "
      ++ dq ++ "summary" ++ dq ++ ": " ++ dq ++ "ok" ++ dq ++ ", "
      ++ dq ++ "confidence" ++ dq ++ ": 0.9}".

(** A reply that is an object with one of the four keys only. *)
Definition score_only : string := "{" ++ dq ++ "score" ++ dq ++ ": 72}".

(** [x in s] for two strings. *)
Definition occurs_in (x s : string) : Prop :=
  exists before after, s = before ++ x ++ after.

(** [r] is what is left of [s] after reading some of it. *)
Definition suffix (r s : string) : Prop := exists p, s = p ++ r.

(** The exceptions of the decoder. *)
Definition decoder_exception (e : exn) : Prop :=
  e = JSONDecodeError \/ e = RecursionError \/ e = ValueError.

(** What a well-behaved scanning function gives on [s]: the text it leaves
    is a suffix of [s], the loops have gas left, an exception is one of the
    decoder's, and when [s] is within the bounds [ok] it is a
    JSONDecodeError. *)
Definition sound_on {A : Type} (ok : string -> Prop) (s : string)
  (res : json.scan A) : Prop :=
  match res with
  | json.Scanned _ r => suffix r s
  | json.StopIteration => True
  | json.Error e => decoder_exception e /\ (ok s -> e = JSONDecodeError)
  | json.OutOfGas => False
  end.

Definition sound {A : Type} (ok : string -> Prop) (f : string -> json.scan A)
  : Prop :=
  forall s, sound_on ok s (f s).

(** What [scanstring] gives on [s]: a string and a suffix of [s], or a
    JSONDecodeError. *)
Definition scanned_string (s : string) (res : json.scan string) : Prop :=
  match res with
  | json.Scanned _ r => suffix r s
  | json.Error e => e = JSONDecodeError
  | json.StopIteration | json.OutOfGas => False
  end.

(** The bounds of [within_limits], for [depth] nested calls. *)
Definition fits (py : interpreter) (depth : nat) (s : string) : Prop :=
  brackets s + 3 <= depth /\
  (int_max_str_digits py = 0 \/ longest_digit_run s <= int_max_str_digits py).

(** ** Notions used by the further properties of the service *)

(** The characters a JSON value can start with, as [scan_once] tests them:
    a quote, a brace, a bracket, the first letter of null, true, false, NaN
    and Infinity, a minus sign or a digit. *)
Definition can_start_value (c : ascii) : bool :=
  Ascii.eqb c json.quote || Ascii.eqb c "{" || Ascii.eqb c "["
  || Ascii.eqb c "n" || Ascii.eqb c "t" || Ascii.eqb c "f"
  || Ascii.eqb c "N" || Ascii.eqb c "I" || Ascii.eqb c "-"
  || json.is_digit c.

(** The text the scoring prompt puts between the resume and the job
    description. *)
Definition job_heading : string := nl ++ nl ++ "JOB DESCRIPTION:" ++ nl.

(** The text of the scoring prompt before the resume and after the job
    description. *)
Definition ats_prompt_head : string :=
  "You are an expert ATS (Applicant Tracking System) analyzer and career coach." ++ nl ++
  nl ++
  "Analyze this resume against the job description and provide:" ++ nl ++
  "1. An ATS compatibility score from 0-100" ++ nl ++
  "2. Keywords from the job description that are MISSING from the resume" ++ nl ++
  "3. Specific suggestions to improve the resume for this role" ++ nl ++
  "4. A brief summary of the analysis" ++ nl ++
  nl ++
  "RESUME:" ++ nl.

Definition ats_prompt_tail : string :=
  nl ++
  nl ++
  "Respond in this exact JSON format (no markdown, just pure JSON):" ++ nl ++
  "{" ++ nl ++
  "    " ++ dq ++ "score" ++ dq ++ ": <number 0-100>," ++ nl ++
  "    " ++ dq ++ "missing_keywords" ++ dq ++ ": [" ++ dq ++ "keyword1" ++ dq
         ++ ", " ++ dq ++ "keyword2" ++ dq ++ ", ...]," ++ nl ++
  "    " ++ dq ++ "suggestions" ++ dq ++ ": [" ++ dq ++ "suggestion1" ++ dq
         ++ ", " ++ dq ++ "suggestion2" ++ dq ++ ", ...]," ++ nl ++
  "    " ++ dq ++ "summary" ++ dq ++ ": " ++ dq
         ++ "Brief 2-3 sentence summary of the analysis" ++ dq ++ nl ++
  "}" ++ nl.

(** A reply in a markdown fence, and one with a sentence in front. *)
Definition fenced_reply : string :=
  "```json" ++ nl ++ scenario_A ++ nl ++ "```".
Definition chatty_reply : string :=
  "Here is the analysis:" ++ nl ++ scenario_A.

(** ** The job store: [backend/app/database.py] and
    [backend/app/models.py] (both as setup_jobtrack.py writes them out),
    and the endpoints of [backend/app/main.py]

    SQLite is modelled for the statements the code sends, no further.  A
    database is its [jobs] table, in rowid order, and the counter that
    AUTOINCREMENT keeps in [sqlite_sequence]; the [contacts] and
    [interviews] tables are created and never touched.  A [date] is its
    proleptic Gregorian ordinal, as [date.toordinal()] gives it.  The
    endpoints get the request already validated by pydantic: a [JobCreate.t],
    a [JobUpdate.t], an [int].

    The file of the database is there or not, or cannot be opened; when it
    is there it is a database of SQLite that no other process holds, and
    writing to it succeeds.

    A connection belongs to the thread that opened it
    ([check_same_thread] keeps its default), and every call on it from
    another thread raises sqlite3.ProgrammingError.  An endpoint is its
    function, called on the connection that [get_db] opens before it and
    closes after it; the threads in which the three happen are given from
    outside, since it is the framework that picks them.  The conversion of
    the returned value to the response model is outside the model. *)

From Stdlib Require DecimalString.

Module api.

(** *** Values, rows and errors *)

(** The storage classes the code stores. *)
Inductive sql : Type :=
| Null
| Integer (z : Z)
| Text (s : string).

(** What [sqlite3] hands to Python for a stored value. *)
Definition python (v : sql) : value :=
  match v with
  | Null => PyNone
  | Integer z => PyInt z
  | Text s => PyStr s
  end.

(** A row of [jobs], by the columns of CREATE TABLE. *)
Module Row.
Record t : Type := {
  id : Z;
  company : sql;
  position : sql;
  location : sql;
  job_url : sql;
  salary_min : sql;
  salary_max : sql;
  status : sql;
  date_added : sql;
  date_applied : sql;
  notes : sql;
  created_at : sql;
  updated_at : sql
}.
End Row.

(** [dict(row)] for a [sqlite3.Row]. *)
Definition dict_of_row (r : Row.t) : value :=
  PyDict [ ("id", PyInt (Row.id r));
           ("company", python (Row.company r));
           ("position", python (Row.position r));
           ("location", python (Row.location r));
           ("job_url", python (Row.job_url r));
           ("salary_min", python (Row.salary_min r));
           ("salary_max", python (Row.salary_max r));
           ("status", python (Row.status r));
           ("date_added", python (Row.date_added r));
           ("date_applied", python (Row.date_applied r));
           ("notes", python (Row.notes r));
           ("created_at", python (Row.created_at r));
           ("updated_at", python (Row.updated_at r)) ].

(** A thread, by [threading.get_ident()]. *)
Definition thread : Type := Z.

(** What sqlite3.ProgrammingError is raised for: an object used in another
    thread than the one that created it, and a sequence of parameters that
    is not as long as the statement has placeholders. *)
Inductive misuse : Type :=
| OtherThread (created current : thread)
| Bindings (uses supplied : nat).

(** The exceptions of this part of the code. *)
Inductive error : Type :=
| HTTPException (status_code : Z) (detail : string)
| OperationalError (message : string)   (* sqlite3.OperationalError *)
| IntegrityError (message : string)     (* sqlite3.IntegrityError *)
| ProgrammingError (why : misuse)       (* sqlite3.ProgrammingError *)
| OverflowError        (* an int too large for SQLite, a date out of range *)
| UnicodeEncodeError   (* a str with a surrogate, encoded as UTF-8 *)
| ValueError           (* a path with a null character in it *)
| IndexError                            (* seq[i] out of range *)
| TypeError.                            (* dict(None) *)

Inductive result (A : Type) : Type :=
| Ok (a : A)
| Raise (e : error).
Arguments Ok {A} a.
Arguments Raise {A} e.

(** *** Dates *)

(** A [datetime.date], by its ordinal: 1 is the first of January of year 1. *)
Record date : Type := { toordinal : Z }.

Definition DAYS_IN_MONTH (month : Z) (leapyear : bool) : Z :=
  (if (month =? 2)%Z then (if leapyear then 29 else 28)
   else if (month =? 4)%Z || (month =? 6)%Z || (month =? 9)%Z
           || (month =? 11)%Z then 30
   else 31)%Z.

(** [_DAYS_BEFORE_MONTH[month] + (month > 2 and leapyear)] *)
Definition days_before_month (month : Z) (leapyear : bool) : Z :=
  (nth (Z.to_nat month)
       [0; 0; 31; 59; 90; 120; 151; 181; 212; 243; 273; 304; 334] 0
   + (if (2 <? month) && leapyear then 1 else 0))%Z.

(** [_ord2ymd(n)] of CPython's datetime module. *)
Definition ord2ymd (ordinal : Z) : Z * Z * Z :=
  (let n := ordinal - 1 in
   let n400 := n / 146097 in
   let n := n mod 146097 in
   let n100 := n / 36524 in
   let n := n mod 36524 in
   let n4 := n / 1461 in
   let n := n mod 1461 in
   let n1 := n / 365 in
   let n := n mod 365 in
   let year := n400 * 400 + 1 + n100 * 100 + n4 * 4 + n1 in
   if (n1 =? 4) || (n100 =? 4) then (year - 1, 12, 31)
   else
     let leapyear := (n1 =? 3) && (negb (n4 =? 24) || (n100 =? 3)) in
     let month := (n + 50) / 32 in
     let preceding := days_before_month month leapyear in
     if n <? preceding then
       let month := month - 1 in
       let preceding := preceding - DAYS_IN_MONTH month leapyear in
       (year, month, n - preceding + 1)
     else (year, month, n - preceding + 1))%Z.

(** A number in decimal, padded with zeros to [width] digits. *)
Fixpoint zero_padded (width : nat) (n : Z) : string :=
  match width with
  | 0 => EmptyString
  | S w =>
      zero_padded w (n / 10)
      ++ String (ascii_of_N (48 + Z.to_N (n mod 10))) EmptyString
  end.

(** [d.isoformat()], which is also how [sqlite3] binds a [date]. *)
Definition isoformat (d : date) : string :=
  let '(year, month, day) := ord2ymd (toordinal d) in
  zero_padded 4 year ++ "-" ++ zero_padded 2 month ++ "-" ++ zero_padded 2 day.

(** *** Parameters of a statement *)

Inductive param : Type :=
| PNone
| PInt (z : Z)
| PStr (s : string)
| PDate (d : date).

(** What fits a SQLite INTEGER: a signed 64-bit number. *)
Definition int64 (z : Z) : bool :=
  ((- 9223372036854775808 <=? z) && (z <=? 9223372036854775807))%Z.

(** A [str] with a surrogate in it.  In the bytes that stand for a [str]
    a surrogate is the byte ED followed by a byte from A0 to BF (and a
    third); ED starts no other character of that range. *)
Fixpoint has_surrogate (s : string) : bool :=
  match s with
  | String a ((String b _) as rest) =>
      ((N_of_ascii a =? 237)%N
       && (160 <=? N_of_ascii b)%N && (N_of_ascii b <=? 191)%N)
      || has_surrogate rest
  | _ => false
  end.

(** Binding one parameter.  A [str] is handed to SQLite in UTF-8, which
    has no encoding for a surrogate. *)
Definition bind (p : param) : result sql :=
  match p with
  | PNone => Ok Null
  | PInt z => if int64 z then Ok (Integer z) else Raise OverflowError
  | PStr s => if has_surrogate s then Raise UnicodeEncodeError else Ok (Text s)
  | PDate d => Ok (Text (isoformat d))
  end.

(** Binding the parameters in order: the first that does not fit raises. *)
Fixpoint bind_all (ps : list param) : result (list sql) :=
  match ps with
  | [] => Ok []
  | p :: ps' =>
      match bind p with
      | Raise e => Raise e
      | Ok v =>
          match bind_all ps' with
          | Raise e => Raise e
          | Ok vs => Ok (v :: vs)
          end
      end
  end.

(** *** Databases and connections *)

(** [jobs] is [None] until CREATE TABLE has run. *)
Record sqlite_db : Type := {
  jobs : option (list Row.t);
  contacts : bool;
  interviews : bool;
  sqlite_sequence : Z
}.

(** A database just created: no table yet. *)
Definition empty_db : sqlite_db :=
  {| jobs := None; contacts := false; interviews := false;
     sqlite_sequence := 0 |}.

(** What the clock says at one moment: SQLite's CURRENT_DATE and
    CURRENT_TIMESTAMP, and Python's [datetime.now().date()]. *)
Record clock_reading : Type := {
  CURRENT_DATE : string;
  CURRENT_TIMESTAMP : string;
  today : date
}.

(** An open connection, in the hands of the code that uses it: the
    database as the statements so far have left it, and as the last commit
    saved it; the thread that opened the connection, and the thread in which
    the code that holds it now runs.  The clock is read anew each time the
    code or a statement asks for the time: [clock n] is the [n]-th reading,
    [ticks] how many were taken. *)
Record connection : Type := {
  work : sqlite_db;
  saved : sqlite_db;
  clock : nat -> clock_reading;
  ticks : nat;
  owner : thread;
  caller : thread
}.

(** Code that changes a state and returns or raises. *)
Definition Run (S A : Type) : Type := S -> result A * S.

Definition ret {S A : Type} (a : A) : Run S A := fun s => (Ok a, s).

Definition raise {S A : Type} (e : error) : Run S A := fun s => (Raise e, s).

Definition bind_run {S A B : Type} (m : Run S A) (k : A -> Run S B)
  : Run S B :=
  fun s =>
    match m s with
    | (Ok a, s') => k a s'
    | (Raise e, s') => (Raise e, s')
    end.

(** Code that runs on a connection. *)
Definition Sql (A : Type) : Type := Run connection A.

(** The check that every method of a connection or of a cursor starts
    with: the calling thread is the one that opened the connection. *)
Definition in_its_thread {A : Type} (call : Sql A) : Sql A :=
  fun c =>
    if (caller c =? owner c)%Z then call c
    else (Raise (ProgrammingError (OtherThread (owner c) (caller c))), c).

(** [conn.cursor()] *)
Definition cursor : Sql unit := in_its_thread (ret tt).

(** [conn.commit()] *)
Definition commit : Sql unit :=
  in_its_thread (fun c =>
    (Ok tt,
     {| work := work c; saved := work c; clock := clock c; ticks := ticks c;
        owner := owner c; caller := caller c |})).

(** [cursor.execute] of a statement on [jobs]: preparing it fails when the
    table is not there. *)
Definition on_jobs {A : Type}
  (k : list Row.t -> connection -> result A * connection) : Sql A :=
  in_its_thread (fun c =>
    match jobs (work c) with
    | None => (Raise (OperationalError "no such table: jobs"), c)
    | Some rows => k rows c
    end).

Definition with_jobs (rows : list Row.t) (seq : Z) (c : connection)
  : connection :=
  {| work := {| jobs := Some rows;
                contacts := contacts (work c);
                interviews := interviews (work c);
                sqlite_sequence := seq |};
     saved := saved c;
     clock := clock c;
     ticks := ticks c;
     owner := owner c;
     caller := caller c |}.

(** Reading the clock. *)
Definition tick (c : connection) : connection :=
  {| work := work c; saved := saved c; clock := clock c;
     ticks := S (ticks c); owner := owner c; caller := caller c |}.

Definition reading (c : connection) : clock_reading := clock c (ticks c).

(** *** The statements *)

(** SQLite's order on stored values: NULL first, then numbers, then text
    byte by byte. *)
Definition sql_compare (a b : sql) : comparison :=
  match a, b with
  | Null, Null => Eq
  | Null, _ => Lt
  | _, Null => Gt
  | Integer x, Integer y => Z.compare x y
  | Integer _, Text _ => Lt
  | Text _, Integer _ => Gt
  | Text x, Text y => String.compare x y
  end.

(** ORDER BY date_added DESC.  SQL leaves the order of rows with the same
    date open; here they stay in rowid order. *)
Fixpoint insert_desc (r : Row.t) (sorted : list Row.t) : list Row.t :=
  match sorted with
  | [] => [r]
  | x :: xs =>
      match sql_compare (Row.date_added x) (Row.date_added r) with
      | Gt => x :: insert_desc r xs
      | _ => r :: x :: xs
      end
  end.

Definition order_by_date_added_desc (rows : list Row.t) : list Row.t :=
  fold_right insert_desc [] rows.

(** [status = ?] for a text parameter. *)
Definition status_is (s : string) (r : Row.t) : bool :=
  match Row.status r with
  | Text t => String.eqb t s
  | _ => false
  end.

(** SELECT * FROM jobs ORDER BY date_added DESC, and [fetchall()]. *)
Definition select_jobs : Sql (list Row.t) :=
  on_jobs (fun rows c => (Ok (order_by_date_added_desc rows), c)).

(** SELECT * FROM jobs WHERE status = ? ORDER BY date_added DESC, and
    [fetchall()]. *)
Definition select_jobs_by_status (status : string) : Sql (list Row.t) :=
  on_jobs (fun rows c =>
    match bind (PStr status) with
    | Raise e => (Raise e, c)
    | Ok _ =>
        (Ok (order_by_date_added_desc (filter (status_is status) rows)), c)
    end).

(** SELECT * FROM jobs WHERE id = ?, and [fetchone()]. *)
Definition select_job_by_id (job_id : Z) : Sql (option Row.t) :=
  on_jobs (fun rows c =>
    match bind (PInt job_id) with
    | Raise e => (Raise e, c)
    | Ok _ => (Ok (find (fun r => (Row.id r =? job_id)%Z) rows), c)
    end).

(** The largest rowid in the table, 0 when it is empty. *)
Definition max_rowid (rows : list Row.t) : Z :=
  fold_right (fun r m => Z.max (Row.id r) m) 0%Z rows.

(** The NOT NULL columns. *)
Definition not_null_violation (r : Row.t) : option string :=
  match Row.company r, Row.position r with
  | Null, _ => Some "NOT NULL constraint failed: jobs.company"
  | _, Null => Some "NOT NULL constraint failed: jobs.position"
  | _, _ => None
  end.

(** An INSERT into [jobs] that gives no id: the parameters are bound,
    AUTOINCREMENT takes the rowid after the largest one ever used, the row
    is built from the bound values and the column defaults, and the NOT
    NULL columns are checked.  The result is [cursor.lastrowid]. *)
Definition execute_insert (params : list param)
  (row_of : list sql -> Z -> clock_reading -> Row.t) : Sql Z :=
  on_jobs (fun rows c =>
    match bind_all params with
    | Raise e => (Raise e, c)
    | Ok values =>
        let largest := Z.max (max_rowid rows) (sqlite_sequence (work c)) in
        if (largest =? 9223372036854775807)%Z then
          (Raise (OperationalError "database or disk is full"), c)
        else
          let r := row_of values (largest + 1)%Z (reading c) in
          match not_null_violation r with
          | Some message => (Raise (IntegrityError message), tick c)
          | None =>
              (Ok (largest + 1)%Z,
               with_jobs (rows ++ [r])%list (largest + 1)%Z (tick c))
          end
    end).

(** The row of
    INSERT INTO jobs (company, position, location, job_url, salary_min,
    salary_max, status, notes) VALUES (?, ?, ?, ?, ?, ?, ?, ?):
    the other columns take their defaults. *)
Definition row_of_create (values : list sql) (rowid : Z) (now : clock_reading)
  : Row.t :=
  {| Row.id := rowid;
     Row.company := nth 0 values Null;
     Row.position := nth 1 values Null;
     Row.location := nth 2 values Null;
     Row.job_url := nth 3 values Null;
     Row.salary_min := nth 4 values Null;
     Row.salary_max := nth 5 values Null;
     Row.status := nth 6 values Null;
     Row.date_added := Text (CURRENT_DATE now);
     Row.date_applied := Null;
     Row.notes := nth 7 values Null;
     Row.created_at := Text (CURRENT_TIMESTAMP now);
     Row.updated_at := Text (CURRENT_TIMESTAMP now) |}.

(** The row of
    INSERT INTO jobs (company, position, location, salary_min, salary_max,
    status, date_added) VALUES (?, ?, ?, ?, ?, ?, ?). *)
Definition row_of_sample (values : list sql) (rowid : Z) (now : clock_reading)
  : Row.t :=
  {| Row.id := rowid;
     Row.company := nth 0 values Null;
     Row.position := nth 1 values Null;
     Row.location := nth 2 values Null;
     Row.job_url := Null;
     Row.salary_min := nth 3 values Null;
     Row.salary_max := nth 4 values Null;
     Row.status := nth 5 values Null;
     Row.date_added := nth 6 values Null;
     Row.date_applied := Null;
     Row.notes := Null;
     Row.created_at := Text (CURRENT_TIMESTAMP now);
     Row.updated_at := Text (CURRENT_TIMESTAMP now) |}.

(** The columns an UPDATE of this code can name. *)
Definition updatable : list string :=
  ["company"; "position"; "location"; "job_url"; "salary_min"; "salary_max";
   "status"; "date_applied"; "notes"].

(** [column = v] on one row; a column that is not named keeps its value. *)
Definition assign (column : string) (v : sql) (r : Row.t) : Row.t :=
  let pick name old := if String.eqb name column then v else old in
  {| Row.id := Row.id r;
     Row.company := pick "company" (Row.company r);
     Row.position := pick "position" (Row.position r);
     Row.location := pick "location" (Row.location r);
     Row.job_url := pick "job_url" (Row.job_url r);
     Row.salary_min := pick "salary_min" (Row.salary_min r);
     Row.salary_max := pick "salary_max" (Row.salary_max r);
     Row.status := pick "status" (Row.status r);
     Row.date_added := Row.date_added r;
     Row.date_applied := pick "date_applied" (Row.date_applied r);
     Row.notes := pick "notes" (Row.notes r);
     Row.created_at := Row.created_at r;
     Row.updated_at := pick "updated_at" (Row.updated_at r) |}.

(** The assignments of a SET clause, left to right. *)
Fixpoint assign_all (columns : list string) (values : list sql) (r : Row.t)
  : Row.t :=
  match columns, values with
  | column :: columns', v :: values' =>
      assign_all columns' values' (assign column v r)
  | _, _ => r
  end.

(** How many [?] a statement has. *)
Fixpoint placeholders (query : string) : nat :=
  match query with
  | String c rest =>
      (if Ascii.eqb c "?" then 1 else 0) + placeholders rest
  | EmptyString => 0
  end.

(** NOT NULL on an UPDATE: SQLite checks the columns that the SET clause
    names, in the order of the table, on each row it rewrites. *)
Definition null_assigned (columns : list string) (rewritten : Row.t)
  : option string :=
  let named column := existsb (String.eqb column) columns in
  let is_null v := match v with Null => true | _ => false end in
  if named "company" && is_null (Row.company rewritten) then
    Some "NOT NULL constraint failed: jobs.company"
  else if named "position" && is_null (Row.position rewritten) then
    Some "NOT NULL constraint failed: jobs.position"
  else None.

(** The first violation among the rewritten rows, if any. *)
Fixpoint first_violation (columns : list string) (rewritten : list Row.t)
  : option string :=
  match rewritten with
  | [] => None
  | r :: rows' =>
      match null_assigned columns r with
      | Some message => Some message
      | None => first_violation columns rows'
      end
  end.

(** [cursor.execute(query, values)] for
    UPDATE jobs SET c1 = ?, ..., updated_at = CURRENT_TIMESTAMP WHERE id = ?
    where [columns] are the c1, ... of [query] and the last of [values] is
    the id.  The statement is prepared (every column must exist), the number
    of parameters is compared with the number of [?], the parameters are
    bound, and the rows with that id are rewritten unless that gives NULL to
    a NOT NULL column.  The values are stored as bound: the code passes
    each column a value of its own storage class. *)
Definition execute_update (query : string) (columns : list string)
  (values : list param) : Sql unit :=
  on_jobs (fun rows c =>
    if negb (forallb (fun column => existsb (String.eqb column) updatable)
                     columns) then
      (Raise (OperationalError "no such column"), c)
    else if negb (Nat.eqb (placeholders query) (List.length values)) then
      (Raise (ProgrammingError
                (Bindings (placeholders query) (List.length values))), c)
    else
      match bind_all values with
      | Raise e => (Raise e, c)
      | Ok bound =>
          let job_id := last bound Null in
          let rewrite r :=
            match job_id with
            | Integer i =>
                if (Row.id r =? i)%Z then
                  assign "updated_at" (Text (CURRENT_TIMESTAMP (reading c)))
                    (assign_all columns bound r)
                else r
            | _ => r
            end in
          let matches r :=
            match job_id with
            | Integer i => (Row.id r =? i)%Z
            | _ => false
            end in
          match first_violation columns (map rewrite (filter matches rows)) with
          | Some message => (Raise (IntegrityError message), tick c)
          | None =>
              (Ok tt,
               with_jobs (map rewrite rows) (sqlite_sequence (work c)) (tick c))
          end
    end).

(** DELETE FROM jobs WHERE id = ?; the result is [cursor.rowcount]. *)
Definition execute_delete (job_id : Z) : Sql Z :=
  on_jobs (fun rows c =>
    match bind (PInt job_id) with
    | Raise e => (Raise e, c)
    | Ok _ =>
        let kept := filter (fun r => negb (Row.id r =? job_id)%Z) rows in
        (Ok (Z.of_nat (List.length rows) - Z.of_nat (List.length kept))%Z,
         with_jobs kept (sqlite_sequence (work c)) c)
    end).

(** *** The models of [models.py] *)

Module JobCreate.
Record t : Type := {
  company : string;
  position : string;
  location : option string;
  job_url : option string;
  salary_min : option Z;
  salary_max : option Z;
  status : string;
  notes : option string
}.
End JobCreate.

(** A field of an update: left out of the request, or given, possibly as
    null. *)
Inductive setting (A : Type) : Type :=
| Unset
| Given (v : option A).
Arguments Unset {A}.
Arguments Given {A} v.

Module JobUpdate.
Record t : Type := {
  company : setting string;
  position : setting string;
  location : setting string;
  job_url : setting string;
  salary_min : setting Z;
  salary_max : setting Z;
  status : setting string;
  date_applied : setting date;
  notes : setting string
}.
End JobUpdate.

Definition optional {A : Type} (inject : A -> param) (v : option A) : param :=
  match v with
  | Some a => inject a
  | None => PNone
  end.

Definition item {A : Type} (name : string) (inject : A -> param)
  (s : setting A) : list (string * param) :=
  match s with
  | Unset => []
  | Given v => [(name, optional inject v)]
  end.

(** [job_update.model_dump(exclude_unset=True).items()]: the fields the
    request gave, in the order of the model. *)
Definition model_dump_exclude_unset (u : JobUpdate.t) : list (string * param) :=
  (item "company" PStr (JobUpdate.company u)
   ++ item "position" PStr (JobUpdate.position u)
   ++ item "location" PStr (JobUpdate.location u)
   ++ item "job_url" PStr (JobUpdate.job_url u)
   ++ item "salary_min" PInt (JobUpdate.salary_min u)
   ++ item "salary_max" PInt (JobUpdate.salary_max u)
   ++ item "status" PStr (JobUpdate.status u)
   ++ item "date_applied" PDate (JobUpdate.date_applied u)
   ++ item "notes" PStr (JobUpdate.notes u))%list.

(** *** The endpoints of [main.py] *)

Declare Scope sql_scope.
Delimit Scope sql_scope with sql.
Notation "x <- m ;; k" := (bind_run m (fun x => k))
  (at level 61, m at next level, right associativity) : sql_scope.
Local Open Scope sql_scope.

(** GET /api/jobs *)
Definition get_jobs (status : option string) : Sql (list value) :=
  _ <- cursor ;;
  jobs <- (match status with
           | Some s =>
               if negb (String.eqb s "") then select_jobs_by_status s
               else select_jobs
           | None => select_jobs
           end) ;;
  ret (map dict_of_row jobs).

(** POST /api/jobs *)
Definition create_job (job : JobCreate.t) : Sql value :=
  _ <- cursor ;;
  job_id <- execute_insert
              [ PStr (JobCreate.company job); PStr (JobCreate.position job);
                optional PStr (JobCreate.location job);
                optional PStr (JobCreate.job_url job);
                optional PInt (JobCreate.salary_min job);
                optional PInt (JobCreate.salary_max job);
                PStr (JobCreate.status job);
                optional PStr (JobCreate.notes job) ]
              row_of_create ;;
  _ <- commit ;;
  created_job <- select_job_by_id job_id ;;
  match created_job with
  | Some r => ret (dict_of_row r)
  | None => raise TypeError
  end.

(** GET /api/jobs/{job_id} *)
Definition get_job (job_id : Z) : Sql value :=
  _ <- cursor ;;
  job <- select_job_by_id job_id ;;
  match job with
  | None => raise (HTTPException 404 "Job not found")
  | Some r => ret (dict_of_row r)
  end.

(** The text of the UPDATE that [update_job] builds. *)
Definition update_query (update_fields : list string) : string :=
  "UPDATE jobs SET " ++ String.concat ", " update_fields
    ++ ", updated_at = CURRENT_TIMESTAMP WHERE id = ?".

(** PUT /api/jobs/{job_id} *)
Definition update_job (job_id : Z) (job_update : JobUpdate.t) : Sql value :=
  _ <- cursor ;;
  found <- select_job_by_id job_id ;;
  match found with
  | None => raise (HTTPException 404 "Job not found")
  | Some _ =>
      let items := model_dump_exclude_unset job_update in
      let update_fields := map (fun kv => fst kv ++ " = ?") items in
      let values := map snd items in
      _ <- (match update_fields with
            | [] => ret tt
            | _ :: _ =>
                let values := (values ++ [PInt job_id])%list in
                let query := update_query update_fields in
                _ <- execute_update query (map fst items) values ;;
                commit
            end) ;;
      updated_job <- select_job_by_id job_id ;;
      match updated_job with
      | Some r => ret (dict_of_row r)
      | None => raise TypeError
      end
  end.

(** DELETE /api/jobs/{job_id} *)
Definition delete_job (job_id : Z) : Sql value :=
  _ <- cursor ;;
  rowcount <- execute_delete job_id ;;
  if (rowcount =? 0)%Z then raise (HTTPException 404 "Job not found")
  else
    _ <- commit ;;
    ret PyNone.

(** *** The [Database] object and [get_db] *)

(** What there is at the path of the database, as [sqlite3.connect] finds
    it: a path that it cannot open, with the exception it raises
    (OperationalError [unable to open database file] for a directory that
    is missing or may not be read; ValueError for a null character in the
    path), no file yet, or a file with a database in it.  An empty file is
    an empty database. *)
Inductive file_state : Type :=
| Refused (e : error)
| Absent
| Holds (db : sqlite_db).

(** The world of this part: the path the [db] object holds, what is at that
    path, the clock, and what was printed. *)
Record world : Type := {
  db_path : string;
  file : file_state;
  now : nat -> clock_reading;
  readings : nat;
  stdout : list string
}.

(** The database in the file of the world; the empty one when there is no
    file. *)
Definition disk (w : world) : sqlite_db :=
  match file w with
  | Holds db => db
  | Refused _ | Absent => empty_db
  end.

(** The two file names for which SQLite opens a database of its own for
    each connection and drops it at close: [:memory:] and the empty name. *)
Definition private (path : string) : bool :=
  String.eqb path ":memory:" || String.eqb path "".

(** The thread in which a script, or the caller of one function, runs. *)
Definition main : thread := 0%Z.

(** [db.connect()] in thread [t]: [sqlite3.connect(self.db_path)].  A file
    that is not there is created, empty. *)
Definition connect (t : thread) (w : world) : result connection * world :=
  let opened db :=
    {| work := db; saved := db; clock := now w; ticks := readings w;
       owner := t; caller := t |} in
  if private (db_path w) then (Ok (opened empty_db), w)
  else
    match file w with
    | Refused e => (Raise e, w)
    | Absent =>
        (Ok (opened empty_db),
         {| db_path := db_path w; file := Holds empty_db; now := now w;
            readings := readings w; stdout := stdout w |})
    | Holds db => (Ok (opened db), w)
    end.

(** The connection in the hands of code that runs in thread [t]. *)
Definition handed_to (t : thread) (c : connection) : connection :=
  {| work := work c; saved := saved c; clock := clock c; ticks := ticks c;
     owner := owner c; caller := t |}.

(** The world once a connection is gone, closed or dropped: what was
    committed is in the file, what was not is lost. *)
Definition leave (c : connection) (w : world) : world :=
  {| db_path := db_path w;
     file := if private (db_path w) then file w else Holds (saved c);
     now := now w;
     readings := ticks c;
     stdout := stdout w |}.

(** [connection.close()] in thread [t].  In another thread than the
    connection's it raises, and the connection stays open until it is
    collected. *)
Definition close (t : thread) (c : connection) (w : world)
  : result unit * world :=
  (if (t =? owner c)%Z then Ok tt
   else Raise (ProgrammingError (OtherThread (owner c) t)),
   leave c w).

(** An endpoint with [conn = Depends(get_db)]: [get_db] opens a connection
    in thread [opener] and yields it, the endpoint runs in thread [runner],
    and the [finally] of [get_db] closes the connection in thread [closer],
    whether the endpoint returned or raised.  An exception of [close] is
    the outcome then. *)
Definition serve {A : Type} (opener runner closer : thread)
  (endpoint : Sql A) (w : world) : result A * world :=
  match connect opener w with
  | (Raise e, w') => (Raise e, w')
  | (Ok c, w') =>
      let (response, c') := endpoint (handed_to runner c) in
      match close closer c' w' with
      | (Ok _, w'') => (response, w'')
      | (Raise e, w'') => (Raise e, w'')
      end
  end.

(** The same with no thread but the caller's: the endpoint as a function
    that is called with a connection of [get_db]. *)
Definition request {A : Type} (endpoint : Sql A) (w : world)
  : result A * world :=
  serve main main main endpoint w.

(** The three CREATE TABLE IF NOT EXISTS of [initialize_schema]. *)
Definition create_tables : Sql unit :=
  in_its_thread (fun c =>
    (Ok tt,
     {| work := {| jobs := match jobs (work c) with
                           | None => Some []
                           | Some rows => Some rows
                           end;
                   contacts := true;
                   interviews := true;
                   sqlite_sequence := sqlite_sequence (work c) |};
        saved := saved c;
        clock := clock c;
        ticks := ticks c;
        owner := owner c;
        caller := caller c |})).

Definition print (line : string) (w : world) : world :=
  {| db_path := db_path w; file := file w; now := now w;
     readings := readings w; stdout := (stdout w ++ [line])%list |}.

(** [db.initialize_schema()], which is also the startup event of the
    application; it runs in one thread.  An exception ends it where it is
    raised. *)
Definition initialize_schema (w : world) : result unit * world :=
  match connect main w with
  | (Raise e, w') => (Raise e, w')
  | (Ok c, w') =>
      match (_ <- cursor ;; _ <- create_tables ;; commit) c with
      | (Raise e, c') => (Raise e, leave c' w')
      | (Ok _, c') =>
          match close main c' w' with
          | (Raise e, w'') => (Raise e, w'')
          | (Ok _, w'') => (Ok tt, print "Database schema initialized" w'')
          end
      end
  end.

(** *** [scripts/generate_data.py] *)

Definition companies : list string :=
  ["Google"; "Meta"; "Amazon"; "Apple"; "Microsoft"; "Netflix"; "Tesla"].
Definition positions : list string :=
  ["Product Manager"; "Senior PM"; "Lead Product Manager"; "Technical PM"].
Definition locations : list string :=
  ["Remote"; "San Francisco"; "New York"; "Seattle"; "Austin"].
Definition statuses : list string :=
  ["wishlist"; "applied"; "interviewing"; "offer"; "rejected"].

(** [seq[i]] *)
Definition getitem {A : Type} (seq : list A) (i : Z) : result A :=
  let n := Z.of_nat (List.length seq) in
  let at_ j :=
    match nth_error seq (Z.to_nat j) with
    | Some a => Ok a
    | None => Raise IndexError
    end in
  if ((0 <=? i) && (i <? n))%Z then at_ i
  else if ((- n <=? i) && (i <? 0))%Z then at_ (n + i)%Z
  else Raise IndexError.

(** [str(n)] for an int. *)
Definition str_of_int (n : Z) : string :=
  DecimalString.NilZero.string_of_int (Z.to_int n).

(** [date - timedelta(days=days)], out of range before year 1 and after
    year 9999. *)
Definition date_minus_days (d : date) (days : Z) : result date :=
  let ordinal := (toordinal d - days)%Z in
  if ((1 <=? ordinal) && (ordinal <=? 3652059))%Z
  then Ok {| toordinal := ordinal |}
  else Raise OverflowError.

Section Sampling.
(** The generator behind the [random] module: its state, and
    [_randbelow(n)], which [choice] and [randint] are built on. *)
Variable Rng : Type.
Variable randbelow : Z -> Rng -> Z * Rng.

(** The script runs on the generator and an open connection. *)
Definition Script (A : Type) : Type := Run (Rng * connection) A.

Definition on_connection {A : Type} (m : Sql A) : Script A :=
  fun s =>
    let (response, c) := m (snd s) in
    (response, (fst s, c)).

Definition draw (n : Z) : Script Z :=
  fun s =>
    let (i, g) := randbelow n (fst s) in
    (Ok i, (g, snd s)).

(** [random.choice(seq)] *)
Definition random_choice {A : Type} (seq : list A) : Script A :=
  match seq with
  | [] => raise IndexError
  | _ :: _ =>
      i <- draw (Z.of_nat (List.length seq)) ;;
      fun s => (getitem seq i, s)
  end.

(** [random.randint(a, b)], which is [a + _randbelow(b + 1 - a)]. *)
Definition random_randint (a b : Z) : Script Z :=
  i <- draw (b + 1 - a)%Z ;;
  ret (a + i)%Z.

(** [datetime.now()], as far as its date. *)
Definition datetime_now : Script date :=
  on_connection (fun c => (Ok (today (reading c)), tick c)).

(** One turn of the loop. *)
Definition generate_job : Script unit :=
  company <- random_choice companies ;;
  position <- random_choice positions ;;
  location <- random_choice locations ;;
  status <- random_choice statuses ;;
  low <- random_randint 100 180 ;;
  let salary_min := (low * 1000)%Z in
  extra <- random_randint 20 60 ;;
  let salary_max := (salary_min + extra * 1000)%Z in
  days_ago <- random_randint 0 60 ;;
  now <- datetime_now ;;
  date_added <- (fun s => (date_minus_days now days_ago, s)) ;;
  _ <- on_connection
         (execute_insert
            [ PStr company; PStr position; PStr location; PInt salary_min;
              PInt salary_max; PStr status; PDate date_added ]
            row_of_sample) ;;
  ret tt.

(** [for _ in range(num_jobs)] *)
Fixpoint generate_loop (turns : nat) : Script unit :=
  match turns with
  | 0 => ret tt
  | S turns' => _ <- generate_job ;; generate_loop turns'
  end.

(** [generate_jobs(num_jobs)], in one thread.  When a step raises, the
    script ends there: what was not committed is lost, and the connection
    goes with the process. *)
Definition generate_jobs (num_jobs : Z) (g : Rng) (w : world)
  : result unit * world * Rng :=
  match initialize_schema w with
  | (Raise e, w) => (Raise e, w, g)
  | (Ok _, w) =>
      match connect main w with
      | (Raise e, w) => (Raise e, w, g)
      | (Ok c, w) =>
          match (_ <- on_connection cursor ;;
                 generate_loop (Z.to_nat num_jobs)) (g, c) with
          | (Raise e, (g', c')) => (Raise e, leave c' w, g')
          | (Ok _, (g', c')) =>
              match commit c' with
              | (Raise e, c'') => (Raise e, leave c'' w, g')
              | (Ok _, c'') =>
                  match close main c'' w with
                  | (Raise e, w) => (Raise e, w, g')
                  | (Ok _, w) =>
                      (Ok tt,
                       print ("Generated " ++ str_of_int num_jobs
                              ++ " sample jobs") w,
                       g')
                  end
              end
          end
      end
  end.
End Sampling.

(** A generator for running the script: the draws are read off a list, in
    turn, and are 0 when the list is used up. *)
Definition scripted_randbelow (n : Z) (draws : list Z) : Z * list Z :=
  match draws with
  | i :: rest => (i, rest)
  | [] => (0%Z, [])
  end.

End api.

(** ** Notions used by the properties of the job store *)

From Stdlib Require Import Permutation Sorted.

(** The stored value of a parameter that binds. *)
Definition sql_of (p : api.param) : api.sql :=
  match p with
  | api.PNone => api.Null
  | api.PInt z => api.Integer z
  | api.PStr s => api.Text s
  | api.PDate d => api.Text (api.isoformat d)
  end.

(** A [str] that UTF-8 can encode: there is no surrogate in it. *)
Definition encodable (s : string) : Prop := api.has_surrogate s = false.

(** A parameter that binds: an int is a signed 64-bit number, a [str] can
    be encoded. *)
Definition binds (p : api.param) : Prop :=
  match p with
  | api.PInt z => api.int64 z = true
  | api.PStr s => encodable s
  | _ => True
  end.

(** An optional [str] of a request that SQLite can hold. *)
Definition encodable_option (v : option string) : Prop :=
  match v with
  | Some s => encodable s
  | None => True
  end.

(** An optional int of a request that SQLite can hold. *)
Definition binds_option (v : option Z) : Prop :=
  match v with
  | Some z => api.int64 z = true
  | None => True
  end.

(** A request to create a job that SQLite can hold: texts without
    surrogates, salaries of 64 bits. *)
Definition storable (job : api.JobCreate.t) : Prop :=
  encodable (api.JobCreate.company job) /\
  encodable (api.JobCreate.position job) /\
  encodable_option (api.JobCreate.location job) /\
  encodable_option (api.JobCreate.job_url job) /\
  binds_option (api.JobCreate.salary_min job) /\
  binds_option (api.JobCreate.salary_max job) /\
  encodable (api.JobCreate.status job) /\
  encodable_option (api.JobCreate.notes job).

(** The stored value of an optional field. *)
Definition stored {A : Type} (inject : A -> api.sql) (v : option A) : api.sql :=
  match v with
  | Some a => inject a
  | None => api.Null
  end.

(** The world keeps its database in a file, and the schema is there. *)
Definition serves (w : api.world) (rows : list api.Row.t) : Prop :=
  api.private (api.db_path w) = false /\ api.jobs (api.disk w) = Some rows.

(** The counter of AUTOINCREMENT is where SQLite keeps it: not below any
    rowid of the table. *)
Definition counted (w : api.world) (rows : list api.Row.t) : Prop :=
  (api.max_rowid rows <= api.sqlite_sequence (api.disk w))%Z.

(** The largest rowid AUTOINCREMENT has to stay above. *)
Definition largest_rowid (w : api.world) (rows : list api.Row.t) : Z :=
  Z.max (api.max_rowid rows) (api.sqlite_sequence (api.disk w)).

(** The world after a commit: the file holds [rows] and the counter [seq],
    and [readings] readings of the clock were taken. *)
Definition stored_world (w : api.world) (rows : list api.Row.t) (seq : Z)
  (readings : nat) : api.world :=
  {| api.db_path := api.db_path w;
     api.file :=
       api.Holds {| api.jobs := Some rows;
                    api.contacts := api.contacts (api.disk w);
                    api.interviews := api.interviews (api.disk w);
                    api.sqlite_sequence := seq |};
     api.now := api.now w;
     api.readings := readings;
     api.stdout := api.stdout w |}.

(** The connection that [get_db] hands over when everything happens in the
    thread of the caller. *)
Definition opened (w : api.world) : api.connection :=
  {| api.work := api.disk w; api.saved := api.disk w;
     api.clock := api.now w; api.ticks := api.readings w;
     api.owner := api.main; api.caller := api.main |}.

(** A connection in its thread on which [jobs] holds [rows]. *)
Definition usable (c : api.connection) (rows : list api.Row.t) : Prop :=
  api.caller c = api.owner c /\ api.jobs (api.work c) = Some rows.

(** The connection after a commit of [rows] and the counter [seq], with
    [readings] readings of the clock taken. *)
Definition committed (c : api.connection) (rows : list api.Row.t) (seq : Z)
  (readings : nat) : api.connection :=
  let db := {| api.jobs := Some rows;
               api.contacts := api.contacts (api.work c);
               api.interviews := api.interviews (api.work c);
               api.sqlite_sequence := seq |} in
  {| api.work := db; api.saved := db; api.clock := api.clock c;
     api.ticks := readings; api.owner := api.owner c;
     api.caller := api.caller c |}.

(** The answer of an endpoint for a job that is not there. *)
Definition not_found : api.error := api.HTTPException 404 "Job not found".

(** The row with a given id, as SELECT ... WHERE id = ? finds it. *)
Definition job_with_id (job_id : Z) (rows : list api.Row.t)
  : option api.Row.t :=
  find (fun r => (api.Row.id r =? job_id)%Z) rows.

(** The row [create_job] stores for a request, given the rowid and the
    reading of the clock. *)
Definition created_row (job : api.JobCreate.t) (rowid : Z)
  (now : api.clock_reading) : api.Row.t :=
  {| api.Row.id := rowid;
     api.Row.company := api.Text (api.JobCreate.company job);
     api.Row.position := api.Text (api.JobCreate.position job);
     api.Row.location := stored api.Text (api.JobCreate.location job);
     api.Row.job_url := stored api.Text (api.JobCreate.job_url job);
     api.Row.salary_min := stored api.Integer (api.JobCreate.salary_min job);
     api.Row.salary_max := stored api.Integer (api.JobCreate.salary_max job);
     api.Row.status := api.Text (api.JobCreate.status job);
     api.Row.date_added := api.Text (api.CURRENT_DATE now);
     api.Row.date_applied := api.Null;
     api.Row.notes := stored api.Text (api.JobCreate.notes job);
     api.Row.created_at := api.Text (api.CURRENT_TIMESTAMP now);
     api.Row.updated_at := api.Text (api.CURRENT_TIMESTAMP now) |}.

(** The value a column has after an update: the old one when the request
    left the field out, the given one otherwise. *)
Definition new_value {A : Type} (inject : A -> api.sql) (s : api.setting A)
  (old : api.sql) : api.sql :=
  match s with
  | api.Unset => old
  | api.Given v => stored inject v
  end.

Definition date_text (d : api.date) : api.sql := api.Text (api.isoformat d).

(** The row [update_job] leaves for a request that gives a field at least,
    at a reading of CURRENT_TIMESTAMP. *)
Definition updated_row (u : api.JobUpdate.t) (timestamp : string)
  (r : api.Row.t) : api.Row.t :=
  {| api.Row.id := api.Row.id r;
     api.Row.company :=
       new_value api.Text (api.JobUpdate.company u) (api.Row.company r);
     api.Row.position :=
       new_value api.Text (api.JobUpdate.position u) (api.Row.position r);
     api.Row.location :=
       new_value api.Text (api.JobUpdate.location u) (api.Row.location r);
     api.Row.job_url :=
       new_value api.Text (api.JobUpdate.job_url u) (api.Row.job_url r);
     api.Row.salary_min :=
       new_value api.Integer (api.JobUpdate.salary_min u) (api.Row.salary_min r);
     api.Row.salary_max :=
       new_value api.Integer (api.JobUpdate.salary_max u) (api.Row.salary_max r);
     api.Row.status :=
       new_value api.Text (api.JobUpdate.status u) (api.Row.status r);
     api.Row.date_added := api.Row.date_added r;
     api.Row.date_applied :=
       new_value date_text (api.JobUpdate.date_applied u)
         (api.Row.date_applied r);
     api.Row.notes :=
       new_value api.Text (api.JobUpdate.notes u) (api.Row.notes r);
     api.Row.created_at := api.Row.created_at r;
     api.Row.updated_at := api.Text timestamp |}.

(** A field of an update that binds. *)
Definition binds_setting (s : api.setting Z) : Prop :=
  match s with
  | api.Given (Some z) => api.int64 z = true
  | _ => True
  end.

Definition encodable_setting (s : api.setting string) : Prop :=
  match s with
  | api.Given (Some text) => encodable text
  | _ => True
  end.

(** An update that SQLite can hold: the texts it gives have no surrogates,
    the salaries are of 64 bits. *)
Definition acceptable (u : api.JobUpdate.t) : Prop :=
  encodable_setting (api.JobUpdate.company u) /\
  encodable_setting (api.JobUpdate.position u) /\
  encodable_setting (api.JobUpdate.location u) /\
  encodable_setting (api.JobUpdate.job_url u) /\
  binds_setting (api.JobUpdate.salary_min u) /\
  binds_setting (api.JobUpdate.salary_max u) /\
  encodable_setting (api.JobUpdate.status u) /\
  encodable_setting (api.JobUpdate.notes u).

(** A field of an update given as null. *)
Definition given_null {A : Type} (s : api.setting A) : bool :=
  match s with
  | api.Given None => true
  | _ => false
  end.

(** The update that gives no field. *)
Definition no_update : api.JobUpdate.t :=
  {| api.JobUpdate.company := api.Unset; api.JobUpdate.position := api.Unset;
     api.JobUpdate.location := api.Unset; api.JobUpdate.job_url := api.Unset;
     api.JobUpdate.salary_min := api.Unset;
     api.JobUpdate.salary_max := api.Unset; api.JobUpdate.status := api.Unset;
     api.JobUpdate.date_applied := api.Unset; api.JobUpdate.notes := api.Unset |}.

(** The NOT NULL column an update gives null to, if any, as the message of
    the IntegrityError. *)
Definition update_violation (u : api.JobUpdate.t) : option string :=
  if given_null (api.JobUpdate.company u) then
    Some "NOT NULL constraint failed: jobs.company"
  else if given_null (api.JobUpdate.position u) then
    Some "NOT NULL constraint failed: jobs.position"
  else None.

(** The world after a request that read the clock once and committed
    nothing. *)
Definition clock_read (w : api.world) : api.world :=
  {| api.db_path := api.db_path w; api.file := api.file w;
     api.now := api.now w; api.readings := S (api.readings w);
     api.stdout := api.stdout w |}.

(** The status a call of [get_jobs] asks for: none when no status or the
    empty one is given. *)
Definition asked (status : option string) : option string :=
  match status with
  | Some s => if String.eqb s "" then None else Some s
  | None => None
  end.

(** A job that a call of [get_jobs] asks for: its status is the text that
    was given. *)
Definition meets (status : option string) (r : api.Row.t) : Prop :=
  match asked status with
  | Some s => api.Row.status r = api.Text s
  | None => True
  end.

(** The same as a test. *)
Definition wanted (status : option string) (r : api.Row.t) : bool :=
  match asked status, api.Row.status r with
  | None, _ => true
  | Some s, api.Text text => String.eqb text s
  | Some _, _ => false
  end.

(** The order of texts under the collation BINARY: byte by byte as
    [memcmp] has it.  The first byte that differs decides, and a text is
    below every text it is a proper prefix of. *)
Inductive bytes_below : string -> string -> Prop :=
| prefix_below (c : ascii) (t : string) : bytes_below "" (String c t)
| byte_below (c d : ascii) (s t : string) :
    (N_of_ascii c < N_of_ascii d)%N -> bytes_below (String c s) (String d t)
| rest_below (c : ascii) (s t : string) :
    bytes_below s t -> bytes_below (String c s) (String c t).

(** The order of ORDER BY on stored values, as the documentation of SQLite
    has it: NULL comes first, then the numbers in their order, then the
    texts in the order of the collation. *)
Inductive sorts_before : api.sql -> api.sql -> Prop :=
| null_before_integer (z : Z) : sorts_before api.Null (api.Integer z)
| null_before_text (s : string) : sorts_before api.Null (api.Text s)
| integer_before_text (z : Z) (s : string) :
    sorts_before (api.Integer z) (api.Text s)
| integers_in_order (x y : Z) :
    (x < y)%Z -> sorts_before (api.Integer x) (api.Integer y)
| texts_in_order (x y : string) :
    bytes_below x y -> sorts_before (api.Text x) (api.Text y).

(** [a] may stand before [b] under ORDER BY date_added DESC: the date of
    [a] does not sort before that of [b]. *)
Definition newer_first (a b : api.Row.t) : Prop :=
  ~ sorts_before (api.Row.date_added a) (api.Row.date_added b).

(** What every endpoint on [jobs] raises when the table is not there. *)
Definition no_such_table : api.error :=
  api.OperationalError "no such table: jobs".

(** A call of one of the five endpoints for jobs. *)
Inductive call : Type :=
| GetJobs (status : option string)
| CreateJob (job : api.JobCreate.t)
| GetJob (job_id : Z)
| UpdateJob (job_id : Z) (job_update : api.JobUpdate.t)
| DeleteJob (job_id : Z).

(** The endpoint of a call; the list that [get_jobs] returns is a value
    like the others. *)
Definition answer (k : call) : api.Sql value :=
  match k with
  | GetJobs status =>
      api.bind_run (api.get_jobs status) (fun jobs => api.ret (PyList jobs))
  | CreateJob job => api.create_job job
  | GetJob job_id => api.get_job job_id
  | UpdateJob job_id job_update => api.update_job job_id job_update
  | DeleteJob job_id => api.delete_job job_id
  end.

(** [after] is [before], but for the empty file that connecting creates
    where there was none: the same path, clock, output and database. *)
Definition same_but_created (before after : api.world) : Prop :=
  api.db_path after = api.db_path before /\
  api.now after = api.now before /\
  api.readings after = api.readings before /\
  api.stdout after = api.stdout before /\
  api.disk after = api.disk before /\
  (api.file after = api.file before \/
   (api.private (api.db_path before) = false /\
    api.file before = api.Absent /\
    api.file after = api.Holds api.empty_db)).

(** [sqlite3.connect] opens the path of the world. *)
Definition opens (w : api.world) : Prop :=
  api.private (api.db_path w) = true \/
  forall e, api.file w <> api.Refused e.

(** The rows of [jobs] in the file, none when the table is not there. *)
Definition existing (w : api.world) : list api.Row.t :=
  match api.jobs (api.disk w) with
  | Some rows => rows
  | None => []
  end.

(** A generator whose [_randbelow(n)] is below [n] and not negative. *)
Definition in_range {Rng : Type} (randbelow : Z -> Rng -> Z * Rng) : Prop :=
  forall n g, (0 < n)%Z -> (0 <= fst (randbelow n g) < n)%Z.

(** A clock whose dates are dates of [datetime], more than 60 days after
    the first one. *)
Definition dated (clock : nat -> api.clock_reading) : Prop :=
  forall k, (60 < api.toordinal (api.today (clock k)) <= 3652059)%Z.

(** One of the names of a list, as stored text. *)
Definition text_of (names : list string) (v : api.sql) : Prop :=
  exists name, In name names /\ v = api.Text name.

(** A row as [generate_jobs] makes them. *)
Definition sample_job (clock : nat -> api.clock_reading) (r : api.Row.t)
  : Prop :=
  text_of api.companies (api.Row.company r) /\
  text_of api.positions (api.Row.position r) /\
  text_of api.locations (api.Row.location r) /\
  text_of api.statuses (api.Row.status r) /\
  (exists low high,
     api.Row.salary_min r = api.Integer low /\
     api.Row.salary_max r = api.Integer high /\
     (100000 <= low <= 180000)%Z /\ (low mod 1000 = 0)%Z /\
     (low + 20000 <= high <= low + 60000)%Z /\ (high mod 1000 = 0)%Z) /\
  (exists k days,
     (0 <= days <= 60)%Z /\
     api.Row.date_added r
     = api.Text (api.isoformat
         {| api.toordinal :=
              api.toordinal (api.today (clock k)) - days |})) /\
  api.Row.job_url r = api.Null /\
  api.Row.date_applied r = api.Null /\
  api.Row.notes r = api.Null.

(** ** A small world, for running the job store *)

(** The first of March 2024, at noon. *)
Definition sample_clock (reading : nat) : api.clock_reading :=
  {| api.CURRENT_DATE := "2024-03-01";
     api.CURRENT_TIMESTAMP := "2024-03-01 12:00:00";
     api.today := {| api.toordinal := 738946 |} |}.

Definition sample_row : api.Row.t :=
  {| api.Row.id := 1;
     api.Row.company := api.Text "Google";
     api.Row.position := api.Text "Product Manager";
     api.Row.location := api.Text "Remote";
     api.Row.job_url := api.Null;
     api.Row.salary_min := api.Integer 150000;
     api.Row.salary_max := api.Integer 200000;
     api.Row.status := api.Text "wishlist";
     api.Row.date_added := api.Text "2024-02-20";
     api.Row.date_applied := api.Null;
     api.Row.notes := api.Null;
     api.Row.created_at := api.Text "2024-02-20 09:30:00";
     api.Row.updated_at := api.Text "2024-02-20 09:30:00" |}.

(** A job of another company, added at [date_added] with [status]. *)
Definition sample_row_of (id : Z) (company status date_added : string)
  : api.Row.t :=
  {| api.Row.id := id;
     api.Row.company := api.Text company;
     api.Row.position := api.Text "Senior PM";
     api.Row.location := api.Null;
     api.Row.job_url := api.Null;
     api.Row.salary_min := api.Null;
     api.Row.salary_max := api.Null;
     api.Row.status := api.Text status;
     api.Row.date_added := api.Text date_added;
     api.Row.date_applied := api.Null;
     api.Row.notes := api.Null;
     api.Row.created_at := api.Text (date_added ++ " 10:00:00");
     api.Row.updated_at := api.Text (date_added ++ " 10:00:00") |}.

Definition file_of (rows : list api.Row.t) (seq : Z) : api.file_state :=
  api.Holds {| api.jobs := Some rows; api.contacts := true;
               api.interviews := true; api.sqlite_sequence := seq |}.

(** The database in its file, with the schema and one job. *)
Definition sample_world : api.world :=
  {| api.db_path := "jobtrack.db";
     api.file := file_of [sample_row] 1;
     api.now := sample_clock;
     api.readings := 0;
     api.stdout := [] |}.

(** The same with three jobs more, not in the order of their dates. *)
Definition sample_rows : list api.Row.t :=
  [ sample_row;
    sample_row_of 2 "Meta" "applied" "2024-02-25";
    sample_row_of 3 "Apple" "wishlist" "2024-02-27";
    sample_row_of 4 "Tesla" "wishlist" "2024-02-10" ].

Definition busy_world : api.world :=
  {| api.db_path := "jobtrack.db";
     api.file := file_of sample_rows 4;
     api.now := sample_clock;
     api.readings := 0;
     api.stdout := [] |}.

(** The path before the application was ever started: no file yet. *)
Definition fresh_world : api.world :=
  {| api.db_path := "jobtrack.db"; api.file := api.Absent;
     api.now := sample_clock; api.readings := 0; api.stdout := [] |}.

(** A path in a directory that is not there. *)
Definition lost_world : api.world :=
  {| api.db_path := "data/jobtrack.db";
     api.file :=
       api.Refused (api.OperationalError "unable to open database file");
     api.now := sample_clock; api.readings := 0; api.stdout := [] |}.

(** The world of the tests: [db.db_path = ":memory:"]. *)
Definition memory_world : api.world :=
  {| api.db_path := ":memory:"; api.file := api.Absent;
     api.now := sample_clock; api.readings := 0; api.stdout := [] |}.

Definition sample_create : api.JobCreate.t :=
  {| api.JobCreate.company := "Meta";
     api.JobCreate.position := "Senior PM";
     api.JobCreate.location := Some "New York";
     api.JobCreate.job_url := None;
     api.JobCreate.salary_min := Some 160000%Z;
     api.JobCreate.salary_max := None;
     api.JobCreate.status := "wishlist";
     api.JobCreate.notes := None |}.

(** The same request with a salary of 2 ^ 63. *)
Definition huge_create : api.JobCreate.t :=
  {| api.JobCreate.company := "Meta";
     api.JobCreate.position := "Senior PM";
     api.JobCreate.location := Some "New York";
     api.JobCreate.job_url := None;
     api.JobCreate.salary_min := Some 9223372036854775808%Z;
     api.JobCreate.salary_max := None;
     api.JobCreate.status := "wishlist";
     api.JobCreate.notes := None |}.

(** The body [{"status": "applied", "notes": null}]. *)
Definition sample_update : api.JobUpdate.t :=
  {| api.JobUpdate.company := api.Unset; api.JobUpdate.position := api.Unset;
     api.JobUpdate.location := api.Unset; api.JobUpdate.job_url := api.Unset;
     api.JobUpdate.salary_min := api.Unset;
     api.JobUpdate.salary_max := api.Unset;
     api.JobUpdate.status := api.Given (Some "applied");
     api.JobUpdate.date_applied := api.Unset;
     api.JobUpdate.notes := api.Given None |}.

(** The body [{"company": null}]. *)
Definition null_company_update : api.JobUpdate.t :=
  {| api.JobUpdate.company := api.Given None;
     api.JobUpdate.position := api.Unset;
     api.JobUpdate.location := api.Unset; api.JobUpdate.job_url := api.Unset;
     api.JobUpdate.salary_min := api.Unset;
     api.JobUpdate.salary_max := api.Unset; api.JobUpdate.status := api.Unset;
     api.JobUpdate.date_applied := api.Unset; api.JobUpdate.notes := api.Unset |}.

(** A generator that counts: its draw below [n] is its state modulo [n]. *)
Definition counter_randbelow (n : Z) (g : Z) : Z * Z :=
  ((g mod n)%Z, (g + 1)%Z).

(** * Facts about strings *)

Lemma append_assoc (a b c : string) : (a ++ b) ++ c = a ++ (b ++ c).
Proof. induction a as [|x a IH]; simpl; [reflexivity | now rewrite IH]. Qed.

Lemma length_append (a b : string) :
  String.length (a ++ b) = String.length a + String.length b.
Proof. induction a as [|x a IH]; simpl; [reflexivity | now rewrite IH]. Qed.

Lemma brackets_append (a b : string) :
  brackets (a ++ b) = brackets a + brackets b.
Proof. induction a as [|x a IH]; simpl; [reflexivity | rewrite IH; lia]. Qed.

Lemma suffix_refl (s : string) : suffix s s.
Proof. now exists "". Qed.

Lemma suffix_trans (a b c : string) : suffix a b -> suffix b c -> suffix a c.
Proof.
  intros [p ->] [p' ->]. exists (p' ++ p). now rewrite append_assoc.
Qed.

Lemma suffix_tail (c : ascii) (s : string) : suffix s (String c s).
Proof. now exists (String c ""). Qed.

Lemma suffix_append (p s : string) : suffix s (p ++ s).
Proof. now exists p. Qed.

Lemma suffix_length (r s : string) :
  suffix r s -> String.length r <= String.length s.
Proof. intros [p ->]. rewrite length_append. lia. Qed.

Lemma suffix_brackets (r s : string) : suffix r s -> brackets r <= brackets s.
Proof. intros [p ->]. rewrite brackets_append. lia. Qed.

Lemma suffix_longest_digit_run (r s : string) :
  suffix r s -> longest_digit_run r <= longest_digit_run s.
Proof.
  intros [p ->]. induction p as [|c p IH]; [reflexivity|].
  change (String c p ++ r) with (String c (p ++ r)).
  cbn [longest_digit_run]. lia.
Qed.

Lemma digit_run_longest (s : string) : digit_run s <= longest_digit_run s.
Proof. destruct s; [reflexivity|]. cbn [longest_digit_run]. lia. Qed.

Lemma fits_suffix (py : interpreter) (d : nat) (r s : string) :
  suffix r s -> fits py d s -> fits py d r.
Proof.
  intros Hs [Hb Hd]. pose proof (suffix_longest_digit_run _ _ Hs).
  pose proof (suffix_brackets _ _ Hs). unfold fits. lia.
Qed.

(** * Facts about the decoder *)

Lemma skip_ws_suffix (s : string) : suffix (json.skip_ws s) s.
Proof.
  induction s as [|c s IH]; simpl; [apply suffix_refl|].
  destruct (json.is_ws c); [|apply suffix_refl].
  eapply suffix_trans; [exact IH | apply suffix_tail].
Qed.

Lemma after_prefix_append (p s r : string) :
  json.after_prefix p s = Some r -> s = p ++ r.
Proof.
  revert s; induction p as [|a p IH]; intros [|b s]; simpl; try congruence.
  destruct (Ascii.eqb_spec a b) as [->|]; [|discriminate].
  intros H. now rewrite (IH _ H).
Qed.

Lemma span_digits_append (s ds rest : string) :
  json.span_digits s = (ds, rest) -> s = ds ++ rest.
Proof.
  revert ds rest; induction s as [|c s IH]; simpl; intros ds rest.
  - intros [= <- <-]. reflexivity.
  - destruct (json.is_digit c).
    + destruct (json.span_digits s) as [ds' rest'] eqn:E.
      intros [= <- <-]. simpl. now rewrite (IH _ _ eq_refl).
    + intros [= <- <-]. reflexivity.
Qed.

Lemma span_digits_run (s ds rest : string) :
  json.span_digits s = (ds, rest) -> String.length ds = digit_run s.
Proof.
  revert ds rest; induction s as [|c s IH]; simpl; intros ds rest.
  - now intros [= <- <-].
  - destruct (json.is_digit c).
    + destruct (json.span_digits s) as [ds' rest'] eqn:E.
      intros [= <- <-]. simpl. now rewrite (IH _ _ eq_refl).
    + now intros [= <- <-].
Qed.

Lemma match_frac_append (s f rest : string) :
  json.match_frac s = (f, rest) -> s = f ++ rest.
Proof.
  unfold json.match_frac. destruct s as [|c s]; [now intros [= <- <-]|].
  destruct (Ascii.eqb c "."); [|now intros [= <- <-]].
  destruct (json.span_digits s) as [ds r] eqn:E.
  apply span_digits_append in E. subst s.
  destruct ds; intros [= <- <-]; reflexivity.
Qed.

Lemma match_exp_append (s e rest : string) :
  json.match_exp s = (e, rest) -> s = e ++ rest.
Proof.
  unfold json.match_exp. destruct s as [|c s]; [now intros [= <- <-]|].
  destruct (Ascii.eqb c "e" || Ascii.eqb c "E"); [|now intros [= <- <-]].
  destruct s as [|sg s]; [now intros [= <- <-]|].
  destruct (Ascii.eqb sg "-" || Ascii.eqb sg "+").
  - destruct (json.span_digits s) as [ds r] eqn:E.
    apply span_digits_append in E. subst s.
    destruct ds; intros [= <- <-]; reflexivity.
  - destruct (json.span_digits (String sg s)) as [ds r] eqn:E.
    apply span_digits_append in E. rewrite E.
    destruct ds; intros [= <- <-]; reflexivity.
Qed.

Lemma match_number_append (s sign digits frac exp rest : string) :
  json.match_number s = Some (sign, digits, frac, exp, rest) ->
  s = sign ++ digits ++ frac ++ exp ++ rest.
Proof.
  unfold json.match_number.
  destruct (json.match_sign s) as [sg s1] eqn:Es.
  assert (H1 : s = sg ++ s1).
  { unfold json.match_sign in Es. destruct s as [|c s]; [now inversion Es|].
    destruct (Ascii.eqb c "-"); inversion Es; reflexivity. }
  destruct (json.match_digits s1) as [[ds s2]|] eqn:Ed; [|discriminate].
  assert (H2 : s1 = ds ++ s2).
  { unfold json.match_digits in Ed. destruct s1 as [|c s1]; [discriminate|].
    destruct (Ascii.eqb c "0"); [inversion Ed; reflexivity|].
    destruct (json.is_digit c); [|discriminate].
    injection Ed as E. exact (span_digits_append (String c s1) _ _ E). }
  destruct (json.match_frac s2) as [f s3] eqn:Ef.
  destruct (json.match_exp s3) as [e s4] eqn:Ee.
  apply match_frac_append in Ef. apply match_exp_append in Ee.
  intros [= <- <- <- <- <-]. now rewrite H1, H2, Ef, Ee.
Qed.

Ltac suffix_tac :=
  solve [ repeat first [ apply suffix_refl
                       | eapply suffix_trans; [| apply suffix_tail ] ] ].

(** The digits that NUMBER_RE hands to [int] are a run of digits of the
    text. *)
Lemma match_number_digits (s sign digits frac exp rest : string) :
  json.match_number s = Some (sign, digits, frac, exp, rest) ->
  String.length digits <= longest_digit_run s.
Proof.
  unfold json.match_number.
  destruct (json.match_sign s) as [sg s1] eqn:Es.
  assert (H1 : suffix s1 s).
  { unfold json.match_sign in Es. destruct s as [|c s]; [inversion Es; suffix_tac|].
    destruct (Ascii.eqb c "-"); inversion Es; suffix_tac. }
  destruct (json.match_digits s1) as [[ds s2]|] eqn:Ed; [|discriminate].
  assert (H2 : String.length ds <= digit_run s1).
  { unfold json.match_digits in Ed. destruct s1 as [|c s1]; [discriminate|].
    destruct (Ascii.eqb_spec c "0") as [->|].
    - inversion Ed. simpl. lia.
    - destruct (json.is_digit c); [|discriminate].
      injection Ed as E.
      rewrite (span_digits_run (String c s1) _ _ E). lia. }
  destruct (json.match_frac s2) as [f s3].
  destruct (json.match_exp s3) as [e s4].
  intros [= <- <- <- <- <-].
  pose proof (digit_run_longest s1). apply suffix_longest_digit_run in H1. lia.
Qed.

Lemma emit_scanned (s r x : string) (k : json.scan string) :
  suffix r s -> scanned_string r k -> scanned_string s (json.emit x k).
Proof.
  intros Hs Hk. destruct k; simpl in *; auto.
  eapply suffix_trans; eauto.
Qed.

Lemma scanstring_scanned (s : string) : scanned_string s (json.scanstring s).
Proof.
  remember (String.length s) as n eqn:Hn.
  assert (Hle : String.length s <= n) by lia. clear Hn.
  revert s Hle. induction n as [|n IH]; intros s Hle.
  - destruct s; simpl in *; [reflexivity | lia].
  - destruct s as [|c r]; [reflexivity|]. simpl in Hle.
    cbn [json.scanstring].
    destruct (Ascii.eqb c json.quote); [simpl; suffix_tac|].
    destruct (Ascii.eqb c json.backslash).
    + destruct r as [|esc r1]; [reflexivity|].
      destruct (Ascii.eqb esc "u").
      * destruct r1 as [|h1 [|h2 [|h3 [|h4 r2]]]]; try reflexivity.
        destruct (json.decode_uXXXX h1 h2 h3 h4) as [uni|]; [|reflexivity].
        simpl in Hle.
        destruct ((55296 <=? uni)%N && (uni <=? 56319)%N && json.at_u_escape r2).
        -- destruct r2 as [|a [|b [|g1 [|g2 [|g3 [|g4 r3]]]]]]; try reflexivity.
           destruct (json.decode_uXXXX g1 g2 g3 g4) as [uni2|]; [|reflexivity].
           simpl in Hle.
           destruct ((56320 <=? uni2)%N && (uni2 <=? 57343)%N).
           ++ apply emit_scanned with (r := r3); [suffix_tac|].
              apply IH; lia.
           ++ eapply emit_scanned; [|apply IH; simpl; lia]. suffix_tac.
        -- eapply emit_scanned; [|apply IH; lia]. suffix_tac.
      * destruct (json.BACKSLASH esc); [|reflexivity].
        eapply emit_scanned; [|apply IH; simpl in *; lia]. suffix_tac.
    + destruct (N_of_ascii c <? 32)%N; [reflexivity|].
      eapply emit_scanned; [|apply IH; lia]. suffix_tac.
Qed.

Lemma raise_errmsg_class {A : Type} (remaining : nat) (e : exn) :
  @json.raise_errmsg A remaining = json.Error e ->
  decoder_exception e /\ (3 <= remaining -> e = JSONDecodeError).
Proof.
  unfold json.raise_errmsg, decoder_exception.
  destruct (Nat.ltb_spec remaining 3); intros [= <-]; split; auto; lia.
Qed.

Lemma raise_errmsg_sound {A : Type} (ok : string -> Prop) (remaining : nat)
  (s : string) :
  (ok s -> 3 <= remaining) -> @sound_on A ok s (json.raise_errmsg remaining).
Proof.
  intros Hroom. unfold json.raise_errmsg.
  destruct (Nat.ltb_spec remaining 3); simpl; unfold decoder_exception;
    split; auto.
  intros Hok. specialize (Hroom Hok). lia.
Qed.

(** [scanstring_at] gives a string and a suffix, or raises. *)
Lemma scanstring_at_sound (ok : string -> Prop) (remaining : nat) (s : string) :
  (ok s -> 3 <= remaining) ->
  sound_on ok s (json.scanstring_at remaining s) /\
  json.scanstring_at remaining s <> json.StopIteration.
Proof.
  intros Hroom. unfold json.scanstring_at.
  pose proof (scanstring_scanned s) as Hk.
  destruct (json.scanstring s) as [str r| |e|]; simpl in Hk; try contradiction.
  - split; [exact Hk | discriminate].
  - subst e. split; [now apply raise_errmsg_sound|].
    unfold json.raise_errmsg. destruct (Nat.ltb remaining 3); discriminate.
Qed.

Lemma sound_on_suffix {A : Type} (ok ok' : string -> Prop) (r s : string)
  (res : json.scan A) :
  suffix r s -> (ok' s -> ok r) -> sound_on ok r res -> sound_on ok' s res.
Proof.
  intros Hs Hok. destruct res; simpl; auto.
  - intros H. eapply suffix_trans; eauto.
  - intros [Hclass H]. split; auto.
Qed.

Section ContainerFacts.
Variable ok : string -> Prop.
Variable f : string -> json.scan value.
Variable remaining : nat.
Hypothesis ok_suffix : forall r s, suffix r s -> ok s -> ok r.
Hypothesis ok_room : forall s, ok s -> 3 <= remaining.
Hypothesis f_sound : sound ok f.

Let rejected (s : string) : sound_on ok s (@json.Error value JSONDecodeError).
Proof. simpl. unfold decoder_exception. auto. Qed.

Let refused (s : string)
  : sound_on ok s (@json.raise_errmsg value remaining).
Proof. apply raise_errmsg_sound, ok_room. Qed.

Lemma array_loop_sound (gas : nat) : forall (s : string) (values : list value),
  String.length s < gas ->
  sound_on ok s (json.array_loop f remaining gas s values).
Proof.
  induction gas as [|gas IH]; intros s values Hgas; [lia|].
  cbn [json.array_loop]. pose proof (f_sound s) as Hf.
  destruct (f s) as [v r| |e|]; simpl in Hf; auto.
  pose proof (skip_ws_suffix r) as Hr.
  destruct (json.skip_ws r) as [|c r']; auto.
  assert (Hr' : suffix r' s).
  { eapply suffix_trans; [apply suffix_tail|].
    eapply suffix_trans; eauto. }
  destruct (Ascii.eqb c "]"); [exact Hr'|].
  destruct (Ascii.eqb c ","); auto.
  pose proof (skip_ws_suffix r') as Hw.
  apply sound_on_suffix with (ok := ok) (r := json.skip_ws r').
  - eapply suffix_trans; eauto.
  - apply ok_suffix. eapply suffix_trans; eauto.
  - apply IH.
    apply suffix_length in Hw. apply suffix_length in Hr.
    apply suffix_length in Hf. simpl in Hr. lia.
Qed.

Lemma JSONArray_sound : sound ok (json.JSONArray f remaining).
Proof.
  intros s. unfold json.JSONArray.
  pose proof (skip_ws_suffix s) as Hs.
  assert (H : sound_on ok s
    (json.array_loop f remaining (S (String.length (json.skip_ws s)))
       (json.skip_ws s) [])).
  { apply sound_on_suffix with (ok := ok) (r := json.skip_ws s).
    - exact Hs.
    - now apply ok_suffix.
    - apply array_loop_sound. lia. }
  destruct (json.skip_ws s) as [|c r]; [exact H|].
  destruct (Ascii.eqb c "]"); [|exact H].
  simpl. eapply suffix_trans; [apply suffix_tail | exact Hs].
Qed.

Lemma object_loop_sound (gas : nat) :
  forall (s : string) (pairs : list (string * value)),
  String.length s < gas ->
  sound_on ok s (json.object_loop f remaining gas s pairs).
Proof.
  induction gas as [|gas IH]; intros s pairs Hgas; [lia|].
  cbn [json.object_loop].
  destruct (scanstring_at_sound ok remaining s (ok_room s)) as [Hk Hstop].
  destruct (json.scanstring_at remaining s) as [key r| |e|] eqn:Ekey;
    simpl in Hk; try contradiction; [|exact Hk].
  pose proof (skip_ws_suffix r) as Hr.
  destruct (json.skip_ws r) as [|c r1]; auto.
  destruct (Ascii.eqb c ":"); auto.
  assert (H1 : suffix (json.skip_ws r1) s).
  { eapply suffix_trans; [apply skip_ws_suffix|].
    eapply suffix_trans; [apply suffix_tail|].
    eapply suffix_trans; eauto. }
  pose proof (f_sound (json.skip_ws r1)) as Hf.
  destruct (f (json.skip_ws r1)) as [v r2| |e|]; simpl in Hf; auto.
  - pose proof (skip_ws_suffix r2) as Hr2.
    destruct (json.skip_ws r2) as [|c2 r3]; auto.
    assert (H3 : suffix r3 s).
    { eapply suffix_trans; [apply suffix_tail|].
      eapply suffix_trans; [exact Hr2|].
      eapply suffix_trans; eauto. }
    destruct (Ascii.eqb c2 "}"); [exact H3|].
    destruct (Ascii.eqb c2 ","); auto.
    pose proof (skip_ws_suffix r3) as Hr3.
    destruct (json.skip_ws r3) as [|c3 r4]; auto.
    destruct (Ascii.eqb c3 json.quote); auto.
    assert (H4 : suffix r4 s).
    { eapply suffix_trans; [apply suffix_tail|].
      eapply suffix_trans; eauto. }
    apply sound_on_suffix with (ok := ok) (r := r4).
    + exact H4.
    + now apply ok_suffix.
    + apply IH. apply suffix_length in Hr3. apply suffix_length in H3.
      simpl in Hr3. lia.
  - destruct Hf as [Hclass Hf]. split; [exact Hclass|].
    intros Hok. apply Hf. eapply ok_suffix; eauto.
Qed.

Lemma JSONObject_sound : sound ok (json.JSONObject f remaining).
Proof.
  intros s. unfold json.JSONObject.
  pose proof (skip_ws_suffix s) as Hs.
  destruct (json.skip_ws s) as [|c r]; auto.
  assert (Hr : suffix r s).
  { eapply suffix_trans; [apply suffix_tail | exact Hs]. }
  destruct (Ascii.eqb c "}"); [exact Hr|].
  destruct (Ascii.eqb c json.quote); auto.
  apply sound_on_suffix with (ok := ok) (r := r).
  - exact Hr.
  - now apply ok_suffix.
  - apply object_loop_sound. lia.
Qed.
End ContainerFacts.

Lemma fits_inside (py : interpreter) (d : nat) (c : ascii) (r : string) :
  Ascii.eqb c "[" || Ascii.eqb c "{" = true ->
  fits py (S d) (String c r) -> fits py d r.
Proof.
  intros Hc [Hb Hd]. simpl in Hb, Hd. rewrite Hc in Hb.
  unfold fits. lia.
Qed.

Lemma fits_room (py : interpreter) (d : nat) (s : string) :
  fits py d s -> 3 <= d.
Proof. intros [Hb _]. lia. Qed.

Lemma parse_int_fits (py : interpreter) (d : nat) (s sign digits : string)
  (e : exn) :
  String.length digits <= longest_digit_run s ->
  json.parse_int py sign digits = Raised e ->
  e = ValueError /\ ~ fits py d s.
Proof.
  intros Hs. unfold json.parse_int.
  destruct (Nat.eqb_spec (int_max_str_digits py) 0) as [E|E]; simpl;
    [discriminate|].
  destruct (Nat.ltb_spec (int_max_str_digits py) (String.length digits));
    [|discriminate].
  intros [= <-]. split; [reflexivity|]. intros [_ Hd]. lia.
Qed.

Lemma parse_constant_sound (py : interpreter) (d : nat) (s name rest : string) :
  suffix rest s ->
  sound_on (fits py d) s (json.parse_constant d name rest).
Proof.
  intros Hs. destruct d as [|d]; simpl; [|exact Hs].
  unfold decoder_exception. split; [auto|]. intros [Hb _]. lia.
Qed.

Lemma scan_once_sound (py : interpreter) (d : nat) :
  sound (fits py d) (json.scan_once py d).
Proof.
  induction d as [|d IH]; intros s.
  all: destruct s as [|c r]; [exact I|].
  all: cbn [json.scan_once].
  all: destruct (Ascii.eqb c json.quote);
    [ match goal with
      | |- context [json.scanstring_at ?n ?x] =>
          destruct (scanstring_at_sound (fits py n) n x (fits_room py n x))
            as [Hk Hstop];
          destruct (json.scanstring_at n x) eqn:Estr; simpl in Hk |- *;
          try contradiction; try congruence;
          [ eapply suffix_trans; [exact Hk | apply suffix_tail]
          | destruct Hk as [Hclass Hk]; split; [exact Hclass|];
            intros Hfit; apply Hk; eapply fits_suffix; [apply suffix_tail|];
            exact Hfit ]
      end
    | ].
  all: destruct (Ascii.eqb c "{") eqn:Ebrace.
  1: { simpl. unfold decoder_exception. split; [auto|].
       intros [Hb _]. lia. }
  2: { apply sound_on_suffix with (ok := fits py d) (r := r).
       - apply suffix_tail.
       - apply fits_inside. now rewrite Ebrace, orb_true_r.
       - apply JSONObject_sound;
           [apply fits_suffix | apply fits_room | exact IH]. }
  all: destruct (Ascii.eqb c "[") eqn:Ebracket.
  1: { simpl. unfold decoder_exception. split; [auto|].
       intros [Hb _]. lia. }
  2: { apply sound_on_suffix with (ok := fits py d) (r := r).
       - apply suffix_tail.
       - apply fits_inside. now rewrite Ebracket.
       - apply JSONArray_sound;
           [apply fits_suffix | apply fits_room | exact IH]. }
  all: repeat match goal with
       | |- context [match json.after_prefix ?p ?x with _ => _ end] =>
           let E := fresh "E" in
           destruct (json.after_prefix p x) eqn:E;
           [ apply after_prefix_append in E; simpl; rewrite E;
             apply suffix_append | ]
       end.
  all: destruct (json.match_number (String c r))
         as [[[[[sign digits] frac] exp] rest]|] eqn:Em.
  all: repeat match goal with
       | |- context [match json.after_prefix ?p ?x with _ => _ end] =>
           let E := fresh "E" in
           destruct (json.after_prefix p x) eqn:E;
           [ apply after_prefix_append in E;
             apply parse_constant_sound; rewrite E; apply suffix_append | ]
       end.
  all: try exact I.
  all: pose proof (match_number_digits _ _ _ _ _ _ Em) as Hdig.
  all: apply match_number_append in Em.
  all: assert (Hrest : suffix rest (String c r))
    by (rewrite Em; exists (sign ++ digits ++ frac ++ exp);
        now rewrite !append_assoc).
  all: destruct frac, exp; try exact Hrest.
  all: destruct (json.parse_int py sign digits) eqn:Ep; simpl; [exact Hrest|].
  all: match goal with
       | |- context [fits ?p ?n _] =>
           destruct (parse_int_fits p n _ _ _ _ Hdig Ep) as [-> Hno]
       end.
  all: unfold decoder_exception; split; [auto|]; intros Hfit; now destruct Hno.
Qed.

(** The loops of the decoder never run out of gas: [OutOfGas] is not a
    behaviour of [json.loads]. *)
Lemma scan_once_gas (py : interpreter) (d : nat) (s : string) :
  json.scan_once py d s <> json.OutOfGas.
Proof.
  pose proof (scan_once_sound py d s) as H. intros E. now rewrite E in H.
Qed.

Lemma within_limits_fits (py : interpreter) (s : string) :
  within_limits py s -> fits py (json.scanner_depth py) s.
Proof. intros [Hb Hd]. unfold fits, json.scanner_depth. split; [lia | exact Hd]. Qed.

(** The exceptions of [json.loads] are JSONDecodeError, RecursionError and
    ValueError. *)
Lemma loads_raises (py : interpreter) (s : string) (e : exn) :
  json.loads py s = Raised e -> decoder_exception e.
Proof.
  unfold json.loads.
  pose proof (scan_once_sound py (json.scanner_depth py) (json.skip_ws s)) as H.
  destruct (json.scan_once py (json.scanner_depth py) (json.skip_ws s))
    as [obj rest| |e'|]; simpl in H; unfold decoder_exception.
  - destruct (json.skip_ws rest); [discriminate | intros [= <-]; auto].
  - intros [= <-]; auto.
  - intros [= <-]. apply H.
  - contradiction.
Qed.

(** Within the interpreter's limits the decoder returns an object or rejects
    the text: no other exception leaves it. *)
Lemma loads_within_limits (py : interpreter) (s : string) (e : exn) :
  within_limits py s -> json.loads py s = Raised e -> e = JSONDecodeError.
Proof.
  intros Hlim. unfold json.loads.
  pose proof (scan_once_sound py (json.scanner_depth py) (json.skip_ws s)) as H.
  destruct (json.scan_once py (json.scanner_depth py) (json.skip_ws s))
    as [obj rest| |e'|]; simpl in H.
  - destruct (json.skip_ws rest); [discriminate | congruence].
  - congruence.
  - intros [= <-]. apply H. eapply fits_suffix; [apply skip_ws_suffix|].
    now apply within_limits_fits.
  - contradiction.
Qed.

(** The count of calls at work, on an interpreter whose scanner starts with
    two nested calls: two arrays can be entered and a third cannot, the
    constant NaN takes a call, a missing value is reported from above the
    scanner, and a missing comma cannot be reported inside an array. *)
Example scanner_counts_calls :
  let py := {| recursion_budget := 0; int_max_str_digits := 4300 |} in
  json.loads py "[[]]" = Returned (PyList [PyList []]) /\
  json.loads py "[[[]]]" = Raised RecursionError /\
  json.loads py "[NaN]" = Returned (PyList [PyFloat "nan"]) /\
  json.loads py "[[NaN]]" = Raised RecursionError /\
  json.loads py "[[x" = Raised JSONDecodeError /\
  json.loads py "[1 2" = Raised RecursionError /\
  json.loads py "1 2" = Raised JSONDecodeError.
Proof. cbv zeta. repeat split; vm_compute; reflexivity. Qed.

Lemma times_plus (c : ascii) (n m : nat) :
  times c (n + m) = times c n ++ times c m.
Proof. induction n as [|n IH]; simpl; [reflexivity | now rewrite IH]. Qed.

(** One bracket more than the stack admits exhausts it, whatever follows
    the brackets. *)
Lemma scan_once_too_deep (py : interpreter) (d : nat) (rest : string) :
  json.scan_once py d (times "[" (S d) ++ rest) = json.Error RecursionError.
Proof.
  induction d as [|d IH]; [reflexivity|].
  change (json.scan_once py (S d) (times "[" (S (S d)) ++ rest))
    with (json.JSONArray (json.scan_once py d) d (times "[" (S d) ++ rest)).
  unfold json.JSONArray.
  change (json.skip_ws (times "[" (S d) ++ rest))
    with (times "[" (S d) ++ rest).
  change (times "[" (S d) ++ rest) with (String "[" (times "[" d ++ rest)) at 1.
  cbv iota. change (Ascii.eqb "[" "]") with false. cbv iota.
  cbn [json.array_loop]. now rewrite IH.
Qed.

(** More opening brackets than the scanner has nested calls exhaust the
    stack, whatever the budget is and whatever follows the brackets. *)
Lemma loads_too_deep (py : interpreter) (n : nat) (rest : string) :
  json.scanner_depth py < n ->
  json.loads py (times "[" n ++ rest) = Raised RecursionError.
Proof.
  intros Hn. unfold json.loads.
  replace n with (S (json.scanner_depth py) + (n - S (json.scanner_depth py)))
    by lia.
  rewrite times_plus, append_assoc.
  set (tail := times "[" (n - S (json.scanner_depth py)) ++ rest).
  change (json.skip_ws (times "[" (S (json.scanner_depth py)) ++ tail))
    with (times "[" (S (json.scanner_depth py)) ++ tail).
  now rewrite scan_once_too_deep.
Qed.

Lemma span_digits_ones (n : nat) :
  json.span_digits (times "1" n) = (times "1" n, "").
Proof. induction n as [|n IH]; [reflexivity|]. simpl. now rewrite IH. Qed.

Lemma length_times (c : ascii) (n : nat) : String.length (times c n) = n.
Proof. induction n as [|n IH]; [reflexivity|]. simpl. now rewrite IH. Qed.

(** One digit more than the limit on integers is refused by [int], whatever
    the limit is, unless it is switched off. *)
Lemma loads_long_integer (py : interpreter) :
  int_max_str_digits py <> 0 ->
  json.loads py (times "1" (S (int_max_str_digits py))) = Raised ValueError.
Proof.
  intros Hmax. unfold json.loads.
  change (json.skip_ws (times "1" (S (int_max_str_digits py))))
    with (times "1" (S (int_max_str_digits py))).
  assert (Hm : json.match_number (times "1" (S (int_max_str_digits py)))
               = Some ("", times "1" (S (int_max_str_digits py)), "", "", "")).
  { unfold json.match_number, json.match_sign, json.match_digits.
    change (times "1" (S (int_max_str_digits py)))
      with (String "1" (times "1" (int_max_str_digits py))) at 1 2.
    cbv iota. change (Ascii.eqb "1" "-") with false. cbv iota.
    change (Ascii.eqb "1" "0") with false. change (json.is_digit "1") with true.
    cbv iota.
    change (String "1" (times "1" (int_max_str_digits py)))
      with (times "1" (S (int_max_str_digits py))).
    rewrite span_digits_ones. reflexivity. }
  assert (Hs : forall d, json.scan_once py d (times "1" (S (int_max_str_digits py)))
               = json.Error ValueError).
  { intros d.
    assert (Hp : json.parse_int py "" (times "1" (S (int_max_str_digits py)))
                 = Raised ValueError).
    { unfold json.parse_int. rewrite length_times.
      destruct (Nat.eqb_spec (int_max_str_digits py) 0); [contradiction|].
      now rewrite (proj2 (Nat.ltb_lt _ _) (Nat.lt_succ_diag_r _)). }
    destruct d; cbn -[json.match_number json.parse_int times];
      change (String "1" (times "1" (int_max_str_digits py)))
        with (times "1" (S (int_max_str_digits py)));
      rewrite Hm, Hp; reflexivity. }
  now rewrite Hs.
Qed.

(** * Facts about the service *)

Lemma skipn_length_app {A : Type} (l l' : list A) :
  skipn (List.length l) (l ++ l')%list = l'.
Proof. induction l as [|x l IH]; simpl; auto. Qed.

(** The except branch: a text the decoder rejects is answered by the
    default structure. *)
Lemma interpret_rejected (py : interpreter) (s : string) :
  json.loads py s = Raised JSONDecodeError ->
  interpret py s = Returned (default_structure s).
Proof. unfold interpret. now intros ->. Qed.

(** The try branch: a decoded object is the result. *)
Lemma interpret_decoded (py : interpreter) (s : string) (v : value) :
  json.loads py s = Returned v -> interpret py s = Returned v.
Proof. unfold interpret. now intros ->. Qed.

(** An exception of another class leaves the [try] statement. *)
Lemma interpret_raised (py : interpreter) (s : string) (e : exn) :
  json.loads py s = Raised e -> e <> JSONDecodeError ->
  interpret py s = Raised e.
Proof. unfold interpret. intros -> H. destruct e; congruence. Qed.

(** The step raises exactly when the decoder raises something else than a
    JSONDecodeError, and then the same exception. *)
Lemma interpret_raises_iff (py : interpreter) (s : string) (e : exn) :
  interpret py s = Raised e <->
  json.loads py s = Raised e /\ e <> JSONDecodeError.
Proof.
  unfold interpret. destruct (json.loads py s) as [v|e'].
  - split; [discriminate | intros [H _]; discriminate].
  - destruct e'; split; try discriminate;
      try (intros [= <-]; split; [reflexivity | discriminate]);
      try (intros [[= <-] _]; reflexivity).
    intros [[= <-] H]. now destruct H.
Qed.

Section Runs.
Variable Backend : Type.
Variable messages_create : create_kwargs -> Backend -> outcome Message * Backend.
Variable py : interpreter.

(** One run of [analyze_resume_ats]: the request goes out, and the result
    is read off the reply. *)
Lemma analyze_resume_ats_run (resume_text job_description : string)
  (w : world Backend) :
  analyze_resume_ats messages_create py resume_text job_description w =
  let kwargs := scoring_request resume_text job_description in
  let reply := messages_create kwargs (backend w) in
  (match fst reply with
   | Returned message =>
       match content_0_text message with
       | Returned response_text => interpret py response_text
       | Raised e => Raised e
       end
   | Raised e => Raised e
   end,
   {| backend := snd reply; sent := (sent w ++ [kwargs])%list |}).
Proof.
  unfold analyze_resume_ats, bind, client_messages_create, lift, ret.
  fold (scoring_request resume_text job_description). cbn zeta.
  destruct (messages_create _ (backend w)) as [[message|e] b']; simpl;
    [|reflexivity].
  destruct (content_0_text message) as [text|e]; simpl; [|reflexivity].
  destruct (interpret py text); reflexivity.
Qed.

(** One run of [generate_cover_letter]. *)
Lemma generate_cover_letter_run
  (resume_text job_description company_name : string) (tone : option string)
  (w : world Backend) :
  generate_cover_letter messages_create resume_text job_description
    company_name tone w =
  let kwargs :=
    letter_request resume_text job_description company_name (tone_used tone) in
  let reply := messages_create kwargs (backend w) in
  (match fst reply with
   | Returned message => content_0_text message
   | Raised e => Raised e
   end,
   {| backend := snd reply; sent := (sent w ++ [kwargs])%list |}).
Proof.
  unfold generate_cover_letter, bind, client_messages_create, lift.
  fold (tone_used tone).
  fold (letter_request resume_text job_description company_name (tone_used tone)).
  cbn zeta.
  destruct (messages_create _ (backend w)) as [[message|e] b']; reflexivity.
Qed.

Lemma analyze_resume_ats_requests (resume_text job_description : string)
  (w : world Backend) :
  requests_of (analyze_resume_ats messages_create py resume_text job_description) w
  = [scoring_request resume_text job_description].
Proof.
  unfold requests_of. rewrite analyze_resume_ats_run. cbn [snd sent].
  apply skipn_length_app.
Qed.

Lemma generate_cover_letter_requests
  (resume_text job_description company_name : string) (tone : option string)
  (w : world Backend) :
  requests_of (generate_cover_letter messages_create resume_text
                 job_description company_name tone) w
  = [letter_request resume_text job_description company_name (tone_used tone)].
Proof.
  unfold requests_of. rewrite generate_cover_letter_run. cbn [snd sent].
  apply skipn_length_app.
Qed.
End Runs.

Lemma occurs_here (x rest : string) : occurs_in x (x ++ rest).
Proof. now exists "", rest. Qed.

Lemma occurs_later (x a s : string) : occurs_in x s -> occurs_in x (a ++ s).
Proof.
  intros (before & after & ->). exists (a ++ before), after.
  now rewrite append_assoc.
Qed.

Ltac find_occurrence :=
  repeat first [ apply occurs_here | apply occurs_later ].

(** * The claims *)

(** C1 (the code departs from its docstring).  The docstring promises a
    dict with score, missing_keywords, suggestions and summary.  When the
    generator answers with an object that has the score only, or with the
    JSON text of an empty list, the service returns just that: the decoded
    value is handed back without a look at its shape, and fields are
    missing. *)
Theorem incomplete_reply_is_returned :
  let run reply :=
    fst (analyze_resume_ats scripted cpython_3_11
           "Python developer, 3 years" "Senior Python Engineer, AWS required"
           (fresh [text_reply reply])) in
  run score_only = Returned (PyDict [("score", PyInt 72)]) /\
  fully_populated (PyDict [("score", PyInt 72)]) = false /\
  run "[]" = Returned (PyList []) /\
  fully_populated (PyList []) = false.
Proof. cbv zeta. repeat split; vm_compute; reflexivity. Qed.

(** Where the except branch applies.  A text that [json.loads] rejects
    with a JSONDecodeError is answered by the default structure, and within
    the interpreter's limits that is every text the decoder cannot turn into
    a value. *)
Lemma unreadable_text_within_limits (py : interpreter) (s : string) :
  within_limits py s ->
  (forall v, json.loads py s <> Returned v) ->
  interpret py s = Returned (default_structure s).
Proof.
  intros Hlim Hno. apply interpret_rejected.
  destruct (json.loads py s) as [v|e] eqn:E.
  - now destruct (Hno v).
  - now rewrite (loads_within_limits py s e Hlim E).
Qed.

(** C2 (the code departs from its own comment).  The except branch is
    there so that, [If parsing fails, return a default structure], but it
    names JSONDecodeError only.  1001 opening brackets are not a JSON
    value, and the step raises RecursionError; an opening bracket and 4301
    digits are not one either, and the step raises ValueError.  In neither
    case is the default structure returned: the exception leaves
    [analyze_resume_ats].  The brackets are a text the decoder rejects as
    any other when the stack has room, and the default structure is the
    answer then. *)
Theorem truncated_text_raises :
  ((forall v, json.loads cpython_3_11 deep_array_cut <> Returned v) /\
   interpret cpython_3_11 deep_array_cut = Raised RecursionError /\
   interpret cpython_3_11 deep_array_cut
     <> Returned (default_structure deep_array_cut))
  /\
  ((forall v, json.loads cpython_3_11 long_integer_cut <> Returned v) /\
   interpret cpython_3_11 long_integer_cut = Raised ValueError /\
   interpret cpython_3_11 long_integer_cut
     <> Returned (default_structure long_integer_cut))
  /\
  (fst (analyze_resume_ats scripted cpython_3_11
          "Python developer, 3 years" "Senior Python Engineer, AWS required"
          (fresh [text_reply deep_array_cut]))
   = Raised RecursionError /\
   fst (analyze_resume_ats scripted cpython_3_11
          "Python developer, 3 years" "Senior Python Engineer, AWS required"
          (fresh [text_reply long_integer_cut]))
   = Raised ValueError)
  /\
  (let roomy := {| recursion_budget := 2000; int_max_str_digits := 4300 |} in
   json.loads roomy deep_array_cut = Raised JSONDecodeError /\
   interpret roomy deep_array_cut
   = Returned (default_structure deep_array_cut)).
Proof.
  split; [|split; [|split; [split|split]; vm_compute; reflexivity]].
  - assert (H : json.loads cpython_3_11 deep_array_cut = Raised RecursionError).
    { pose proof (loads_too_deep cpython_3_11 1001 "") as H.
      change (times "[" 1001 ++ "") with deep_array_cut in H.
      apply H. apply Nat.ltb_lt. reflexivity. }
    assert (Hi : interpret cpython_3_11 deep_array_cut = Raised RecursionError).
    { apply interpret_raised; [exact H | discriminate]. }
    split; [intros v; rewrite H; discriminate|].
    split; [exact Hi | rewrite Hi; discriminate].
  - assert (H : json.loads cpython_3_11 long_integer_cut = Raised ValueError)
      by (vm_compute; reflexivity).
    assert (Hi : interpret cpython_3_11 long_integer_cut = Raised ValueError).
    { apply interpret_raised; [exact H | discriminate]. }
    split; [intros v; rewrite H; discriminate|].
    split; [exact Hi | rewrite Hi; discriminate].
Qed.

(** Where the step is total: on every text within the interpreter's limits
    it raises nothing and returns a value. *)
Lemma interpret_returns_within_limits (py : interpreter) (s : string) :
  within_limits py s -> exists v, interpret py s = Returned v.
Proof.
  intros Hlim. destruct (json.loads py s) as [v|e] eqn:E.
  - exists v. now apply interpret_decoded.
  - exists (default_structure s). apply interpret_rejected.
    now rewrite <- (loads_within_limits py s e Hlim E).
Qed.

(** C3 (the code departs from its own comment).  The step is not total,
    on valid JSON even: with 1001 nested arrays the decoder exhausts the
    stack and raises RecursionError; with an integer of 4301 digits in the
    text, [int] raises a plain ValueError.  The clause
    [except json.JSONDecodeError] catches neither, no value is returned,
    and the exception leaves [analyze_resume_ats]. *)
Theorem valid_json_raises :
  (interpret cpython_3_11 deep_array = Raised RecursionError /\
   ~ exists v, interpret cpython_3_11 deep_array = Returned v)
  /\
  (interpret cpython_3_11 long_integer = Raised ValueError /\
   ~ exists v, interpret cpython_3_11 long_integer = Returned v)
  /\
  (fst (analyze_resume_ats scripted cpython_3_11
          "Python developer, 3 years" "Senior Python Engineer, AWS required"
          (fresh [text_reply deep_array]))
   = Raised RecursionError /\
   fst (analyze_resume_ats scripted cpython_3_11
          "Python developer, 3 years" "Senior Python Engineer, AWS required"
          (fresh [text_reply long_integer]))
   = Raised ValueError).
Proof.
  split; [|split; [|split; vm_compute; reflexivity]].
  - assert (H : interpret cpython_3_11 deep_array = Raised RecursionError).
    { apply interpret_raised; [|discriminate].
      apply (loads_too_deep cpython_3_11 1001 (times "]" 1001)).
      apply Nat.ltb_lt. reflexivity. }
    split; [exact H|]. intros [v Hv]. rewrite H in Hv. discriminate.
  - assert (H : interpret cpython_3_11 long_integer = Raised ValueError)
      by (vm_compute; reflexivity).
    split; [exact H|]. intros [v Hv]. rewrite H in Hv. discriminate.
Qed.

(** C4.  When the reply decodes to an object that holds the four keys, the
    interpretation step returns that object: the report has the four fields,
    and every field is the decoded value, whatever its type or range. *)
Theorem report_fields_passed_through (py : interpreter) (s : string)
  (d : list (string * value)) :
  json.loads py s = Returned (PyDict d) ->
  fully_populated (PyDict d) = true ->
  exists result,
    interpret py s = Returned result /\
    fully_populated result = true /\
    forall k, field k result = dict_get k d.
Proof.
  intros Hd Hfull. exists (PyDict d). split; [|split].
  - now apply interpret_decoded.
  - exact Hfull.
  - reflexivity.
Qed.

(** A reply whose score is a string and whose missing_keywords is the number
    250 comes back as it is. *)
Lemma report_fields_passed_through_witness :
  exists result,
    interpret cpython_3_11 mistyped_report = Returned result /\
    field "score" result = Some (PyStr "high") /\
    field "missing_keywords" result = Some (PyInt 250) /\
    field "suggestions" result = Some PyNone /\
    field "summary" result = Some (PyList [PyBool true]).
Proof.
  destruct (report_fields_passed_through cpython_3_11 mistyped_report
              [ ("score", PyStr "high"); ("missing_keywords", PyInt 250);
                ("suggestions", PyNone); ("summary", PyList [PyBool true]) ])
    as (result & Hres & _ & Hfield).
  - vm_compute. reflexivity.
  - reflexivity.
  - exists result. split; [exact Hres|]. rewrite !Hfield.
    repeat split; reflexivity.
Defined.

(** Scenario A, through the whole operation. *)
Example scenario_A_report :
  fst (analyze_resume_ats scripted cpython_3_11
         "Python developer, 3 years" "Senior Python Engineer, AWS required"
         (fresh [text_reply scenario_A]))
  = Returned (PyDict [ ("score", PyInt 72);
                       ("missing_keywords", PyList [PyStr "AWS"]);
                       ("suggestions", PyList [PyStr "Add AWS experience"]);
                       ("summary", PyStr "Good match") ]).
Proof. vm_compute. reflexivity. Qed.

(** C5.  When [client.messages.create] raises, [analyze_resume_ats] raises
    the same exception: one request has been sent, none after it, and no
    default structure is returned. *)
Theorem upstream_failure_propagates (Backend : Type)
  (messages_create : create_kwargs -> Backend -> outcome Message * Backend)
  (py : interpreter) (resume_text job_description : string)
  (w : world Backend) (e : exn) (backend' : Backend) :
  messages_create (scoring_request resume_text job_description) (backend w)
    = (Raised e, backend') ->
  analyze_resume_ats messages_create py resume_text job_description w
  = (Raised e,
     {| backend := backend';
        sent := (sent w ++ [scoring_request resume_text job_description])%list |}).
Proof. intros H. rewrite analyze_resume_ats_run. cbn zeta. now rewrite H. Qed.

(** Scenario D: the client is rate-limited. *)
Lemma upstream_failure_propagates_witness :
  analyze_resume_ats scripted cpython_3_11 "resume" "job"
    (fresh [Raised (ClientError "RateLimitError")])
  = (Raised (ClientError "RateLimitError"),
     {| backend := []; sent := [scoring_request "resume" "job"] |}).
Proof.
  exact (upstream_failure_propagates (list (outcome Message)) scripted
           cpython_3_11 "resume" "job"
           (fresh [Raised (ClientError "RateLimitError")])
           (ClientError "RateLimitError") [] eq_refl).
Defined.

(** C6, amended.  Whatever value [json.loads] decodes the reply to is the
    result of [analyze_resume_ats]: nothing looks at its shape or its keys.
    (Valid JSON that the decoder gives up on is the subject of C3.) *)
Theorem decoded_value_returned_verbatim (Backend : Type)
  (messages_create : create_kwargs -> Backend -> outcome Message * Backend)
  (py : interpreter) (resume_text job_description : string)
  (w : world Backend) (message : Message) (backend' : Backend)
  (response_text : string) (blocks : list ContentBlock) (v : value) :
  messages_create (scoring_request resume_text job_description) (backend w)
    = (Returned message, backend') ->
  content message = TextBlock response_text :: blocks ->
  json.loads py response_text = Returned v ->
  fst (analyze_resume_ats messages_create py resume_text job_description w)
  = Returned v.
Proof.
  intros Hreply Hblocks Hloads. rewrite analyze_resume_ats_run. cbn zeta.
  rewrite Hreply. cbn [fst]. unfold content_0_text. rewrite Hblocks.
  now apply interpret_decoded.
Qed.

(** The replies [null], [42], [[]], [{}] and an object with the four keys
    and a fifth. *)
Lemma decoded_value_returned_verbatim_witness :
  let run reply :=
    fst (analyze_resume_ats scripted cpython_3_11 "resume" "job"
           (fresh [text_reply reply])) in
  run "null" = Returned PyNone /\
  run "42" = Returned (PyInt 42) /\
  run "[]" = Returned (PyList []) /\
  run "{}" = Returned (PyDict []) /\
  run extra_key_report
    = Returned (PyDict [ ("score", PyInt 72); ("missing_keywords", PyList []);
                         ("suggestions", PyList []); ("summary", PyStr "ok");
                         ("confidence", PyFloat "0.9") ]).
Proof.
  cbv zeta.
  pose proof (fun reply v =>
    decoded_value_returned_verbatim (list (outcome Message)) scripted
      cpython_3_11 "resume" "job" (fresh [text_reply reply])
      {| content := [TextBlock reply] |} [] reply [] v eq_refl eq_refl) as run.
  split; [apply run; vm_compute; reflexivity|].
  split; [apply run; vm_compute; reflexivity|].
  split; [apply run; vm_compute; reflexivity|].
  split; [apply run; vm_compute; reflexivity|].
  apply run; vm_compute; reflexivity.
Defined.

(** C6 as stated fails: not every reply that is valid JSON is returned as
    the decoder would produce it.  1001 nested empty arrays are valid JSON,
    which the decoder reads when the stack is deep enough; with what the
    default recursion limit leaves, [analyze_resume_ats] raises
    RecursionError and returns nothing. *)
Lemma valid_reply_is_not_returned :
  let roomy := {| recursion_budget := 2000; int_max_str_digits := 4300 |} in
  (exists v, json.loads roomy deep_array = Returned v) /\
  fst (analyze_resume_ats scripted cpython_3_11 "resume" "job"
         (fresh [text_reply deep_array]))
  = Raised RecursionError /\
  forall v,
    fst (analyze_resume_ats scripted cpython_3_11 "resume" "job"
           (fresh [text_reply deep_array]))
    <> Returned v.
Proof.
  cbv zeta.
  assert (H : fst (analyze_resume_ats scripted cpython_3_11 "resume" "job"
                     (fresh [text_reply deep_array]))
              = Raised RecursionError).
  { vm_compute. reflexivity. }
  split; [|split; [exact H | intros v; rewrite H; discriminate]].
  destruct (json.loads {| recursion_budget := 2000;
                          int_max_str_digits := 4300 |} deep_array)
    as [v|e] eqn:E; [now exists v|].
  exfalso. revert E. vm_compute. discriminate.
Qed.

(** C7.  The scoring prompt is a function of the resume and the job
    description alone.  Two calls with the same pair send the same request,
    whatever the client, the state of the backend, the requests made before
    and the interpreter's settings are; the prompt in it is [ats_prompt] of
    the pair, byte for byte; and the one call of the client is all that a
    run does to the world, so building the prompt has no effect of its
    own. *)
Theorem scoring_prompt_deterministic (Backend1 Backend2 : Type)
  (create1 : create_kwargs -> Backend1 -> outcome Message * Backend1)
  (create2 : create_kwargs -> Backend2 -> outcome Message * Backend2)
  (py1 py2 : interpreter) (resume_text job_description : string)
  (w1 : world Backend1) (w2 : world Backend2) :
  requests_of (analyze_resume_ats create1 py1 resume_text job_description) w1
  = requests_of (analyze_resume_ats create2 py2 resume_text job_description) w2
  /\
  map messages
    (requests_of (analyze_resume_ats create1 py1 resume_text job_description) w1)
  = [[PyDict [("role", PyStr "user");
              ("content", PyStr (ats_prompt resume_text job_description))]]]
  /\
  snd (analyze_resume_ats create1 py1 resume_text job_description w1)
  = {| backend :=
         snd (create1 (scoring_request resume_text job_description) (backend w1));
       sent :=
         (sent w1 ++ [scoring_request resume_text job_description])%list |}.
Proof.
  rewrite !analyze_resume_ats_requests, analyze_resume_ats_run.
  repeat split.
Qed.

(** C8.  Each operation calls the client once, with a ceiling of output
    tokens that no argument changes: 1024 for the score, 1500 for the
    letter. *)
Theorem one_request_fixed_token_ceiling (Backend : Type)
  (messages_create : create_kwargs -> Backend -> outcome Message * Backend)
  (py : interpreter)
  (resume_text job_description company_name : string) (tone : option string)
  (w : world Backend) :
  (exists kwargs,
     sent (snd (analyze_resume_ats messages_create py resume_text
                  job_description w))
     = (sent w ++ [kwargs])%list /\
     max_tokens kwargs = 1024%Z) /\
  (exists kwargs,
     sent (snd (generate_cover_letter messages_create resume_text
                  job_description company_name tone w))
     = (sent w ++ [kwargs])%list /\
     max_tokens kwargs = 1500%Z).
Proof.
  split.
  - exists (scoring_request resume_text job_description).
    rewrite analyze_resume_ats_run. split; reflexivity.
  - exists (letter_request resume_text job_description company_name
              (tone_used tone)).
    rewrite generate_cover_letter_run. split; reflexivity.
Qed.

(** C9.  [generate_cover_letter] sends a prompt in which the company name
    and the tone occur as they were given, the tone being [professional]
    when the caller gives none and any string otherwise; when the client
    replies, the text of the first block is returned as it is. *)
Theorem cover_letter_prompt_and_text (Backend : Type)
  (messages_create : create_kwargs -> Backend -> outcome Message * Backend)
  (resume_text job_description company_name : string) (tone : option string)
  (w : world Backend) :
  let used := match tone with Some t => t | None => "professional" end in
  let prompt :=
    cover_letter_prompt resume_text job_description company_name used in
  let run :=
    generate_cover_letter messages_create resume_text job_description
      company_name tone w in
  map messages (requests_of
    (generate_cover_letter messages_create resume_text job_description
       company_name tone) w)
  = [[PyDict [("role", PyStr "user"); ("content", PyStr prompt)]]] /\
  occurs_in company_name prompt /\
  occurs_in used prompt /\
  (forall message backend' text blocks,
     messages_create
       (letter_request resume_text job_description company_name used)
       (backend w) = (Returned message, backend') ->
     content message = TextBlock text :: blocks ->
     fst run = Returned text).
Proof.
  cbv zeta. fold (tone_used tone).
  rewrite generate_cover_letter_requests. split; [reflexivity|].
  split; [unfold cover_letter_prompt; find_occurrence|].
  split; [unfold cover_letter_prompt; find_occurrence|].
  intros message backend' text blocks Hreply Hblocks.
  rewrite generate_cover_letter_run. cbn zeta. rewrite Hreply. cbn [fst].
  unfold content_0_text. now rewrite Hblocks.
Qed.

(** Scenario C, and the same call without a tone. *)
Lemma cover_letter_prompt_and_text_witness :
  fst (generate_cover_letter scripted "resume" "job" "Acme Corp"
         (Some "enthusiastic") (fresh [text_reply "Dear Hiring Manager,"]))
  = Returned "Dear Hiring Manager," /\
  occurs_in "Acme Corp"
    (cover_letter_prompt "resume" "job" "Acme Corp" "enthusiastic") /\
  occurs_in "enthusiastic"
    (cover_letter_prompt "resume" "job" "Acme Corp" "enthusiastic") /\
  occurs_in "professional"
    (cover_letter_prompt "resume" "job" "Acme Corp" "professional").
Proof.
  destruct (cover_letter_prompt_and_text (list (outcome Message)) scripted
              "resume" "job" "Acme Corp" (Some "enthusiastic")
              (fresh [text_reply "Dear Hiring Manager,"]))
    as (_ & Hcompany & Htone & Htext).
  destruct (cover_letter_prompt_and_text (list (outcome Message)) scripted
              "resume" "job" "Acme Corp" None (fresh []))
    as (_ & _ & Hdefault & _).
  split; [|split; [exact Hcompany | split; [exact Htone | exact Hdefault]]].
  exact (Htext {| content := [TextBlock "Dear Hiring Manager,"] |} [] _ []
           eq_refl eq_refl).
Defined.

(** C10.  Both operations send the same shape of request: the model
    [claude-sonnet-4-20250514], and one message of role [user] whose content
    is the prompt.  The arguments of the call reach the request through the
    prompt only. *)
Theorem request_shape_fixed (Backend : Type)
  (messages_create : create_kwargs -> Backend -> outcome Message * Backend)
  (py : interpreter)
  (resume_text job_description company_name : string) (tone : option string)
  (w : world Backend) :
  sent (snd (analyze_resume_ats messages_create py resume_text
               job_description w))
  = (sent w ++
     [ {| model := "claude-sonnet-4-20250514";
          max_tokens := 1024;
          messages :=
            [PyDict [("role", PyStr "user");
                     ("content",
                      PyStr (ats_prompt resume_text job_description))]] |} ])%list
  /\
  sent (snd (generate_cover_letter messages_create resume_text
               job_description company_name tone w))
  = (sent w ++
     [ {| model := "claude-sonnet-4-20250514";
          max_tokens := 1500;
          messages :=
            [PyDict [("role", PyStr "user");
                     ("content",
                      PyStr (cover_letter_prompt resume_text job_description
                               company_name (tone_used tone)))]] |} ])%list.
Proof.
  rewrite analyze_resume_ats_run, generate_cover_letter_run.
  split; reflexivity.
Qed.

(** * Further properties of the service *)

Lemma append_cancel_l (a b c : string) : a ++ b = a ++ c -> b = c.
Proof. induction a as [|x a IH]; simpl; [auto | intros [= H]; auto]. Qed.

Lemma append_cancel_r (a b c : string) : a ++ c = b ++ c -> a = b.
Proof.
  revert b; induction a as [|x a IH]; intros [|y b] H; simpl in H.
  - reflexivity.
  - apply (f_equal String.length) in H. simpl in H.
    rewrite length_append in H. lia.
  - apply (f_equal String.length) in H. simpl in H.
    rewrite length_append in H. lia.
  - injection H as -> H. now rewrite (IH b H).
Qed.

(** The scoring prompt, cut at its two arguments. *)
Lemma ats_prompt_parts (r j : string) :
  ats_prompt r j = ats_prompt_head ++ r ++ job_heading ++ j ++ ats_prompt_tail.
Proof. reflexivity. Qed.

(** X1.  The scoring prompt does not fence its arguments off: a resume that
    ends with what looks like the job description heading and a job
    description give the same prompt as the shorter resume with the rest
    moved into the job description. *)
Theorem scoring_prompt_collision (a b c : string) :
  ats_prompt (a ++ job_heading ++ b) c = ats_prompt a (b ++ job_heading ++ c).
Proof.
  rewrite !ats_prompt_parts. f_equal.
  now rewrite !append_assoc.
Qed.

(** X2.  Two pairs that give the same scoring prompt differ in both
    components or in none: with the resume fixed the prompt determines the
    job description, and the other way round, so nothing of either text is
    cut or changed on the way into the prompt. *)
Theorem scoring_prompt_injective_in_each (r r' j j' : string) :
  ats_prompt r j = ats_prompt r' j' -> (r = r' <-> j = j').
Proof.
  rewrite !ats_prompt_parts. intros H. apply append_cancel_l in H.
  split; intros E; subst.
  - apply append_cancel_l in H. apply append_cancel_l in H.
    apply append_cancel_r in H. exact H.
  - rewrite <- !append_assoc in H. apply append_cancel_r in H.
    apply append_cancel_r in H. apply append_cancel_r in H. exact H.
Qed.

(** Two pairs with one prompt: the resume of the first holds the heading
    and the skills that the second has in its job description.  They differ
    in the resume and in the job description. *)
Lemma scoring_prompt_injective_in_each_witness :
  let resume := "Python developer" ++ job_heading ++ "Python" in
  let job := "AWS" in
  let resume' := "Python developer" in
  let job' := "Python" ++ job_heading ++ "AWS" in
  ats_prompt resume job = ats_prompt resume' job' /\
  resume <> resume' /\ job <> job' /\
  (resume = resume' <-> job = job').
Proof.
  cbv zeta.
  assert (H : ats_prompt ("Python developer" ++ job_heading ++ "Python") "AWS"
              = ats_prompt "Python developer"
                  ("Python" ++ job_heading ++ "AWS")) by reflexivity.
  split; [exact H|]. split; [discriminate|]. split; [discriminate|].
  exact (scoring_prompt_injective_in_each _ _ _ _ H).
Defined.

(** X3.  Both texts reach the scoring prompt whole: each occurs in it as it
    was given, and the prompt is longer than the two together by the 644
    characters of the template, whatever their size. *)
Theorem scoring_prompt_embeds_inputs (resume_text job_description : string) :
  occurs_in resume_text (ats_prompt resume_text job_description) /\
  occurs_in job_description (ats_prompt resume_text job_description) /\
  String.length (ats_prompt resume_text job_description)
  = String.length resume_text + String.length job_description + 644.
Proof.
  split; [unfold ats_prompt; find_occurrence|].
  split; [unfold ats_prompt; find_occurrence|].
  rewrite ats_prompt_parts, !length_append.
  change (String.length ats_prompt_head) with 354.
  change (String.length job_heading) with 19.
  change (String.length ats_prompt_tail) with 271.
  lia.
Qed.

(** X4.  A reply whose first character after the whitespace cannot start a
    JSON value, such as a markdown fence or a sentence put in front of the
    JSON, is not searched for the JSON in it: the result is the default
    structure, with the whole reply as summary. *)
Theorem wrapped_reply_gives_default_structure (py : interpreter) (s : string)
  (c : ascii) (r : string) :
  json.skip_ws s = String c r ->
  can_start_value c = false ->
  interpret py s = Returned (default_structure s) /\
  fully_populated (default_structure s) = true /\
  field "summary" (default_structure s) = Some (PyStr s).
Proof.
  intros Hs Hc. split; [|split; reflexivity].
  apply interpret_rejected. unfold json.loads. rewrite Hs.
  assert (H : forall d, json.scan_once py d (String c r) = json.StopIteration).
  { intros d. revert Hc.
    destruct c as [[] [] [] [] [] [] [] []]; try discriminate; intros _;
      destruct d; reflexivity. }
  now rewrite H.
Qed.

Lemma wrapped_reply_gives_default_structure_witness :
  interpret cpython_3_11 fenced_reply
    = Returned (default_structure fenced_reply) /\
  interpret cpython_3_11 chatty_reply
    = Returned (default_structure chatty_reply).
Proof.
  split.
  - exact (proj1 (wrapped_reply_gives_default_structure cpython_3_11
                    fenced_reply "`" _ eq_refl eq_refl)).
  - exact (proj1 (wrapped_reply_gives_default_structure cpython_3_11
                    chatty_reply "H" _ eq_refl eq_refl)).
Defined.

(** X5.  A reply that carries no content block makes [message.content[0]]
    raise IndexError in both operations, after the one request: the scoring
    operation does not fall back to the default structure for it. *)
Theorem empty_reply_raises_index_error (Backend : Type)
  (messages_create : create_kwargs -> Backend -> outcome Message * Backend)
  (py : interpreter)
  (resume_text job_description company_name : string) (tone : option string)
  (w : world Backend) :
  (forall backend',
     messages_create (scoring_request resume_text job_description) (backend w)
       = (Returned {| content := [] |}, backend') ->
     analyze_resume_ats messages_create py resume_text job_description w
     = (Raised IndexError,
        {| backend := backend';
           sent := (sent w
                    ++ [scoring_request resume_text job_description])%list |}))
  /\
  (forall backend',
     messages_create
       (letter_request resume_text job_description company_name
          (tone_used tone)) (backend w)
       = (Returned {| content := [] |}, backend') ->
     generate_cover_letter messages_create resume_text job_description
       company_name tone w
     = (Raised IndexError,
        {| backend := backend';
           sent := (sent w
                    ++ [letter_request resume_text job_description
                          company_name (tone_used tone)])%list |})).
Proof.
  split; intros backend' H.
  - rewrite analyze_resume_ats_run. cbn zeta. now rewrite H.
  - rewrite generate_cover_letter_run. cbn zeta. now rewrite H.
Qed.

Lemma empty_reply_raises_index_error_witness :
  fst (analyze_resume_ats scripted cpython_3_11 "resume" "job"
         (fresh [Returned {| content := [] |}]))
  = Raised IndexError /\
  fst (generate_cover_letter scripted "resume" "job" "Acme Corp" None
         (fresh [Returned {| content := [] |}]))
  = Raised IndexError.
Proof.
  destruct (empty_reply_raises_index_error (list (outcome Message)) scripted
              cpython_3_11 "resume" "job" "Acme Corp" None
              (fresh [Returned {| content := [] |}])) as [Hscore Hletter].
  split.
  - now rewrite (Hscore [] eq_refl).
  - now rewrite (Hletter [] eq_refl).
Defined.

(** X6.  When [client.messages.create] raises, [generate_cover_letter]
    raises the same exception, after that one request and without a second
    one. *)
Theorem cover_letter_failure_propagates (Backend : Type)
  (messages_create : create_kwargs -> Backend -> outcome Message * Backend)
  (resume_text job_description company_name : string) (tone : option string)
  (w : world Backend) (e : exn) (backend' : Backend) :
  messages_create
    (letter_request resume_text job_description company_name (tone_used tone))
    (backend w) = (Raised e, backend') ->
  generate_cover_letter messages_create resume_text job_description
    company_name tone w
  = (Raised e,
     {| backend := backend';
        sent := (sent w
                 ++ [letter_request resume_text job_description company_name
                       (tone_used tone)])%list |}).
Proof. intros H. rewrite generate_cover_letter_run. cbn zeta. now rewrite H. Qed.

Lemma cover_letter_failure_propagates_witness :
  generate_cover_letter scripted "resume" "job" "Acme Corp" None (fresh [])
  = (Raised (ClientError "APIConnectionError"),
     {| backend := [];
        sent := [letter_request "resume" "job" "Acme Corp" "professional"] |}).
Proof.
  exact (cover_letter_failure_propagates (list (outcome Message)) scripted
           "resume" "job" "Acme Corp" None (fresh [])
           (ClientError "APIConnectionError") [] eq_refl).
Defined.

(** X7.  Once the client has replied, the scoring operation can fail in
    four ways only: IndexError on a reply without blocks, AttributeError on
    a first block without text, and RecursionError or ValueError raised by
    [json.loads] on the text of the first block.  A JSONDecodeError of the
    decoder never reaches the caller. *)
Theorem scoring_failures_classified (Backend : Type)
  (messages_create : create_kwargs -> Backend -> outcome Message * Backend)
  (py : interpreter) (resume_text job_description : string)
  (w : world Backend) (message : Message) (backend' : Backend) (e : exn) :
  messages_create (scoring_request resume_text job_description) (backend w)
    = (Returned message, backend') ->
  fst (analyze_resume_ats messages_create py resume_text job_description w)
    = Raised e ->
  (e = IndexError /\ content message = []) \/
  (e = AttributeError /\
   exists blocks, content message = ToolUseBlock :: blocks) \/
  ((e = RecursionError \/ e = ValueError) /\
   exists response_text blocks,
     content message = TextBlock response_text :: blocks /\
     json.loads py response_text = Raised e).
Proof.
  intros Hreply. rewrite analyze_resume_ats_run. cbn zeta.
  rewrite Hreply. cbn [fst]. unfold content_0_text.
  destruct (content message) as [|[text|] blocks].
  - intros [= <-]. auto.
  - intros H. apply interpret_raises_iff in H. destruct H as [H Hne].
    right. right. split; [|now exists text, blocks].
    destruct (loads_raises py text e H) as [->|[->| ->]]; auto.
    now destruct Hne.
  - intros [= <-]. right. left. split; [reflexivity|]. now exists blocks.
Qed.

(** The four ways, each on a reply of its own. *)
Lemma scoring_failures_classified_witness :
  let run reply :=
    fst (analyze_resume_ats scripted cpython_3_11 "resume" "job"
           (fresh [Returned reply])) in
  run {| content := [] |} = Raised IndexError /\
  run {| content := [ToolUseBlock] |} = Raised AttributeError /\
  run {| content := [TextBlock deep_array_cut] |} = Raised RecursionError /\
  run {| content := [TextBlock long_integer] |} = Raised ValueError /\
  ((ValueError = RecursionError \/ ValueError = ValueError) /\
   exists response_text blocks,
     [TextBlock long_integer] = TextBlock response_text :: blocks /\
     json.loads cpython_3_11 response_text = Raised ValueError).
Proof.
  cbv zeta.
  assert (Hlong : fst (analyze_resume_ats scripted cpython_3_11 "resume" "job"
                         (fresh [text_reply long_integer]))
                  = Raised ValueError) by (vm_compute; reflexivity).
  split; [reflexivity|]. split; [reflexivity|].
  split; [vm_compute; reflexivity|]. split; [exact Hlong|].
  destruct (scoring_failures_classified (list (outcome Message)) scripted
              cpython_3_11 "resume" "job" (fresh [text_reply long_integer])
              {| content := [TextBlock long_integer] |} [] ValueError eq_refl
              Hlong)
    as [[Hindex _]|[[Hattribute _]|Hdecoder]];
    [discriminate | discriminate | exact Hdecoder].
Defined.

(** X8.  Nothing is remembered between calls: a second call with the same
    two texts sends the same request again, to the backend as the first
    call left it, whether the first call returned or raised. *)
Theorem scoring_calls_are_not_cached (Backend : Type)
  (messages_create : create_kwargs -> Backend -> outcome Message * Backend)
  (py : interpreter) (resume_text job_description : string)
  (w : world Backend) :
  let first :=
    analyze_resume_ats messages_create py resume_text job_description w in
  let second :=
    analyze_resume_ats messages_create py resume_text job_description
      (snd first) in
  let kwargs := scoring_request resume_text job_description in
  sent (snd second) = (sent w ++ [kwargs; kwargs])%list /\
  backend (snd second)
  = snd (messages_create kwargs
           (snd (messages_create kwargs (backend w)))).
Proof.
  cbv zeta. rewrite !analyze_resume_ats_run. cbn [snd sent backend].
  split; [|reflexivity]. now rewrite <- app_assoc.
Qed.

(** * Properties of the job store *)

Lemma max_rowid_bound (rows : list api.Row.t) (r : api.Row.t) :
  In r rows -> (api.Row.id r <= api.max_rowid rows)%Z.
Proof.
  induction rows as [|x rows IH]; simpl; [tauto|].
  intros [->|H]; [lia|]. specialize (IH H). lia.
Qed.

Lemma max_rowid_nonneg (rows : list api.Row.t) : (0 <= api.max_rowid rows)%Z.
Proof. induction rows; simpl; lia. Qed.

Lemma max_rowid_app (rows : list api.Row.t) (r : api.Row.t) :
  api.max_rowid (rows ++ [r])
  = Z.max (api.max_rowid rows) (Z.max (api.Row.id r) 0).
Proof. induction rows as [|x rows IH]; simpl; [lia|]. rewrite IH. lia. Qed.

Lemma find_absent (rows : list api.Row.t) (i : Z) :
  (forall r, In r rows -> api.Row.id r <> i) ->
  find (fun r => (api.Row.id r =? i)%Z) rows = None.
Proof.
  induction rows as [|x rows IH]; simpl; [reflexivity|]. intros H.
  destruct (Z.eqb_spec (api.Row.id x) i) as [E|_].
  - now destruct (H x (or_introl eq_refl)).
  - apply IH. intros r Hr. apply H. now right.
Qed.

Lemma find_appended (rows : list api.Row.t) (r : api.Row.t) :
  (forall x, In x rows -> api.Row.id x <> api.Row.id r) ->
  find (fun x => (api.Row.id x =? api.Row.id r)%Z) (rows ++ [r]) = Some r.
Proof.
  induction rows as [|x rows IH]; simpl; intros H.
  - now rewrite Z.eqb_refl.
  - destruct (Z.eqb_spec (api.Row.id x) (api.Row.id r)) as [E|_].
    + now destruct (H x (or_introl eq_refl)).
    + apply IH. intros y Hy. apply H. now right.
Qed.

Lemma bind_binds (p : api.param) : binds p -> api.bind p = api.Ok (sql_of p).
Proof.
  destruct p; simpl; try reflexivity; unfold encodable; now intros ->.
Qed.

Lemma bind_all_binds (ps : list api.param) :
  Forall binds ps -> api.bind_all ps = api.Ok (map sql_of ps).
Proof.
  induction 1 as [|p ps Hp _ IH]; simpl; [reflexivity|].
  now rewrite (bind_binds p Hp), IH.
Qed.

Lemma binds_optional_int (v : option Z) :
  binds_option v -> binds (api.optional api.PInt v).
Proof. destruct v; simpl; auto. Qed.

Lemma binds_optional_str (v : option string) :
  encodable_option v -> binds (api.optional api.PStr v).
Proof. destruct v; simpl; auto. Qed.

Lemma world_eta (w : api.world) :
  {| api.db_path := api.db_path w; api.file := api.file w;
     api.now := api.now w; api.readings := api.readings w;
     api.stdout := api.stdout w |} = w.
Proof. now destruct w. Qed.

Lemma int64_bounds (z : Z) :
  api.int64 z = true <->
  (- 9223372036854775808 <= z <= 9223372036854775807)%Z.
Proof. unfold api.int64. rewrite andb_true_iff, !Z.leb_le. tauto. Qed.

(** ** Connections and requests *)

(** A world that serves has its file, and the file holds the database. *)
Lemma serves_file (w : api.world) (rows : list api.Row.t) :
  serves w rows -> api.file w = api.Holds (api.disk w).
Proof.
  intros [_ Hrows]. unfold api.disk in *.
  destruct (api.file w); [discriminate | discriminate | reflexivity].
Qed.

Lemma connect_serves (w : api.world) (rows : list api.Row.t) :
  serves w rows -> api.connect api.main w = (api.Ok (opened w), w).
Proof.
  intros Hs. pose proof (serves_file w rows Hs) as Hheld.
  destruct Hs as [Hfile _]. unfold api.connect. rewrite Hfile, Hheld.
  reflexivity.
Qed.

(** Leaving the connection as it was opened leaves the world as it was. *)
Lemma leave_opened (w : api.world) (rows : list api.Row.t) :
  serves w rows -> api.leave (opened w) w = w.
Proof.
  intros Hs. unfold api.leave. cbn [opened api.saved api.ticks].
  rewrite <- (serves_file w rows Hs).
  destruct (api.private (api.db_path w)); apply world_eta.
Qed.

Lemma serves_stored (w : api.world) (rows : list api.Row.t) (seq : Z)
  (n : nat) :
  api.private (api.db_path w) = false -> serves (stored_world w rows seq n) rows.
Proof. intros H. split; [exact H | reflexivity]. Qed.

(** A request in the thread of the caller, on a world that serves: the
    endpoint runs on the opened connection, and the world is what the
    connection leaves. *)
Lemma request_serves {A : Type} (endpoint : api.Sql A) (w : api.world)
  (rows : list api.Row.t) (response : api.result A) (c : api.connection) :
  serves w rows ->
  endpoint (opened w) = (response, c) ->
  api.owner c = api.main ->
  api.request endpoint w = (response, api.leave c w).
Proof.
  intros Hs Hrun Howner. unfold api.request, api.serve.
  rewrite (connect_serves w rows Hs).
  change (api.handed_to api.main (opened w)) with (opened w).
  rewrite Hrun. unfold api.close. rewrite Howner. reflexivity.
Qed.

(** The methods of a connection that is used in its thread. *)
Lemma in_its_thread_run {A : Type} (call : api.Sql A) (c : api.connection) :
  api.caller c = api.owner c -> api.in_its_thread call c = call c.
Proof. intros H. unfold api.in_its_thread. now rewrite H, Z.eqb_refl. Qed.

Lemma cursor_run (c : api.connection) :
  api.caller c = api.owner c -> api.cursor c = (api.Ok tt, c).
Proof. intros H. unfold api.cursor. now rewrite in_its_thread_run. Qed.

Lemma on_jobs_run {A : Type}
  (k : list api.Row.t -> api.connection -> api.result A * api.connection)
  (c : api.connection) (rows : list api.Row.t) :
  api.caller c = api.owner c -> api.jobs (api.work c) = Some rows ->
  api.on_jobs k c = k rows c.
Proof.
  intros H Hrows. unfold api.on_jobs. rewrite in_its_thread_run by exact H.
  now rewrite Hrows.
Qed.

(** The methods of a connection that is used in another thread. *)
Lemma in_its_thread_refused {A : Type} (call : api.Sql A)
  (c : api.connection) :
  api.caller c <> api.owner c ->
  api.in_its_thread call c
  = (api.Raise (api.ProgrammingError
                  (api.OtherThread (api.owner c) (api.caller c))), c).
Proof.
  intros H. unfold api.in_its_thread.
  destruct (Z.eqb_spec (api.caller c) (api.owner c)); [contradiction|].
  reflexivity.
Qed.

Lemma largest_rowid_nonneg (w : api.world) (rows : list api.Row.t) :
  (0 <= largest_rowid w rows)%Z.
Proof.
  unfold largest_rowid. pose proof (max_rowid_nonneg rows). lia.
Qed.

(** ** The endpoints on a connection *)

Lemma usable_opened (w : api.world) (rows : list api.Row.t) :
  serves w rows -> usable (opened w) rows.
Proof. intros [_ Hrows]. split; [reflexivity | exact Hrows]. Qed.

Lemma select_job_by_id_run (c : api.connection) (rows : list api.Row.t)
  (job_id : Z) :
  usable c rows -> api.int64 job_id = true ->
  api.select_job_by_id job_id c = (api.Ok (job_with_id job_id rows), c).
Proof.
  intros [Hthread Hrows] Hint. unfold api.select_job_by_id.
  rewrite (on_jobs_run _ c rows Hthread Hrows). cbn [api.bind].
  now rewrite Hint.
Qed.

(** What [get_job] does. *)
Lemma get_job_on (c : api.connection) (rows : list api.Row.t) (job_id : Z) :
  usable c rows -> api.int64 job_id = true ->
  api.get_job job_id c
  = (match job_with_id job_id rows with
     | Some r => api.Ok (api.dict_of_row r)
     | None => api.Raise not_found
     end, c).
Proof.
  intros Hc Hint. unfold api.get_job, api.bind_run.
  rewrite (cursor_run c (proj1 Hc)).
  rewrite (select_job_by_id_run c rows job_id Hc Hint).
  now destruct (job_with_id job_id rows).
Qed.

(** What a request for one job does. *)
Lemma get_job_run (w : api.world) (rows : list api.Row.t) (job_id : Z) :
  serves w rows -> api.int64 job_id = true ->
  api.request (api.get_job job_id) w
  = (match job_with_id job_id rows with
     | Some r => api.Ok (api.dict_of_row r)
     | None => api.Raise not_found
     end, w).
Proof.
  intros Hs Hint.
  rewrite (request_serves _ w rows _ (opened w) Hs
             (get_job_on _ rows job_id (usable_opened w rows Hs) Hint)
             eq_refl).
  now rewrite (leave_opened w rows Hs).
Qed.

Lemma leave_committed (w : api.world) (rows : list api.Row.t) (seq : Z)
  (n : nat) :
  api.private (api.db_path w) = false ->
  api.leave (committed (opened w) rows seq n) w = stored_world w rows seq n.
Proof. intros H. unfold api.leave. now rewrite H. Qed.

Lemma storable_binds (job : api.JobCreate.t) :
  storable job ->
  Forall binds
    [ api.PStr (api.JobCreate.company job); api.PStr (api.JobCreate.position job);
      api.optional api.PStr (api.JobCreate.location job);
      api.optional api.PStr (api.JobCreate.job_url job);
      api.optional api.PInt (api.JobCreate.salary_min job);
      api.optional api.PInt (api.JobCreate.salary_max job);
      api.PStr (api.JobCreate.status job);
      api.optional api.PStr (api.JobCreate.notes job) ].
Proof.
  intros (Hc & Hp & Hl & Hu & Hmin & Hmax & Hs & Hn).
  repeat constructor; auto using binds_optional_int, binds_optional_str.
Qed.

(** What [create_job] does. *)
Lemma create_job_on (c : api.connection) (rows : list api.Row.t)
  (job : api.JobCreate.t) :
  usable c rows -> storable job ->
  let largest :=
    Z.max (api.max_rowid rows) (api.sqlite_sequence (api.work c)) in
  (largest < 9223372036854775807)%Z ->
  let r := created_row job (largest + 1) (api.reading c) in
  api.create_job job c
  = (api.Ok (api.dict_of_row r),
     committed c (rows ++ [r]) (api.Row.id r) (S (api.ticks c))).
Proof.
  intros [Hthread Hrows] Hjob largest Hroom r.
  set (params :=
    [ api.PStr (api.JobCreate.company job); api.PStr (api.JobCreate.position job);
      api.optional api.PStr (api.JobCreate.location job);
      api.optional api.PStr (api.JobCreate.job_url job);
      api.optional api.PInt (api.JobCreate.salary_min job);
      api.optional api.PInt (api.JobCreate.salary_max job);
      api.PStr (api.JobCreate.status job);
      api.optional api.PStr (api.JobCreate.notes job) ]).
  assert (Hbind : api.bind_all params = api.Ok (map sql_of params))
    by (apply bind_all_binds, storable_binds, Hjob).
  set (new_id := (largest + 1)%Z) in *.
  pose proof (max_rowid_nonneg rows) as Hpos.
  assert (Hint : api.int64 new_id = true).
  { apply int64_bounds. unfold new_id, largest in *. lia. }
  assert (Hnew : forall x, In x rows -> api.Row.id x <> api.Row.id r).
  { intros x Hx. apply max_rowid_bound in Hx. simpl.
    unfold new_id, largest. lia. }
  pose proof (find_appended rows r Hnew) as Hfind.
  change (api.Row.id r) with new_id in Hfind.
  assert (Hr : api.row_of_create (map sql_of params) new_id (api.reading c)
               = r).
  { unfold r, created_row, params.
    destruct (api.JobCreate.location job), (api.JobCreate.job_url job),
      (api.JobCreate.salary_min job), (api.JobCreate.salary_max job),
      (api.JobCreate.notes job); reflexivity. }
  unfold api.create_job, api.bind_run. rewrite (cursor_run c Hthread).
  unfold api.execute_insert. rewrite (on_jobs_run _ c rows Hthread Hrows).
  fold params. rewrite Hbind. fold largest.
  destruct (Z.eqb_spec largest 9223372036854775807) as [E|_]; [lia|].
  fold new_id. rewrite Hr.
  change (api.not_null_violation r) with (@None string). cbv iota.
  unfold api.commit.
  rewrite in_its_thread_run by (cbn [api.with_jobs api.tick api.caller
                                      api.owner]; exact Hthread).
  rewrite (select_job_by_id_run _ (rows ++ [r])%list new_id)
    by (first [ split; [exact Hthread | reflexivity] | exact Hint ]).
  unfold job_with_id. rewrite Hfind. reflexivity.
Qed.

(** What a request to create a job does. *)
Lemma create_job_run (w : api.world) (rows : list api.Row.t)
  (job : api.JobCreate.t) :
  serves w rows -> storable job ->
  (largest_rowid w rows < 9223372036854775807)%Z ->
  let r := created_row job (largest_rowid w rows + 1)
             (api.now w (api.readings w)) in
  api.request (api.create_job job) w
  = (api.Ok (api.dict_of_row r),
     stored_world w (rows ++ [r]) (api.Row.id r) (S (api.readings w))).
Proof.
  intros Hs Hjob Hroom r.
  pose proof (create_job_on (opened w) rows job (usable_opened w rows Hs) Hjob
                Hroom) as Hrun.
  cbv zeta in Hrun.
  rewrite (request_serves _ w rows _ _ Hs Hrun eq_refl).
  now rewrite leave_committed by apply Hs.
Qed.

(** X9.  A job that was created can be fetched.  When the database is in a
    file with its schema, the request can be stored (its texts have no
    surrogate, its salaries fit 64 bits) and rowids are not used up,
    [create_job] stores one new row after the others, with the fields of
    the request (null for those it leaves out), the CURRENT_DATE of the
    request as date added and no application date, and answers with that
    row; [get_job] with the id of the answer then gives the same answer and
    changes nothing. *)
Theorem created_job_can_be_fetched (w : api.world) (rows : list api.Row.t)
  (job : api.JobCreate.t) :
  serves w rows ->
  storable job ->
  (largest_rowid w rows < 9223372036854775807)%Z ->
  exists r w',
    api.request (api.create_job job) w = (api.Ok (api.dict_of_row r), w') /\
    api.jobs (api.disk w') = Some (rows ++ [r])%list /\
    api.Row.company r = api.Text (api.JobCreate.company job) /\
    api.Row.position r = api.Text (api.JobCreate.position job) /\
    api.Row.location r = stored api.Text (api.JobCreate.location job) /\
    api.Row.job_url r = stored api.Text (api.JobCreate.job_url job) /\
    api.Row.salary_min r = stored api.Integer (api.JobCreate.salary_min job) /\
    api.Row.salary_max r = stored api.Integer (api.JobCreate.salary_max job) /\
    api.Row.status r = api.Text (api.JobCreate.status job) /\
    api.Row.notes r = stored api.Text (api.JobCreate.notes job) /\
    api.Row.date_added r
      = api.Text (api.CURRENT_DATE (api.now w (api.readings w))) /\
    api.Row.date_applied r = api.Null /\
    api.request (api.get_job (api.Row.id r)) w'
      = (api.Ok (api.dict_of_row r), w').
Proof.
  intros Hserves Hjob Hroom.
  pose proof (create_job_run w rows job Hserves Hjob Hroom) as Hrun.
  cbv zeta in Hrun.
  set (r := created_row job (largest_rowid w rows + 1)
              (api.now w (api.readings w))) in *.
  exists r. eexists. split; [exact Hrun|].
  repeat (split; [reflexivity|]).
  rewrite get_job_run with (rows := (rows ++ [r])%list).
  - unfold job_with_id. rewrite find_appended; [reflexivity|].
    intros x Hx. apply max_rowid_bound in Hx. simpl. unfold largest_rowid. lia.
  - apply serves_stored. apply Hserves.
  - apply int64_bounds. pose proof (largest_rowid_nonneg w rows). simpl. lia.
Qed.

Lemma created_job_can_be_fetched_witness :
  exists r w',
    api.request (api.create_job sample_create) sample_world
      = (api.Ok (api.dict_of_row r), w') /\
    api.jobs (api.disk w') = Some [sample_row; r] /\
    api.Row.company r = api.Text "Meta" /\
    api.request (api.get_job (api.Row.id r)) w'
      = (api.Ok (api.dict_of_row r), w').
Proof.
  destruct (created_job_can_be_fetched sample_world [sample_row] sample_create)
    as (r & w' & Hrun & Hrows & Hcompany & Hrest).
  - split; reflexivity.
  - repeat split; reflexivity.
  - reflexivity.
  - exists r, w'. repeat split; try assumption. apply Hrest.
Defined.

Lemma job_with_id_none (rows : list api.Row.t) (j : Z) :
  job_with_id j rows = None -> forall r, In r rows -> api.Row.id r <> j.
Proof.
  intros H r Hr E. apply (find_none _ _ H) in Hr. simpl in Hr.
  rewrite E, Z.eqb_refl in Hr. discriminate.
Qed.

Lemma job_with_id_some (rows : list api.Row.t) (j : Z) (r : api.Row.t) :
  job_with_id j rows = Some r -> In r rows /\ api.Row.id r = j.
Proof.
  intros H. apply find_some in H. destruct H as [Hin Hid].
  split; [exact Hin | now apply Z.eqb_eq].
Qed.

Lemma delete_keeps_all (rows : list api.Row.t) (j : Z) :
  job_with_id j rows = None ->
  filter (fun r => negb (api.Row.id r =? j)%Z) rows = rows.
Proof.
  intros H. pose proof (job_with_id_none rows j H) as Hne. clear H.
  induction rows as [|x rows IH]; simpl; [reflexivity|].
  destruct (Z.eqb_spec (api.Row.id x) j) as [E|_]; simpl.
  - now destruct (Hne x (or_introl eq_refl)).
  - f_equal. apply IH. intros r Hr. apply Hne. now right.
Qed.

Lemma delete_removes (rows : list api.Row.t) (j : Z) (r : api.Row.t) :
  job_with_id j rows = Some r ->
  List.length (filter (fun r => negb (api.Row.id r =? j)%Z) rows)
  < List.length rows.
Proof.
  induction rows as [|x rows IH]; simpl; [discriminate|].
  destruct (Z.eqb_spec (api.Row.id x) j) as [E|_]; simpl.
  - intros _. pose proof (filter_length_le
      (fun r => negb (api.Row.id r =? j)%Z) rows). lia.
  - intros H. specialize (IH H). lia.
Qed.

Lemma job_with_id_deleted (rows : list api.Row.t) (j : Z) :
  job_with_id j (filter (fun r => negb (api.Row.id r =? j)%Z) rows) = None.
Proof.
  induction rows as [|x rows IH]; simpl; [reflexivity|].
  destruct (Z.eqb_spec (api.Row.id x) j) as [E|E]; simpl; [exact IH|].
  destruct (Z.eqb_spec (api.Row.id x) j); [contradiction | exact IH].
Qed.

Lemma job_with_id_after_delete (rows : list api.Row.t) (j k : Z) :
  k <> j ->
  job_with_id k (filter (fun r => negb (api.Row.id r =? j)%Z) rows)
  = job_with_id k rows.
Proof.
  intros Hk. induction rows as [|x rows IH]; simpl; [reflexivity|].
  destruct (Z.eqb_spec (api.Row.id x) j) as [E|E]; simpl.
  - destruct (Z.eqb_spec (api.Row.id x) k); [congruence | exact IH].
  - now rewrite IH.
Qed.

Lemma max_rowid_filter (keep : api.Row.t -> bool) (rows : list api.Row.t) :
  (api.max_rowid (filter keep rows) <= api.max_rowid rows)%Z.
Proof.
  induction rows as [|x rows IH]; simpl; [lia|].
  destruct (keep x); simpl; lia.
Qed.

(** What [delete_job] does. *)
Lemma delete_job_on (c : api.connection) (rows : list api.Row.t) (job_id : Z) :
  usable c rows -> api.int64 job_id = true ->
  api.delete_job job_id c
  = match job_with_id job_id rows with
    | None =>
        (api.Raise not_found,
         api.with_jobs rows (api.sqlite_sequence (api.work c)) c)
    | Some _ =>
        (api.Ok PyNone,
         committed c (filter (fun r => negb (api.Row.id r =? job_id)%Z) rows)
           (api.sqlite_sequence (api.work c)) (api.ticks c))
    end.
Proof.
  intros [Hthread Hrows] Hint.
  unfold api.delete_job, api.bind_run. rewrite (cursor_run c Hthread).
  unfold api.execute_delete. rewrite (on_jobs_run _ c rows Hthread Hrows).
  cbn [api.bind]. rewrite Hint.
  destruct (job_with_id job_id rows) as [r|] eqn:Hfind.
  - apply delete_removes in Hfind.
    destruct (Z.eqb_spec
      (Z.of_nat (List.length rows)
       - Z.of_nat (List.length
           (filter (fun r => negb (api.Row.id r =? job_id)%Z) rows))) 0)
      as [E|_]; [lia|].
    unfold api.commit.
    rewrite in_its_thread_run by (cbn [api.with_jobs api.caller api.owner];
                                  exact Hthread).
    reflexivity.
  - rewrite (delete_keeps_all rows job_id Hfind), Z.sub_diag. reflexivity.
Qed.

(** A DELETE that found nothing and was not committed leaves nothing. *)
Lemma leave_uncommitted (w : api.world) (rows : list api.Row.t)
  (kept : list api.Row.t) (seq : Z) :
  serves w rows ->
  api.leave (api.with_jobs kept seq (opened w)) w = w.
Proof. intros Hs. exact (leave_opened w rows Hs). Qed.

(** What a request to delete a job does. *)
Lemma delete_job_run (w : api.world) (rows : list api.Row.t) (job_id : Z) :
  serves w rows -> api.int64 job_id = true ->
  api.request (api.delete_job job_id) w
  = match job_with_id job_id rows with
    | None => (api.Raise not_found, w)
    | Some _ =>
        (api.Ok PyNone,
         stored_world w
           (filter (fun r => negb (api.Row.id r =? job_id)%Z) rows)
           (api.sqlite_sequence (api.disk w)) (api.readings w))
    end.
Proof.
  intros Hs Hint.
  pose proof (delete_job_on (opened w) rows job_id (usable_opened w rows Hs)
                Hint) as Hrun.
  destruct (job_with_id job_id rows).
  - rewrite (request_serves _ w rows _ _ Hs Hrun eq_refl).
    now rewrite leave_committed by apply Hs.
  - rewrite (request_serves _ w rows _ _ Hs Hrun eq_refl).
    now rewrite (leave_uncommitted w rows).
Qed.

(** X10.  A job that was deleted is gone, and only that job: after a
    [delete_job] that found the job, [get_job] with the same id answers 404,
    every other id gets the answer it got before, and the rowid counter
    stays where it was.  With the counter where SQLite keeps it, not below
    the rowids of the table, the id is not given out again: the next job
    that is created gets the rowid after the counter, which is above the
    id of the deleted job. *)
Theorem deleted_job_is_gone (w : api.world) (rows : list api.Row.t)
  (job_id : Z) (r : api.Row.t) :
  serves w rows -> api.int64 job_id = true ->
  job_with_id job_id rows = Some r ->
  counted w rows ->
  exists w',
    api.request (api.delete_job job_id) w = (api.Ok PyNone, w') /\
    api.request (api.get_job job_id) w' = (api.Raise not_found, w') /\
    (forall other, api.int64 other = true -> other <> job_id ->
       fst (api.request (api.get_job other) w')
       = fst (api.request (api.get_job other) w)) /\
    api.sqlite_sequence (api.disk w') = api.sqlite_sequence (api.disk w) /\
    (forall job,
       storable job ->
       (api.sqlite_sequence (api.disk w) < 9223372036854775807)%Z ->
       exists r' w'',
         api.request (api.create_job job) w'
           = (api.Ok (api.dict_of_row r'), w'') /\
         api.Row.id r' = (api.sqlite_sequence (api.disk w) + 1)%Z /\
         (job_id < api.Row.id r')%Z).
Proof.
  intros Hserves Hint Hfind Hcounted.
  pose proof (delete_job_run w rows job_id Hserves Hint) as Hrun.
  rewrite Hfind in Hrun. eexists. split; [exact Hrun|].
  set (kept := filter (fun r => negb (api.Row.id r =? job_id)%Z) rows) in *.
  set (w' := stored_world w kept (api.sqlite_sequence (api.disk w))
               (api.readings w)).
  assert (Hs : serves w' kept) by (apply serves_stored, Hserves).
  split; [|split; [|split; [reflexivity|]]].
  - rewrite (get_job_run _ _ job_id Hs Hint).
    unfold kept. now rewrite job_with_id_deleted.
  - intros other Hother Hne.
    rewrite (get_job_run _ _ other Hs Hother).
    rewrite (get_job_run _ _ other Hserves Hother).
    unfold kept. now rewrite (job_with_id_after_delete rows job_id other Hne).
  - intros job Hjob Hroom.
    assert (Hlargest : largest_rowid w' kept
                       = api.sqlite_sequence (api.disk w)).
    { unfold largest_rowid, w'. cbn [stored_world api.disk api.file
                                       api.sqlite_sequence].
      pose proof (max_rowid_filter
                    (fun r => negb (api.Row.id r =? job_id)%Z) rows).
      unfold counted in Hcounted. fold kept in H. lia. }
    pose proof (create_job_run w' kept job Hs Hjob) as Hcreate.
    rewrite Hlargest in Hcreate. specialize (Hcreate Hroom).
    cbv zeta in Hcreate. eexists. eexists. split; [exact Hcreate|].
    split; [reflexivity|]. cbn [created_row api.Row.id].
    apply job_with_id_some in Hfind. destruct Hfind as [Hin Hid].
    apply max_rowid_bound in Hin. unfold counted in Hcounted. lia.
Qed.

Lemma deleted_job_is_gone_witness :
  exists w' r' w'',
    api.request (api.delete_job 1) sample_world = (api.Ok PyNone, w') /\
    api.request (api.get_job 1) w' = (api.Raise not_found, w') /\
    api.request (api.create_job sample_create) w'
      = (api.Ok (api.dict_of_row r'), w'') /\
    api.Row.id r' = 2%Z.
Proof.
  destruct (deleted_job_is_gone sample_world [sample_row] 1 sample_row)
    as (w' & Hdelete & Hget & _ & _ & Hnext).
  - split; reflexivity.
  - reflexivity.
  - reflexivity.
  - unfold counted. simpl. lia.
  - destruct (Hnext sample_create) as (r' & w'' & Hcreate & Hid & _).
    + repeat split; reflexivity.
    + reflexivity.
    + exists w', r', w''. repeat split; assumption.
Defined.

Lemma sql_of_optional_str (v : option string) :
  sql_of (api.optional api.PStr v) = stored api.Text v.
Proof. now destruct v. Qed.

Lemma sql_of_optional_int (v : option Z) :
  sql_of (api.optional api.PInt v) = stored api.Integer v.
Proof. now destruct v. Qed.

Lemma sql_of_optional_date (v : option api.date) :
  sql_of (api.optional api.PDate v) = stored date_text v.
Proof. now destruct v. Qed.

Ltac each_setting u :=
  destruct u as [c p l j lo hi s d n];
  destruct c as [|c], p as [|p], l as [|l], j as [|j], lo as [|lo],
    hi as [|hi], s as [|s], d as [|d], n as [|n].

(** The SET clause of [update_job] and the values bound to it rewrite a row
    field by field. *)
Lemma assign_model_dump (u : api.JobUpdate.t) (timestamp : string)
  (x : api.Row.t) (job_id : Z) :
  api.assign "updated_at" (api.Text timestamp)
    (api.assign_all (map fst (api.model_dump_exclude_unset u))
       (map sql_of (map snd (api.model_dump_exclude_unset u)
                    ++ [api.PInt job_id]))%list x)
  = updated_row u timestamp x.
Proof.
  each_setting u;
    cbn -[api.isoformat];
    rewrite ?sql_of_optional_str, ?sql_of_optional_int, ?sql_of_optional_date;
    reflexivity.
Qed.

Lemma model_dump_columns (u : api.JobUpdate.t) :
  forallb (fun column => existsb (String.eqb column) api.updatable)
    (map fst (api.model_dump_exclude_unset u)) = true.
Proof. each_setting u; reflexivity. Qed.

(** The text [update_job] builds has one [?] for each value it passes. *)
Lemma update_query_placeholders (u : api.JobUpdate.t) (job_id : Z) :
  api.placeholders
    (api.update_query
       (map (fun kv => fst kv ++ " = ?") (api.model_dump_exclude_unset u)))
  = List.length (map snd (api.model_dump_exclude_unset u)
                 ++ [api.PInt job_id])%list.
Proof. each_setting u; reflexivity. Qed.

Lemma model_dump_binds (u : api.JobUpdate.t) (job_id : Z) :
  acceptable u ->
  api.int64 job_id = true ->
  Forall binds (map snd (api.model_dump_exclude_unset u)
                ++ [api.PInt job_id])%list.
Proof.
  intros (Hc & Hp & Hl & Hj & Hlo & Hhi & Hs & Hn) Hid.
  revert Hc Hp Hl Hj Hlo Hhi Hs Hn.
  each_setting u; cbn; intros;
    repeat constructor;
    auto using binds_optional_int, binds_optional_str;
    match goal with |- binds (api.optional api.PDate ?v) => destruct v; exact I end.
Qed.

Lemma null_assigned_model_dump (u : api.JobUpdate.t) (timestamp : string)
  (x : api.Row.t) :
  api.null_assigned (map fst (api.model_dump_exclude_unset u))
    (updated_row u timestamp x) = update_violation u.
Proof.
  each_setting u; cbn;
    repeat match goal with
           | v : option string |- _ => destruct v
           end; reflexivity.
Qed.

Lemma job_with_id_map (f : api.Row.t -> api.Row.t) (rows : list api.Row.t)
  (j : Z) :
  (forall x, api.Row.id (f x) = api.Row.id x) ->
  job_with_id j (map f rows) = option_map f (job_with_id j rows).
Proof.
  intros Hf. induction rows as [|x rows IH]; simpl; [reflexivity|].
  rewrite Hf. destruct (api.Row.id x =? j)%Z; [reflexivity | exact IH].
Qed.

Lemma last_bound (ps : list api.param) (job_id : Z) :
  last (map sql_of (ps ++ [api.PInt job_id])%list) api.Null
  = api.Integer job_id.
Proof. rewrite map_app. simpl. apply last_last. Qed.

Lemma model_dump_no_update (u : api.JobUpdate.t) :
  api.model_dump_exclude_unset u = [] -> u = no_update.
Proof. each_setting u; cbn; intros H; try discriminate H; reflexivity. Qed.

Lemma first_violation_updated (u : api.JobUpdate.t) (timestamp : string)
  (rows : list api.Row.t) :
  rows <> [] ->
  api.first_violation (map fst (api.model_dump_exclude_unset u))
    (map (updated_row u timestamp) rows) = update_violation u.
Proof.
  intros Hne. induction rows as [|x rows IH]; [now destruct Hne|].
  simpl. rewrite null_assigned_model_dump.
  destruct (update_violation u) eqn:E; [reflexivity|].
  destruct rows; [reflexivity|]. apply IH. discriminate.
Qed.

Lemma matching_rows_found (rows : list api.Row.t) (j : Z) (r : api.Row.t) :
  job_with_id j rows = Some r ->
  filter (fun x => (api.Row.id x =? j)%Z) rows <> [].
Proof.
  intros H. apply find_some in H. destruct H as [Hin Hid].
  intros E. assert (Hf : In r (filter (fun x => (api.Row.id x =? j)%Z) rows))
    by (apply filter_In; auto).
  now rewrite E in Hf.
Qed.

Lemma map_rewrite_filter (f : api.Row.t -> api.Row.t) (j : Z)
  (rows : list api.Row.t) :
  map (fun r => if (api.Row.id r =? j)%Z then f r else r)
    (filter (fun r => (api.Row.id r =? j)%Z) rows)
  = map f (filter (fun r => (api.Row.id r =? j)%Z) rows).
Proof.
  induction rows as [|x rows IH]; simpl; [reflexivity|].
  destruct (api.Row.id x =? j)%Z eqn:E; simpl; [|exact IH].
  now rewrite E, IH.
Qed.

Lemma match_nonempty {A B C : Type} (f : A -> B) (l : list A) (a b : C) :
  l <> [] ->
  match map f l with
  | [] => a
  | _ :: _ => b
  end = b.
Proof. destruct l; [now intros H | reflexivity]. Qed.

(** What [update_job] does, for a job that is there and a request that
    gives a field at least. *)
Lemma update_job_on (c : api.connection) (rows : list api.Row.t) (job_id : Z)
  (u : api.JobUpdate.t) (r : api.Row.t) :
  usable c rows -> api.int64 job_id = true ->
  job_with_id job_id rows = Some r ->
  api.model_dump_exclude_unset u <> [] ->
  acceptable u ->
  let timestamp := api.CURRENT_TIMESTAMP (api.reading c) in
  api.update_job job_id u c
  = match update_violation u with
    | Some message => (api.Raise (api.IntegrityError message), api.tick c)
    | None =>
        (api.Ok (api.dict_of_row (updated_row u timestamp r)),
         committed c
           (map (fun x => if (api.Row.id x =? job_id)%Z
                          then updated_row u timestamp x else x) rows)
           (api.sqlite_sequence (api.work c)) (S (api.ticks c)))
    end.
Proof.
  intros Hc Hint Hfind Hsome Hu timestamp.
  pose proof Hc as [Hthread Hrows].
  unfold api.update_job, api.bind_run. rewrite (cursor_run c Hthread).
  rewrite (select_job_by_id_run c rows job_id Hc Hint), Hfind.
  rewrite (match_nonempty _ _ _ _ Hsome).
  unfold api.execute_update. rewrite (on_jobs_run _ c rows Hthread Hrows).
  rewrite model_dump_columns. cbn [negb].
  rewrite (update_query_placeholders u job_id), Nat.eqb_refl. cbn [negb].
  rewrite (bind_all_binds _ (model_dump_binds u job_id Hu Hint)).
  rewrite last_bound. fold timestamp.
  assert (Hrewrite : forall x,
    (if (api.Row.id x =? job_id)%Z
     then api.assign "updated_at" (api.Text timestamp)
            (api.assign_all (map fst (api.model_dump_exclude_unset u))
               (map sql_of (map snd (api.model_dump_exclude_unset u)
                            ++ [api.PInt job_id])%list) x)
     else x)
    = (if (api.Row.id x =? job_id)%Z then updated_row u timestamp x else x)).
  { intros x. now rewrite assign_model_dump. }
  rewrite !(map_ext _ _ Hrewrite).
  rewrite map_rewrite_filter,
    (first_violation_updated u timestamp _ (matching_rows_found _ _ _ Hfind)).
  destruct (update_violation u) as [message|]; [reflexivity|].
  unfold api.commit.
  rewrite in_its_thread_run by (cbn [api.with_jobs api.tick api.caller
                                      api.owner]; exact Hthread).
  rewrite (select_job_by_id_run _
             (map (fun x => if (api.Row.id x =? job_id)%Z
                            then updated_row u timestamp x else x) rows)
             job_id)
    by (first [ split; [exact Hthread | reflexivity] | exact Hint ]).
  rewrite job_with_id_map by (intros x; destruct (api.Row.id x =? job_id)%Z;
                              reflexivity).
  rewrite Hfind. cbn [option_map].
  assert (Hid : (api.Row.id r =? job_id)%Z = true).
  { apply find_some in Hfind. apply Hfind. }
  rewrite Hid. reflexivity.
Qed.

Lemma leave_tick (w : api.world) (rows : list api.Row.t) :
  serves w rows -> api.leave (api.tick (opened w)) w = clock_read w.
Proof.
  intros Hs. unfold api.leave, clock_read.
  cbn [api.tick opened api.saved api.ticks].
  rewrite <- (serves_file w rows Hs).
  now destruct (api.private (api.db_path w)).
Qed.

(** What a request to update a job does, for a job that is there and a
    request that gives a field at least. *)
Lemma update_job_run (w : api.world) (rows : list api.Row.t) (job_id : Z)
  (u : api.JobUpdate.t) (r : api.Row.t) :
  serves w rows -> api.int64 job_id = true ->
  job_with_id job_id rows = Some r ->
  api.model_dump_exclude_unset u <> [] ->
  acceptable u ->
  let timestamp := api.CURRENT_TIMESTAMP (api.now w (api.readings w)) in
  api.request (api.update_job job_id u) w
  = match update_violation u with
    | Some message => (api.Raise (api.IntegrityError message), clock_read w)
    | None =>
        (api.Ok (api.dict_of_row (updated_row u timestamp r)),
         stored_world w
           (map (fun x => if (api.Row.id x =? job_id)%Z
                          then updated_row u timestamp x else x) rows)
           (api.sqlite_sequence (api.disk w)) (S (api.readings w)))
    end.
Proof.
  intros Hs Hint Hfind Hsome Hu timestamp.
  pose proof (update_job_on (opened w) rows job_id u r (usable_opened w rows Hs)
                Hint Hfind Hsome Hu) as Hrun.
  cbv zeta in Hrun.
  destruct (update_violation u).
  - rewrite (request_serves _ w rows _ _ Hs Hrun eq_refl).
    now rewrite (leave_tick w rows Hs).
  - rewrite (request_serves _ w rows _ _ Hs Hrun eq_refl).
    now rewrite leave_committed by apply Hs.
Qed.

Lemma job_with_id_other_rewritten (f : api.Row.t -> api.Row.t)
  (rows : list api.Row.t) (j other : Z) :
  (forall x, api.Row.id (f x) = api.Row.id x) ->
  other <> j ->
  job_with_id other
    (map (fun x => if (api.Row.id x =? j)%Z then f x else x) rows)
  = job_with_id other rows.
Proof.
  intros Hf Hne. rewrite job_with_id_map
    by (intros x; destruct (api.Row.id x =? j)%Z; auto).
  destruct (job_with_id other rows) as [y|] eqn:Hy; [|reflexivity].
  apply find_some in Hy. destruct Hy as [_ Hy]. apply Z.eqb_eq in Hy.
  simpl. destruct (Z.eqb_spec (api.Row.id y) j); [congruence | reflexivity].
Qed.


(** X11.  An update changes the fields the request gives and the time of
    the update, on that job only.  For a job that is there and a request
    that gives one field at least, texts without surrogates, salaries of 64
    bits and no null for the company or the position, [update_job] answers
    with the row in which each given field has the given value (null when
    null was given), each other field, the id, the date added and the time
    of creation have the old one, and [updated_at] is the
    CURRENT_TIMESTAMP of the request; [get_job] then gives that answer, and
    every other id the answer it gave before. *)
Theorem update_changes_given_fields (w : api.world) (rows : list api.Row.t)
  (job_id : Z) (u : api.JobUpdate.t) (r : api.Row.t) :
  serves w rows -> api.int64 job_id = true ->
  job_with_id job_id rows = Some r ->
  api.model_dump_exclude_unset u <> [] ->
  acceptable u ->
  given_null (api.JobUpdate.company u) = false ->
  given_null (api.JobUpdate.position u) = false ->
  exists r' w',
    api.request (api.update_job job_id u) w
      = (api.Ok (api.dict_of_row r'), w') /\
    api.Row.id r' = api.Row.id r /\
    api.Row.company r'
      = new_value api.Text (api.JobUpdate.company u) (api.Row.company r) /\
    api.Row.position r'
      = new_value api.Text (api.JobUpdate.position u) (api.Row.position r) /\
    api.Row.location r'
      = new_value api.Text (api.JobUpdate.location u) (api.Row.location r) /\
    api.Row.job_url r'
      = new_value api.Text (api.JobUpdate.job_url u) (api.Row.job_url r) /\
    api.Row.salary_min r'
      = new_value api.Integer (api.JobUpdate.salary_min u)
          (api.Row.salary_min r) /\
    api.Row.salary_max r'
      = new_value api.Integer (api.JobUpdate.salary_max u)
          (api.Row.salary_max r) /\
    api.Row.status r'
      = new_value api.Text (api.JobUpdate.status u) (api.Row.status r) /\
    api.Row.date_applied r'
      = new_value (fun d => api.Text (api.isoformat d))
          (api.JobUpdate.date_applied u) (api.Row.date_applied r) /\
    api.Row.notes r'
      = new_value api.Text (api.JobUpdate.notes u) (api.Row.notes r) /\
    api.Row.date_added r' = api.Row.date_added r /\
    api.Row.created_at r' = api.Row.created_at r /\
    api.Row.updated_at r'
      = api.Text (api.CURRENT_TIMESTAMP (api.now w (api.readings w))) /\
    api.request (api.get_job job_id) w' = (api.Ok (api.dict_of_row r'), w') /\
    (forall other, api.int64 other = true -> other <> job_id ->
       fst (api.request (api.get_job other) w')
       = fst (api.request (api.get_job other) w)).
Proof.
  intros Hserves Hint Hfind Hsome Hu Hc Hp.
  pose proof (update_job_run w rows job_id u r Hserves Hint Hfind Hsome Hu)
    as Hrun. cbv zeta in Hrun.
  unfold update_violation in Hrun. rewrite Hc, Hp in Hrun.
  set (timestamp := api.CURRENT_TIMESTAMP (api.now w (api.readings w))) in *.
  set (rows' := map (fun x => if (api.Row.id x =? job_id)%Z
                              then updated_row u timestamp x else x) rows) in *.
  assert (Hs : serves (stored_world w rows' (api.sqlite_sequence (api.disk w))
                         (S (api.readings w))) rows')
    by (apply serves_stored, Hserves).
  exists (updated_row u timestamp r). eexists. split; [exact Hrun|].
  repeat (split; [reflexivity|]). split.
  - rewrite (get_job_run _ _ job_id Hs Hint). unfold rows'.
    rewrite job_with_id_map
      by (intros x; destruct (api.Row.id x =? job_id)%Z; reflexivity).
    rewrite Hfind. cbn [option_map].
    assert (Hid : (api.Row.id r =? job_id)%Z = true)
      by (apply find_some in Hfind; apply Hfind).
    now rewrite Hid.
  - intros other Hother Hne.
    rewrite (get_job_run _ _ other Hs Hother),
      (get_job_run _ _ other Hserves Hother).
    unfold rows'. now rewrite job_with_id_other_rewritten.
Qed.

Lemma update_changes_given_fields_witness :
  exists r' w',
    api.request (api.update_job 1 sample_update) sample_world
      = (api.Ok (api.dict_of_row r'), w') /\
    api.Row.company r' = api.Text "Google" /\
    api.Row.status r' = api.Text "applied" /\
    api.Row.notes r' = api.Null /\
    api.Row.updated_at r' = api.Text "2024-03-01 12:00:00".
Proof.
  destruct (update_changes_given_fields sample_world [sample_row] 1
              sample_update sample_row)
    as (r' & w' & Hrun & _ & Hcompany & _ & _ & _ & _ & _ & Hstatus & _
        & Hnotes & _ & _ & Hupdated & _).
  - split; reflexivity.
  - reflexivity.
  - reflexivity.
  - discriminate.
  - repeat split; reflexivity.
  - reflexivity.
  - reflexivity.
  - exists r', w'. repeat split; assumption.
Defined.

(** X12.  An update that gives null for the company or the position of a
    job that is there is refused by the NOT NULL constraint, not by the
    code: when the other values of the request can be bound (texts without
    surrogates, salaries of 64 bits), the request raises IntegrityError,
    for the company when both are null, and the database stays as it
    was. *)
Theorem null_update_is_refused (w : api.world) (rows : list api.Row.t)
  (job_id : Z) (u : api.JobUpdate.t) (r : api.Row.t) :
  serves w rows -> api.int64 job_id = true ->
  job_with_id job_id rows = Some r ->
  acceptable u ->
  given_null (api.JobUpdate.company u) = true
  \/ given_null (api.JobUpdate.position u) = true ->
  fst (api.request (api.update_job job_id u) w)
  = api.Raise (api.IntegrityError
      (if given_null (api.JobUpdate.company u)
       then "NOT NULL constraint failed: jobs.company"
       else "NOT NULL constraint failed: jobs.position")) /\
  api.disk (snd (api.request (api.update_job job_id u) w)) = api.disk w.
Proof.
  intros Hserves Hint Hfind Hu Hnull.
  assert (Hsome : api.model_dump_exclude_unset u <> []).
  { intros E. apply model_dump_no_update in E. subst u.
    destruct Hnull; discriminate. }
  rewrite (update_job_run w rows job_id u r Hserves Hint Hfind Hsome Hu).
  unfold update_violation.
  destruct (given_null (api.JobUpdate.company u)); [split; reflexivity|].
  destruct Hnull as [H|H]; [discriminate|]. rewrite H. split; reflexivity.
Qed.

Lemma null_update_is_refused_witness :
  fst (api.request (api.update_job 1 null_company_update) sample_world)
  = api.Raise (api.IntegrityError "NOT NULL constraint failed: jobs.company").
Proof.
  refine (proj1 (null_update_is_refused sample_world [sample_row] 1
                   null_company_update sample_row _ _ _ _ _)).
  - split; reflexivity.
  - reflexivity.
  - reflexivity.
  - repeat split; reflexivity.
  - left. reflexivity.
Defined.

(** X13.  An update that gives no field is a read: for a job that is there,
    [update_job] sends no UPDATE, answers with the row as it is, time of
    the last update included, and leaves the world as it was. *)
Theorem empty_update_changes_nothing (w : api.world) (rows : list api.Row.t)
  (job_id : Z) (r : api.Row.t) :
  serves w rows -> api.int64 job_id = true ->
  job_with_id job_id rows = Some r ->
  api.request (api.update_job job_id no_update) w
  = (api.Ok (api.dict_of_row r), w).
Proof.
  intros Hs Hint Hfind.
  pose proof (usable_opened w rows Hs) as Hc.
  assert (Hrun : api.update_job job_id no_update (opened w)
                 = (api.Ok (api.dict_of_row r), opened w)).
  { unfold api.update_job, api.bind_run.
    rewrite (cursor_run _ (proj1 Hc)).
    rewrite (select_job_by_id_run _ rows job_id Hc Hint), Hfind.
    cbn [api.model_dump_exclude_unset no_update api.item app map
         api.JobUpdate.company api.JobUpdate.position api.JobUpdate.location
         api.JobUpdate.job_url api.JobUpdate.salary_min
         api.JobUpdate.salary_max api.JobUpdate.status
         api.JobUpdate.date_applied api.JobUpdate.notes].
    unfold api.ret at 1.
    rewrite (select_job_by_id_run _ rows job_id Hc Hint), Hfind.
    reflexivity. }
  rewrite (request_serves _ w rows _ _ Hs Hrun eq_refl).
  now rewrite (leave_opened w rows Hs).
Qed.

Lemma empty_update_changes_nothing_witness :
  api.request (api.update_job 1 no_update) sample_world
  = (api.Ok (api.dict_of_row sample_row), sample_world).
Proof.
  apply (empty_update_changes_nothing sample_world [sample_row] 1 sample_row).
  - split; reflexivity.
  - reflexivity.
  - reflexivity.
Defined.

(** X14.  For an id that no job has, the three endpoints that take an id
    answer 404 with [Job not found] and leave the world as it was; the
    DELETE that [delete_job] has sent by then is not committed. *)
Theorem missing_job_is_not_found (w : api.world) (rows : list api.Row.t)
  (job_id : Z) (u : api.JobUpdate.t) :
  serves w rows -> api.int64 job_id = true ->
  job_with_id job_id rows = None ->
  api.request (api.get_job job_id) w
    = (api.Raise (api.HTTPException 404 "Job not found"), w) /\
  api.request (api.update_job job_id u) w
    = (api.Raise (api.HTTPException 404 "Job not found"), w) /\
  api.request (api.delete_job job_id) w
    = (api.Raise (api.HTTPException 404 "Job not found"), w).
Proof.
  intros Hserves Hint Hfind. split; [|split].
  - rewrite (get_job_run w rows job_id Hserves Hint). now rewrite Hfind.
  - pose proof (usable_opened w rows Hserves) as Hc.
    assert (Hrun : api.update_job job_id u (opened w)
                   = (api.Raise not_found, opened w)).
    { unfold api.update_job, api.bind_run.
      rewrite (cursor_run _ (proj1 Hc)).
      now rewrite (select_job_by_id_run _ rows job_id Hc Hint), Hfind. }
    rewrite (request_serves _ w rows _ _ Hserves Hrun eq_refl).
    now rewrite (leave_opened w rows Hserves).
  - rewrite (delete_job_run w rows job_id Hserves Hint). now rewrite Hfind.
Qed.

Lemma missing_job_is_not_found_witness :
  api.request (api.delete_job 2) sample_world
  = (api.Raise (api.HTTPException 404 "Job not found"), sample_world).
Proof.
  refine (proj2 (proj2 (missing_job_is_not_found sample_world [sample_row] 2
                          no_update _ _ _))).
  - split; reflexivity.
  - reflexivity.
  - reflexivity.
Defined.

Lemma assign_all_id (columns : list string) (values : list api.sql)
  (r : api.Row.t) :
  api.Row.id (api.assign_all columns values r) = api.Row.id r.
Proof.
  revert values r. induction columns as [|column columns IH];
    intros [|v values] r; simpl; try reflexivity.
  now rewrite IH.
Qed.

(** Binding fails for an int that is too large or a text with a surrogate,
    and for nothing else. *)
Lemma bind_all_raises (ps : list api.param) (e : api.error) :
  api.bind_all ps = api.Raise e ->
  e = api.OverflowError \/ e = api.UnicodeEncodeError.
Proof.
  induction ps as [|p ps IH]; simpl; [discriminate|].
  destruct (api.bind p) as [v|e'] eqn:Ep.
  - destruct (api.bind_all ps); [discriminate|]. intros [= <-]. now apply IH.
  - intros [= <-]. destruct p; simpl in Ep; try discriminate.
    + destruct (api.int64 z); [discriminate|]. injection Ep as <-. now left.
    + destruct (api.has_surrogate s); [|discriminate].
      injection Ep as <-. now right.
Qed.

(** X15.  The statement that [update_job] puts together is always one that
    SQLite accepts for the values passed with it: whatever the request and
    the connection, the endpoint does not raise ProgrammingError for the
    number of its parameters (as many [?] as values), does not name a
    column that is not there, and does not end on [dict(None)].  The one
    ProgrammingError it can raise is that of a connection used in another
    thread than its own. *)
Theorem update_statement_is_well_formed (job_id : Z) (u : api.JobUpdate.t)
  (c : api.connection) :
  (forall uses supplied,
     fst (api.update_job job_id u c)
     <> api.Raise (api.ProgrammingError (api.Bindings uses supplied))) /\
  fst (api.update_job job_id u c)
    <> api.Raise (api.OperationalError "no such column") /\
  fst (api.update_job job_id u c) <> api.Raise api.TypeError /\
  (forall why,
     fst (api.update_job job_id u c) = api.Raise (api.ProgrammingError why) ->
     api.caller c <> api.owner c /\
     why = api.OtherThread (api.owner c) (api.caller c)).
Proof.
  assert (H : match fst (api.update_job job_id u c) with
              | api.Raise (api.ProgrammingError (api.Bindings _ _)) => False
              | api.Raise (api.ProgrammingError (api.OtherThread o t)) =>
                  api.caller c <> api.owner c /\
                  o = api.owner c /\ t = api.caller c
              | api.Raise (api.OperationalError m) => m = "no such table: jobs"
              | api.Raise api.TypeError => False
              | _ => True
              end).
  { unfold api.update_job, api.bind_run.
    destruct (Z.eqb_spec (api.caller c) (api.owner c)) as [Hthread|Hthread].
    2: { unfold api.cursor. rewrite in_its_thread_refused by exact Hthread.
         cbn [fst]. auto. }
    rewrite (cursor_run c Hthread). unfold api.select_job_by_id at 1.
    unfold api.on_jobs at 1. rewrite (in_its_thread_run _ c Hthread).
    destruct (api.jobs (api.work c)) as [rows|] eqn:Hrows; [|reflexivity].
    cbn [api.bind].
    destruct (api.int64 job_id) eqn:Hint; [|exact I].
    fold (job_with_id job_id rows).
    destruct (job_with_id job_id rows) as [r|] eqn:Hfind; [|exact I].
    destruct (api.model_dump_exclude_unset u) as [|item items] eqn:Hitems.
    - cbn [map]. unfold api.ret at 1.
      rewrite (select_job_by_id_run c rows job_id (conj Hthread Hrows) Hint).
      now rewrite Hfind.
    - rewrite <- Hitems.
      assert (Hsome : api.model_dump_exclude_unset u <> [])
        by (rewrite Hitems; discriminate).
      rewrite (match_nonempty _ _ _ _ Hsome).
      unfold api.execute_update. rewrite (on_jobs_run _ c rows Hthread Hrows).
      rewrite model_dump_columns. cbn [negb].
      rewrite (update_query_placeholders u job_id), Nat.eqb_refl. cbn [negb].
      destruct (api.bind_all _) as [bound|e] eqn:Hbound.
      2: { cbn [fst]. now destruct (bind_all_raises _ _ Hbound) as [-> | ->]. }
      destruct (api.first_violation _ _); [exact I|].
      unfold api.commit.
      rewrite in_its_thread_run by (cbn [api.with_jobs api.tick api.caller
                                          api.owner]; exact Hthread).
      match goal with
      | |- context [api.with_jobs (map ?g rows) ?seq ?c'] =>
          rewrite (select_job_by_id_run _ (map g rows) job_id)
            by (first [ split; [exact Hthread | reflexivity] | exact Hint ]);
          assert (Hkeep : forall x, api.Row.id (g x) = api.Row.id x)
      end.
      { intros x. destruct (last bound api.Null); try reflexivity.
        destruct (api.Row.id x =? z)%Z; [|reflexivity].
        cbn [api.assign api.Row.id]. apply assign_all_id. }
      rewrite (job_with_id_map _ rows job_id Hkeep), Hfind. exact I. }
  destruct (fst (api.update_job job_id u c)) as [v|e];
    [repeat split; try discriminate; intros; discriminate|].
  destruct e as [| | |why| | | | |]; try destruct why as [o t|uses supplied];
    try contradiction;
    (split; [intros; discriminate|]); (split; [|split]);
    try discriminate; try (intros; discriminate).
  - intros [= E]. rewrite H in E. discriminate.
  - intros why [= <-]. destruct H as (Hthread & -> & ->). now split.
Qed.

(** An update sent on a connection of thread 0 from thread 2, and the same
    update in the thread of the connection. *)
Lemma update_statement_is_well_formed_witness :
  let c := api.handed_to 2%Z (opened sample_world) in
  fst (api.update_job 1 sample_update c)
  = api.Raise (api.ProgrammingError (api.OtherThread 0%Z 2%Z)) /\
  api.caller c <> api.owner c /\
  (forall why,
     fst (api.update_job 1 sample_update (opened sample_world))
     <> api.Raise (api.ProgrammingError why)).
Proof.
  cbv zeta.
  pose proof (update_statement_is_well_formed 1 sample_update
                (api.handed_to 2%Z (opened sample_world)))
    as (_ & _ & _ & Hthread).
  pose proof (update_statement_is_well_formed 1 sample_update
                (opened sample_world)) as (_ & _ & _ & Hown).
  split; [reflexivity|]. split; [exact (proj1 (Hthread _ eq_refl))|].
  intros why Hwhy. now destruct (Hown why Hwhy) as [Hother _].
Defined.

(** ** Listing *)

Lemma sql_compare_antisym (a b : api.sql) :
  api.sql_compare a b = CompOpp (api.sql_compare b a).
Proof.
  destruct a, b; simpl; try reflexivity.
  - apply Z.compare_antisym.
  - apply String.compare_antisym.
Qed.

Lemma ascii_compare_refl (a : ascii) : Ascii.compare a a = Eq.
Proof. unfold Ascii.compare. apply N.compare_refl. Qed.

(** The order of bytes on strings is transitive. *)
Lemma string_compare_trans (a : string) : forall (b c : string),
  String.compare a b <> Lt -> String.compare b c <> Lt ->
  String.compare a c <> Lt.
Proof.
  induction a as [|x a IH]; intros [|y b] [|z c]; simpl;
    try congruence.
  destruct (Ascii.compare x y) eqn:Exy; try congruence;
    destruct (Ascii.compare y z) eqn:Eyz; try congruence.
  - apply Ascii.compare_eq_iff in Exy, Eyz. subst.
    rewrite ascii_compare_refl. apply IH.
  - apply Ascii.compare_eq_iff in Exy. subst. now rewrite Eyz.
  - apply Ascii.compare_eq_iff in Eyz. subst. now rewrite Exy.
  - intros _ _. unfold Ascii.compare in *.
    rewrite N.compare_gt_iff in Exy, Eyz.
    assert (H : (N_of_ascii z < N_of_ascii x)%N) by lia.
    apply N.compare_gt_iff in H. rewrite H. discriminate.
Qed.

(** The comparison of the statements is the order of SQLite. *)
Lemma string_compare_below (x : string) : forall y : string,
  String.compare x y = Lt <-> bytes_below x y.
Proof.
  induction x as [|c x IH]; intros [|d y]; simpl.
  - split; [discriminate | intros H; inversion H].
  - split; [constructor | reflexivity].
  - split; [discriminate | intros H; inversion H].
  - unfold Ascii.compare.
    destruct (N.compare_spec (N_of_ascii c) (N_of_ascii d)) as [E|E|E].
    + assert (c = d) as ->
        by now rewrite <- (ascii_N_embedding c), <- (ascii_N_embedding d), E.
      rewrite IH. split; intros H.
      * now apply rest_below.
      * inversion H; subst; [lia | assumption].
    + split; [intros _; now apply byte_below | reflexivity].
    + split; [discriminate|]. intros H. inversion H; subst; lia.
Qed.

Lemma sql_compare_before (a b : api.sql) :
  api.sql_compare a b = Lt <-> sorts_before a b.
Proof.
  destruct a as [|x|x], b as [|y|y]; simpl;
    try (split; [discriminate | intros H; inversion H]);
    try (split; [constructor | reflexivity]).
  - rewrite Z.compare_lt_iff. split; intros H.
    + now constructor.
    + now inversion H.
  - rewrite string_compare_below. split; intros H.
    + now constructor.
    + now inversion H.
Qed.

Lemma newer_first_compare (a b : api.Row.t) :
  newer_first a b <->
  api.sql_compare (api.Row.date_added a) (api.Row.date_added b) <> Lt.
Proof. unfold newer_first. now rewrite sql_compare_before. Qed.

Lemma newer_first_trans (a b c : api.Row.t) :
  newer_first a b -> newer_first b c -> newer_first a c.
Proof.
  rewrite !newer_first_compare.
  destruct (api.Row.date_added a) as [|x|x], (api.Row.date_added b) as [|y|y],
    (api.Row.date_added c) as [|z|z]; simpl; try congruence.
  - rewrite !Z.compare_lt_iff. lia.
  - apply string_compare_trans.
Qed.

Lemma insert_desc_permutation (r : api.Row.t) (l : list api.Row.t) :
  Permutation (api.insert_desc r l) (r :: l).
Proof.
  induction l as [|x l IH]; simpl; [reflexivity|].
  destruct (api.sql_compare (api.Row.date_added x) (api.Row.date_added r));
    try reflexivity.
  rewrite IH. apply perm_swap.
Qed.

Lemma order_permutation (l : list api.Row.t) :
  Permutation (api.order_by_date_added_desc l) l.
Proof.
  induction l as [|x l IH]; simpl; [reflexivity|].
  rewrite insert_desc_permutation. now constructor.
Qed.

Lemma insert_desc_head (x r : api.Row.t) (l : list api.Row.t) :
  HdRel newer_first x l -> newer_first x r ->
  HdRel newer_first x (api.insert_desc r l).
Proof.
  intros Hl Hr. destruct l as [|y l]; simpl; [now constructor|].
  destruct (api.sql_compare (api.Row.date_added y) (api.Row.date_added r));
    constructor; auto; now inversion Hl.
Qed.

Lemma insert_desc_sorted (r : api.Row.t) (l : list api.Row.t) :
  Sorted newer_first l -> Sorted newer_first (api.insert_desc r l).
Proof.
  induction l as [|x l IH]; simpl; intros Hs; [repeat constructor|].
  inversion Hs as [|? ? Hl Hx]; subst.
  destruct (api.sql_compare (api.Row.date_added x) (api.Row.date_added r))
    eqn:E.
  - constructor; [exact Hs|]. constructor. apply newer_first_compare.
    rewrite sql_compare_antisym, E. discriminate.
  - constructor; [exact Hs|]. constructor. apply newer_first_compare.
    rewrite sql_compare_antisym, E. discriminate.
  - constructor; [now apply IH|]. apply insert_desc_head; [exact Hx|].
    apply newer_first_compare. rewrite E. discriminate.
Qed.

Lemma order_sorted (l : list api.Row.t) :
  StronglySorted newer_first (api.order_by_date_added_desc l).
Proof.
  apply Sorted_StronglySorted; [exact newer_first_trans|].
  induction l as [|x l IH]; simpl; [constructor|].
  now apply insert_desc_sorted.
Qed.

Lemma filter_all {A : Type} (l : list A) : filter (fun _ => true) l = l.
Proof. induction l as [|x l IH]; simpl; [reflexivity | now rewrite IH]. Qed.

Lemma wanted_meets (status : option string) (r : api.Row.t) :
  wanted status r = true <-> meets status r.
Proof.
  unfold wanted, meets. destruct (asked status) as [s|]; [|tauto].
  destruct (api.Row.status r) as [|z|text]; try (split; congruence).
  rewrite String.eqb_eq. split; congruence.
Qed.

(** What [get_jobs] does. *)
Lemma get_jobs_on (c : api.connection) (rows : list api.Row.t)
  (status : option string) :
  usable c rows -> encodable_option (asked status) ->
  api.get_jobs status c
  = (api.Ok (map api.dict_of_row
               (api.order_by_date_added_desc (filter (wanted status) rows))),
     c).
Proof.
  intros [Hthread Hrows] Hstatus.
  unfold api.get_jobs, api.bind_run. rewrite (cursor_run c Hthread).
  unfold wanted, asked in *.
  destruct status as [s|]; [destruct (String.eqb s ""); cbn [negb]|];
    unfold api.select_jobs, api.select_jobs_by_status;
    rewrite (on_jobs_run _ c rows Hthread Hrows); rewrite ?filter_all;
    try reflexivity.
  cbn [api.bind]. simpl in Hstatus. unfold encodable in Hstatus.
  rewrite Hstatus. reflexivity.
Qed.

(** X16.  [get_jobs] lists the jobs that were asked for, newest first.
    The answer holds the jobs of the table whose status is the text that
    was given, each once and no other job, and none of them comes before a
    job that was added later; with no status, and also with the empty
    string as status, it holds every job.  The status is bound as a
    parameter, so it has to be a text without surrogates.  The world stays
    as it was. *)
Theorem listed_jobs_are_the_wanted_ones (w : api.world)
  (rows : list api.Row.t) (status : option string) :
  serves w rows ->
  encodable_option (asked status) ->
  exists listed,
    api.request (api.get_jobs status) w
      = (api.Ok (map api.dict_of_row listed), w) /\
    Permutation listed (filter (wanted status) rows) /\
    (forall r, In r listed <-> In r rows /\ meets status r) /\
    StronglySorted newer_first listed.
Proof.
  intros Hs Hstatus.
  exists (api.order_by_date_added_desc (filter (wanted status) rows)).
  split; [|split; [apply order_permutation|split; [|apply order_sorted]]].
  - rewrite (request_serves _ w rows _ _ Hs
               (get_jobs_on _ rows status (usable_opened w rows Hs) Hstatus)
               eq_refl).
    now rewrite (leave_opened w rows Hs).
  - intros r. rewrite <- wanted_meets, <- filter_In. split; intros H.
    + eapply Permutation_in; [apply order_permutation | exact H].
    + eapply Permutation_in;
        [apply Permutation_sym, order_permutation | exact H].
Qed.

(** Of four jobs, three are on the wish list; they are listed by date, the
    last one added first. *)
Lemma listed_jobs_are_the_wanted_ones_witness :
  (exists listed,
     api.request (api.get_jobs (Some "wishlist")) busy_world
       = (api.Ok (map api.dict_of_row listed), busy_world) /\
     Permutation listed
       [ sample_row; sample_row_of 3 "Apple" "wishlist" "2024-02-27";
         sample_row_of 4 "Tesla" "wishlist" "2024-02-10" ] /\
     (forall r, In r listed <->
                In r sample_rows /\ api.Row.status r = api.Text "wishlist") /\
     StronglySorted newer_first listed) /\
  fst (api.request (api.get_jobs (Some "wishlist")) busy_world)
  = api.Ok (map api.dict_of_row
              [ sample_row_of 3 "Apple" "wishlist" "2024-02-27"; sample_row;
                sample_row_of 4 "Tesla" "wishlist" "2024-02-10" ]).
Proof.
  split; [|vm_compute; reflexivity].
  apply (listed_jobs_are_the_wanted_ones busy_world sample_rows
           (Some "wishlist")).
  - split; reflexivity.
  - reflexivity.
Defined.

(** ** Reading, threads and files *)

(** The two GET endpoints commit nothing and do not read the clock,
    whatever the connection. *)
Lemma get_jobs_reads (status : option string) (c : api.connection) :
  api.saved (snd (api.get_jobs status c)) = api.saved c /\
  api.ticks (snd (api.get_jobs status c)) = api.ticks c /\
  api.owner (snd (api.get_jobs status c)) = api.owner c.
Proof.
  unfold api.get_jobs, api.bind_run, api.cursor, api.in_its_thread, api.ret.
  destruct (api.caller c =? api.owner c)%Z eqn:Hthread; [|now cbn].
  destruct status as [s|]; [destruct (negb (String.eqb s ""))|];
    unfold api.select_jobs, api.select_jobs_by_status, api.on_jobs,
      api.in_its_thread;
    rewrite Hthread; destruct (api.jobs (api.work c)); cbn [api.bind];
    try destruct (api.has_surrogate s); now cbn.
Qed.

Lemma get_job_reads (job_id : Z) (c : api.connection) :
  api.saved (snd (api.get_job job_id c)) = api.saved c /\
  api.ticks (snd (api.get_job job_id c)) = api.ticks c /\
  api.owner (snd (api.get_job job_id c)) = api.owner c.
Proof.
  unfold api.get_job, api.bind_run, api.cursor, api.in_its_thread, api.ret.
  destruct (api.caller c =? api.owner c)%Z eqn:Hthread; [|now cbn].
  unfold api.select_job_by_id, api.on_jobs, api.in_its_thread.
  rewrite Hthread. destruct (api.jobs (api.work c)); [|now cbn].
  cbn [api.bind]. destruct (api.int64 job_id); [|now cbn].
  destruct (find _ _); now cbn.
Qed.

(** A request whose endpoint commits nothing and does not read the clock
    leaves the world as connecting made it. *)
Lemma serve_reads {A : Type} (endpoint : api.Sql A)
  (opener runner closer : api.thread) (w : api.world) :
  (forall c, api.saved (snd (endpoint c)) = api.saved c /\
             api.ticks (snd (endpoint c)) = api.ticks c /\
             api.owner (snd (endpoint c)) = api.owner c) ->
  same_but_created w (snd (api.serve opener runner closer endpoint w)).
Proof.
  intros Hreads. unfold api.serve, api.connect, same_but_created.
  destruct (api.private (api.db_path w)) eqn:Hprivate.
  - match goal with
    | |- context [endpoint ?c] =>
        destruct (Hreads c) as (Hsaved & Hticks & _);
        destruct (endpoint c) as [response c']
    end.
    cbn [snd] in *. unfold api.close, api.leave.
    destruct (closer =? api.owner c')%Z; cbn; rewrite Hprivate, Hticks;
      cbn; auto 10.
  - destruct (api.file w) as [e|  |db] eqn:Hfile.
    + cbn. rewrite Hfile. auto 10.
    + match goal with
      | |- context [endpoint ?c] =>
          destruct (Hreads c) as (Hsaved & Hticks & _);
          destruct (endpoint c) as [response c']
      end.
      cbn [snd] in *. unfold api.close, api.leave.
      destruct (closer =? api.owner c')%Z; cbn; rewrite Hprivate, Hsaved,
        Hticks, ?Hfile; cbn; unfold api.disk; rewrite ?Hfile; cbn; auto 10.
    + match goal with
      | |- context [endpoint ?c] =>
          destruct (Hreads c) as (Hsaved & Hticks & _);
          destruct (endpoint c) as [response c']
      end.
      cbn [snd] in *. unfold api.close, api.leave.
      destruct (closer =? api.owner c')%Z; cbn; rewrite Hprivate, Hsaved,
        Hticks, ?Hfile; cbn; unfold api.disk; rewrite ?Hfile; cbn; auto 10.
Qed.

(** X17.  The two GET endpoints are reads.  Whatever the world, the threads
    and the answer, value or exception, the database, the clock and the
    output are after the request as they were before; if the path had no
    file, connecting has created an empty one, and that is all. *)
Theorem get_endpoints_change_nothing (w : api.world) (status : option string)
  (job_id : Z) (opener runner closer : api.thread) :
  same_but_created w
    (snd (api.serve opener runner closer (api.get_jobs status) w)) /\
  same_but_created w
    (snd (api.serve opener runner closer (api.get_job job_id) w)).
Proof.
  split; apply serve_reads; intros c;
    [apply get_jobs_reads | apply get_job_reads].
Qed.

(** The first request on a path without a file: the file is there after
    it, empty, and the request has failed for the missing table. *)
Example first_request_creates_the_file :
  api.request (api.get_job 1) fresh_world
  = (api.Raise no_such_table,
     {| api.db_path := "jobtrack.db"; api.file := api.Holds api.empty_db;
        api.now := sample_clock; api.readings := 0; api.stdout := [] |}).
Proof. reflexivity. Qed.

(** Every endpoint starts with [conn.cursor()]: in another thread than
    the connection's that is where it ends. *)
Lemma answer_refused (k : call) (c : api.connection) :
  api.caller c <> api.owner c ->
  answer k c
  = (api.Raise (api.ProgrammingError
                  (api.OtherThread (api.owner c) (api.caller c))), c).
Proof.
  intros H. destruct k; unfold answer, api.get_jobs, api.create_job,
    api.get_job, api.update_job, api.delete_job, api.bind_run, api.cursor;
    now rewrite in_its_thread_refused.
Qed.

(** Without the table, every endpoint ends with its first statement. *)
Lemma answer_without_table (k : call) (c : api.connection) :
  api.caller c = api.owner c -> api.jobs (api.work c) = None ->
  answer k c = (api.Raise no_such_table, c).
Proof.
  intros Hthread Hnone.
  assert (Hjobs : forall A
    (statement : list api.Row.t -> api.connection
                 -> api.result A * api.connection),
    api.on_jobs statement c = (api.Raise no_such_table, c)).
  { intros A statement. unfold api.on_jobs.
    rewrite in_its_thread_run by exact Hthread. now rewrite Hnone. }
  destruct k; unfold answer, api.get_jobs, api.create_job, api.get_job,
    api.update_job, api.delete_job, api.bind_run;
    rewrite (cursor_run c Hthread);
    unfold api.select_jobs, api.select_jobs_by_status, api.execute_insert,
      api.select_job_by_id, api.execute_delete;
    try (destruct status as [s|]; [destruct (negb (String.eqb s ""))|]);
    now rewrite Hjobs.
Qed.

Lemma initialize_schema_private (w : api.world) :
  api.private (api.db_path w) = true ->
  api.initialize_schema w
  = (api.Ok tt, api.print "Database schema initialized" w).
Proof.
  intros H. unfold api.initialize_schema, api.connect. rewrite H.
  unfold api.bind_run, api.cursor, api.create_tables, api.commit,
    api.in_its_thread, api.ret, api.close, api.leave.
  cbn. rewrite H. now rewrite world_eta.
Qed.

(** X18.  With the database in memory, as the path [:memory:] (or an empty
    path) asks, the schema never reaches a request: [initialize_schema]
    builds the tables in a database of its own that is dropped at close, and
    each request opens a new empty one.  Whatever the call and its
    arguments, and whatever the threads, the request raises and leaves the
    world as [initialize_schema] left it: sqlite3.OperationalError for the
    missing table when endpoint and close run in the thread that opened the
    connection, sqlite3.ProgrammingError otherwise. *)
Theorem private_database_has_no_schema (w : api.world) (k : call)
  (opener runner closer : api.thread) :
  api.private (api.db_path w) = true ->
  let started := snd (api.initialize_schema w) in
  fst (api.initialize_schema w) = api.Ok tt /\
  api.file started = api.file w /\
  api.request (answer k) started = (api.Raise no_such_table, started) /\
  api.serve opener runner closer (answer k) started
  = (api.Raise
       (if (closer =? opener)%Z then
          if (runner =? opener)%Z then no_such_table
          else api.ProgrammingError (api.OtherThread opener runner)
        else api.ProgrammingError (api.OtherThread opener closer)),
     started).
Proof.
  intros Hprivate. rewrite (initialize_schema_private w Hprivate).
  cbn [fst snd]. cbv zeta.
  set (started := api.print "Database schema initialized" w).
  assert (Hstarted : api.private (api.db_path started) = true) by exact Hprivate.
  assert (Hserve : forall o r c,
    api.serve o r c (answer k) started
    = (api.Raise
         (if (c =? o)%Z then
            if (r =? o)%Z then no_such_table
            else api.ProgrammingError (api.OtherThread o r)
          else api.ProgrammingError (api.OtherThread o c)),
       started)).
  { intros o r c. unfold api.serve, api.connect. rewrite Hstarted.
    destruct (Z.eqb_spec r o) as [->|Hr].
    - rewrite answer_without_table by reflexivity.
      unfold api.close, api.leave. cbn [api.owner api.handed_to api.saved
                                        api.ticks].
      rewrite Hstarted, world_eta. now destruct (c =? o)%Z.
    - rewrite answer_refused by exact Hr.
      unfold api.close, api.leave. cbn [api.owner api.caller api.handed_to
                                        api.saved api.ticks].
      rewrite Hstarted, world_eta. now destruct (c =? o)%Z. }
  split; [reflexivity|]. split; [reflexivity|].
  split; [exact (Hserve api.main api.main api.main) | apply Hserve].
Qed.

(** The world of the tests: a job posted as a function call, and with the
    endpoint in another thread than [get_db]. *)
Lemma private_database_has_no_schema_witness :
  let started := snd (api.initialize_schema memory_world) in
  api.request (api.create_job sample_create) started
  = (api.Raise no_such_table, started) /\
  fst (api.serve 1%Z 2%Z 1%Z (api.create_job sample_create) started)
  = api.Raise (api.ProgrammingError (api.OtherThread 1%Z 2%Z)).
Proof.
  cbv zeta.
  pose proof (private_database_has_no_schema memory_world
                (CreateJob sample_create) 1%Z 2%Z 1%Z eq_refl)
    as (_ & _ & Hrequest & Hserve).
  unfold answer in Hrequest, Hserve. split; [exact Hrequest|].
  now rewrite Hserve.
Defined.

(** X23.  A connection of sqlite3 belongs to the thread that opened it.
    When the endpoint runs in another thread than [get_db] did, every call
    of the five endpoints ends at its first line, [conn.cursor()], with
    sqlite3.ProgrammingError, and stores nothing; the [close] of [get_db]
    raises the same kind of exception when it runs in a third thread. *)
Theorem other_thread_use_is_refused (w : api.world) (k : call)
  (opener runner closer : api.thread) :
  opens w -> runner <> opener ->
  fst (api.serve opener runner closer (answer k) w)
  = api.Raise (api.ProgrammingError
                 (api.OtherThread opener
                    (if (closer =? opener)%Z then runner else closer))) /\
  same_but_created w (snd (api.serve opener runner closer (answer k) w)).
Proof.
  intros Hopens Hrunner. unfold api.serve, api.connect, same_but_created.
  destruct (api.private (api.db_path w)) eqn:Hprivate.
  - rewrite answer_refused by exact Hrunner.
    unfold api.close, api.leave. cbn. rewrite Hprivate.
    destruct (closer =? opener)%Z; cbn; auto 10.
  - destruct Hopens as [Hopens | Hopens]; [congruence|].
    destruct (api.file w) as [e| |db] eqn:Hfile; [now elim (Hopens e)| |];
      rewrite answer_refused by exact Hrunner;
      unfold api.close, api.leave; cbn; rewrite Hprivate;
      destruct (closer =? opener)%Z; cbn; unfold api.disk; rewrite ?Hfile;
      cbn; auto 10.
Qed.

(** A job posted from another thread than the one of [get_db]. *)
Lemma other_thread_use_is_refused_witness :
  fst (api.serve 1%Z 2%Z 1%Z (api.create_job sample_create) sample_world)
  = api.Raise (api.ProgrammingError (api.OtherThread 1%Z 2%Z)) /\
  same_but_created sample_world
    (snd (api.serve 1%Z 2%Z 1%Z (api.create_job sample_create) sample_world)).
Proof.
  assert (Hopens : opens sample_world) by (right; intros e; discriminate).
  assert (Hrunner : 2%Z <> 1%Z) by discriminate.
  exact (other_thread_use_is_refused sample_world (CreateJob sample_create)
           1%Z 2%Z 1%Z Hopens Hrunner).
Defined.

(** ** The schema *)

(** What [initialize_schema] does on a path that can be opened. *)
Lemma initialize_schema_file (w : api.world) :
  api.private (api.db_path w) = false ->
  (forall e, api.file w <> api.Refused e) ->
  api.initialize_schema w
  = (api.Ok tt,
     {| api.db_path := api.db_path w;
        api.file :=
          api.Holds {| api.jobs := match api.jobs (api.disk w) with
                                   | None => Some []
                                   | Some rows => Some rows
                                   end;
                       api.contacts := true; api.interviews := true;
                       api.sqlite_sequence := api.sqlite_sequence (api.disk w) |};
        api.now := api.now w; api.readings := api.readings w;
        api.stdout := (api.stdout w ++ ["Database schema initialized"])%list |}).
Proof.
  intros Hfile Hopens.
  unfold api.initialize_schema, api.connect, api.disk. rewrite Hfile.
  destruct (api.file w) as [e| |db]; [now elim (Hopens e)| |];
    unfold api.bind_run, api.cursor, api.create_tables, api.commit,
      api.in_its_thread, api.ret, api.close, api.leave, api.print;
    cbn; rewrite Hfile; reflexivity.
Qed.

Lemma initialize_schema_refused (w : api.world) (e : api.error) :
  api.private (api.db_path w) = false -> api.file w = api.Refused e ->
  api.initialize_schema w = (api.Raise e, w).
Proof.
  intros Hfile Hrefused. unfold api.initialize_schema, api.connect.
  now rewrite Hfile, Hrefused.
Qed.

(** X19.  With the database in a file, [initialize_schema] leaves a [jobs]
    table behind: an empty one when there was none (nor a file), the same
    rows when there was one (CREATE TABLE IF NOT EXISTS), with the
    AUTOINCREMENT counter as it was.  Running it a second time changes
    nothing in the file, and each run prints its line.  When the path cannot
    be opened, [sqlite3.connect] raises: that is the outcome, and nothing
    is created or printed. *)
Theorem initialize_schema_keeps_rows (w : api.world) :
  api.private (api.db_path w) = false ->
  match api.file w with
  | api.Refused e => api.initialize_schema w = (api.Raise e, w)
  | _ =>
      let started := snd (api.initialize_schema w) in
      fst (api.initialize_schema w) = api.Ok tt /\
      serves started (match api.jobs (api.disk w) with
                      | Some rows => rows
                      | None => []
                      end) /\
      api.sqlite_sequence (api.disk started)
      = api.sqlite_sequence (api.disk w) /\
      api.disk (snd (api.initialize_schema started)) = api.disk started /\
      api.stdout started
      = (api.stdout w ++ ["Database schema initialized"])%list
  end.
Proof.
  intros Hfile.
  destruct (api.file w) as [e| |db] eqn:Hstate;
    [exact (initialize_schema_refused w e Hfile Hstate)| |];
    (assert (Hopens : forall e, api.file w <> api.Refused e)
       by (intros e; rewrite Hstate; discriminate));
    rewrite (initialize_schema_file w Hfile Hopens); cbn [fst snd]; cbv zeta;
    (rewrite initialize_schema_file;
       [|exact Hfile | cbn [api.file]; discriminate]);
    cbn [fst snd]; unfold serves, api.disk; cbn [api.file api.db_path
      api.jobs api.sqlite_sequence api.stdout]; rewrite Hstate;
    repeat split; try exact Hfile.
  - now destruct (api.jobs db).
  - now destruct (api.jobs db).
Qed.

(** No file yet; a file with a job; a directory that is not there. *)
Lemma initialize_schema_keeps_rows_witness :
  serves (snd (api.initialize_schema fresh_world)) [] /\
  serves (snd (api.initialize_schema sample_world)) [sample_row] /\
  api.initialize_schema lost_world
  = (api.Raise (api.OperationalError "unable to open database file"),
     lost_world).
Proof.
  split; [|split].
  - exact (proj1 (proj2 (initialize_schema_keeps_rows fresh_world eq_refl))).
  - exact (proj1 (proj2 (initialize_schema_keeps_rows sample_world eq_refl))).
  - exact (initialize_schema_keeps_rows lost_world eq_refl).
Defined.

(** ** Numbers that SQLite cannot hold *)

(** X20.  An id that does not fit a signed 64-bit integer is not a missing
    job: binding it raises OverflowError, so [get_job], [update_job] and
    [delete_job] raise that, not the 404 of the code, and change nothing. *)
Theorem huge_id_is_an_overflow (w : api.world) (rows : list api.Row.t)
  (job_id : Z) (job_update : api.JobUpdate.t) :
  serves w rows -> api.int64 job_id = false ->
  api.request (api.get_job job_id) w = (api.Raise api.OverflowError, w) /\
  api.request (api.update_job job_id job_update) w
    = (api.Raise api.OverflowError, w) /\
  api.request (api.delete_job job_id) w = (api.Raise api.OverflowError, w).
Proof.
  intros Hs Hint.
  pose proof (usable_opened w rows Hs) as [Hthread Hrows].
  assert (Hrun : forall A (endpoint : api.Sql A),
    endpoint (opened w) = (api.Raise api.OverflowError, opened w) ->
    api.request endpoint w = (api.Raise api.OverflowError, w)).
  { intros A endpoint H.
    rewrite (request_serves endpoint w rows _ _ Hs H eq_refl).
    now rewrite (leave_opened w rows Hs). }
  repeat split; apply Hrun;
    unfold api.get_job, api.update_job, api.delete_job, api.bind_run;
    rewrite (cursor_run _ Hthread);
    unfold api.select_job_by_id, api.execute_delete;
    rewrite (on_jobs_run _ _ rows Hthread Hrows); cbn [api.bind];
    now rewrite Hint.
Qed.

Lemma huge_id_is_an_overflow_witness :
  api.request (api.get_job 9223372036854775808) sample_world
  = (api.Raise api.OverflowError, sample_world).
Proof.
  refine (proj1 (huge_id_is_an_overflow sample_world [sample_row]
                   9223372036854775808 no_update _ _)).
  - split; reflexivity.
  - reflexivity.
Defined.

(** X21.  A salary that does not fit a signed 64-bit integer stops
    [create_job] before anything is stored.  The parameters of the INSERT
    are bound in their order, so with a company, a position, a location and
    a URL that can be encoded, the INSERT raises OverflowError at the
    salary, and the database, the AUTOINCREMENT counter and the clock are
    as before. *)
Theorem huge_salary_stores_nothing (w : api.world) (rows : list api.Row.t)
  (job : api.JobCreate.t) (salary : Z) :
  serves w rows ->
  encodable (api.JobCreate.company job) ->
  encodable (api.JobCreate.position job) ->
  encodable_option (api.JobCreate.location job) ->
  encodable_option (api.JobCreate.job_url job) ->
  api.int64 salary = false ->
  api.JobCreate.salary_min job = Some salary \/
  api.JobCreate.salary_max job = Some salary ->
  api.request (api.create_job job) w = (api.Raise api.OverflowError, w).
Proof.
  intros Hs Hcompany Hposition Hlocation Hurl Hint Hsalary.
  pose proof (usable_opened w rows Hs) as [Hthread Hrows].
  assert (Hrun : api.create_job job (opened w)
                 = (api.Raise api.OverflowError, opened w)).
  { unfold api.create_job, api.bind_run. rewrite (cursor_run _ Hthread).
    unfold api.execute_insert.
    rewrite (on_jobs_run _ _ rows Hthread Hrows).
    unfold encodable_option, encodable in *.
    destruct Hsalary as [Hmin | Hmax];
      destruct (api.JobCreate.location job), (api.JobCreate.job_url job),
        (api.JobCreate.salary_min job) as [low|],
        (api.JobCreate.salary_max job) as [high|];
      cbn [api.bind_all api.bind api.optional];
      rewrite ?Hcompany, ?Hposition, ?Hlocation, ?Hurl;
      try discriminate;
      try (injection Hmin as ->); try (injection Hmax as ->);
      rewrite ?Hint; try reflexivity;
      destruct (api.int64 low); rewrite ?Hint; reflexivity. }
  rewrite (request_serves _ w rows _ _ Hs Hrun eq_refl).
  now rewrite (leave_opened w rows Hs).
Qed.

Lemma huge_salary_stores_nothing_witness :
  api.request (api.create_job huge_create) sample_world
  = (api.Raise api.OverflowError, sample_world).
Proof.
  apply (huge_salary_stores_nothing sample_world [sample_row] huge_create
           9223372036854775808).
  - split; reflexivity.
  - reflexivity.
  - reflexivity.
  - reflexivity.
  - exact I.
  - reflexivity.
  - left. reflexivity.
Defined.

(** ** The sample data *)

(** The names the script draws from have no surrogate in them. *)
Lemma names_encodable (name : string) :
  In name (api.companies ++ api.positions ++ api.locations ++ api.statuses)
  -> api.has_surrogate name = false.
Proof.
  intros H.
  assert (Hall : forallb (fun s => negb (api.has_surrogate s))
                   (api.companies ++ api.positions ++ api.locations
                    ++ api.statuses) = true)
    by (vm_compute; reflexivity).
  rewrite forallb_forall in Hall. apply negb_true_iff. now apply Hall.
Qed.

Lemma getitem_in_range {A : Type} (seq : list A) (i : Z) :
  (0 <= i < Z.of_nat (List.length seq))%Z ->
  exists a, api.getitem seq i = api.Ok a /\ In a seq.
Proof.
  intros Hi. unfold api.getitem.
  replace ((0 <=? i)%Z && (i <? Z.of_nat (List.length seq))%Z) with true
    by (symmetry; apply andb_true_iff; split;
        [apply Z.leb_le | apply Z.ltb_lt]; lia).
  destruct (nth_error seq (Z.to_nat i)) as [a|] eqn:E.
  - exists a. split; [reflexivity|]. eapply nth_error_In, E.
  - apply nth_error_None in E. lia.
Qed.

Section Sampling_facts.
Variable Rng : Type.
Variable randbelow : Z -> Rng -> Z * Rng.
Hypothesis Hrange : in_range randbelow.

Lemma random_choice_run {A : Type} (seq : list A) (g : Rng)
  (c : api.connection) :
  seq <> [] ->
  exists a g',
    api.random_choice Rng randbelow seq (g, c) = (api.Ok a, (g', c)) /\
    In a seq.
Proof.
  intros Hseq. destruct seq as [|x seq]; [congruence|].
  unfold api.random_choice, api.bind_run, api.draw. cbn [fst snd].
  pose proof (Hrange (Z.of_nat (List.length (x :: seq))) g) as Hi.
  destruct (randbelow (Z.of_nat (List.length (x :: seq))) g) as [i g'].
  cbn [fst] in Hi.
  destruct (getitem_in_range (x :: seq) i) as (a & Ha & Hin).
  { apply Hi. simpl. lia. }
  exists a, g'. now rewrite Ha.
Qed.

Lemma random_randint_run (a b : Z) (g : Rng) (c : api.connection) :
  (a <= b)%Z ->
  exists i g',
    api.random_randint Rng randbelow a b (g, c) = (api.Ok i, (g', c)) /\
    (a <= i <= b)%Z.
Proof.
  intros Hab. unfold api.random_randint, api.bind_run, api.draw, api.ret.
  cbn [fst snd]. pose proof (Hrange (b + 1 - a)%Z g) as Hi.
  destruct (randbelow (b + 1 - a)%Z g) as [i g']. cbn [fst] in Hi.
  exists (a + i)%Z, g'. split; [reflexivity | lia].
Qed.

(** One turn of the loop of [generate_jobs] stores one row. *)
Lemma generate_job_run (g : Rng) (c : api.connection)
  (rows : list api.Row.t) :
  usable c rows ->
  dated (api.clock c) ->
  (Z.max (api.max_rowid rows) (api.sqlite_sequence (api.work c))
   < 9223372036854775807)%Z ->
  exists g' r,
    api.generate_job Rng randbelow (g, c)
    = (api.Ok tt,
       (g', api.with_jobs (rows ++ [r])%list (api.Row.id r)
              (api.tick (api.tick c)))) /\
    sample_job (api.clock c) r /\
    api.Row.id r
    = (Z.max (api.max_rowid rows) (api.sqlite_sequence (api.work c)) + 1)%Z.
Proof.
  intros [Hthread Hrows] Hdated Hroom. unfold api.generate_job.
  destruct (random_choice_run api.companies g c) as (company & g1 & E1 & I1);
    [discriminate|].
  destruct (random_choice_run api.positions g1 c) as (position & g2 & E2 & I2);
    [discriminate|].
  destruct (random_choice_run api.locations g2 c) as (location & g3 & E3 & I3);
    [discriminate|].
  destruct (random_choice_run api.statuses g3 c) as (status & g4 & E4 & I4);
    [discriminate|].
  destruct (random_randint_run 100 180 g4 c) as (low & g5 & E5 & I5); [lia|].
  destruct (random_randint_run 20 60 g5 c) as (extra & g6 & E6 & I6); [lia|].
  destruct (random_randint_run 0 60 g6 c) as (days & g7 & E7 & I7); [lia|].
  unfold api.bind_run at 1. rewrite E1.
  unfold api.bind_run at 1. rewrite E2.
  unfold api.bind_run at 1. rewrite E3.
  unfold api.bind_run at 1. rewrite E4.
  unfold api.bind_run at 1. rewrite E5.
  unfold api.bind_run at 1. rewrite E6.
  unfold api.bind_run at 1. rewrite E7.
  unfold api.bind_run at 1.
  unfold api.datetime_now, api.on_connection at 1. cbn [fst snd].
  unfold api.bind_run at 1. unfold api.date_minus_days.
  pose proof (Hdated (api.ticks c)) as Hday. fold (api.reading c) in Hday.
  replace ((1 <=? api.toordinal (api.today (api.reading c)) - days)%Z
           && (api.toordinal (api.today (api.reading c)) - days
               <=? 3652059)%Z)
    with true
    by (symmetry; apply andb_true_iff; split; apply Z.leb_le; lia).
  unfold api.bind_run, api.on_connection, api.execute_insert.
  cbn [fst snd].
  rewrite (on_jobs_run _ (api.tick c) rows Hthread Hrows).
  cbn [api.tick api.work api.bind_all api.bind api.has_surrogate].
  rewrite (names_encodable company), (names_encodable position),
    (names_encodable location), (names_encodable status)
    by (rewrite !in_app_iff; tauto).
  replace (api.int64 (low * 1000)) with true
    by (symmetry; apply int64_bounds; lia).
  replace (api.int64 (low * 1000 + extra * 1000)) with true
    by (symmetry; apply int64_bounds; lia).
  destruct (Z.eqb_spec
    (Z.max (api.max_rowid rows) (api.sqlite_sequence (api.work c)))
    9223372036854775807) as [E|_]; [lia|].
  cbn [api.row_of_sample api.not_null_violation nth api.Row.company
       api.Row.position].
  unfold api.ret. exists g7.
  exists (api.row_of_sample
    [api.Text company; api.Text position; api.Text location;
     api.Integer (low * 1000); api.Integer (low * 1000 + extra * 1000);
     api.Text status;
     api.Text (api.isoformat
       {| api.toordinal :=
            api.toordinal (api.today (api.reading c)) - days |})]
    (Z.max (api.max_rowid rows) (api.sqlite_sequence (api.work c)) + 1)
    (api.reading (api.tick c))).
  split; [reflexivity|].
  split; [|reflexivity].
  unfold sample_job, text_of.
  cbn [api.row_of_sample nth api.Row.company api.Row.position
       api.Row.location api.Row.status api.Row.salary_min api.Row.salary_max
       api.Row.date_added api.Row.job_url api.Row.date_applied api.Row.notes].
  split; [now exists company|]. split; [now exists position|].
  split; [now exists location|]. split; [now exists status|].
  split; [|split; [|now repeat split]].
  - exists (low * 1000)%Z, (low * 1000 + extra * 1000)%Z.
    split; [reflexivity|]. split; [reflexivity|].
    split; [lia|]. split; [apply Z.mod_mul; lia|]. split; [lia|].
    replace (low * 1000 + extra * 1000)%Z with ((low + extra) * 1000)%Z
      by lia. apply Z.mod_mul. lia.
  - exists (api.ticks c), days. split; [lia | reflexivity].
Qed.

Lemma generate_loop_run (turns : nat) :
  forall (g : Rng) (c : api.connection) (rows : list api.Row.t),
  usable c rows ->
  dated (api.clock c) ->
  (Z.max (api.max_rowid rows) (api.sqlite_sequence (api.work c))
   + Z.of_nat turns <= 9223372036854775807)%Z ->
  exists g' c' new,
    api.generate_loop Rng randbelow turns (g, c) = (api.Ok tt, (g', c')) /\
    usable c' (rows ++ new)%list /\
    api.owner c' = api.owner c /\
    List.length new = turns /\
    Forall (sample_job (api.clock c)) new.
Proof.
  induction turns as [|turns IH]; intros g c rows Hrows Hdated Hroom.
  - exists g, c, []. rewrite app_nil_r. repeat split; auto; apply Hrows.
  - destruct (generate_job_run g c rows Hrows Hdated) as (g1 & r & E & Hr & Hid);
      [lia|].
    set (c1 := api.with_jobs (rows ++ [r])%list (api.Row.id r)
                 (api.tick (api.tick c))) in *.
    destruct (IH g1 c1 (rows ++ [r])%list)
      as (g' & c' & new & E' & Hjobs & Howner & Hlen & Hnew).
    + split; [exact (proj1 Hrows) | reflexivity].
    + exact Hdated.
    + unfold c1. cbn [api.with_jobs api.work api.sqlite_sequence].
      rewrite max_rowid_app, Hid.
      assert (0 <= api.max_rowid rows)%Z by (clear; induction rows; simpl; lia).
      lia.
    + exists g', c', (r :: new).
      cbn [api.generate_loop]. unfold api.bind_run at 1. rewrite E.
      split; [exact E'|].
      split; [now rewrite <- app_assoc in Hjobs|].
      split; [exact Howner|].
      split; [simpl; now rewrite Hlen|]. constructor; assumption.
Qed.
End Sampling_facts.


(** X22.  [generate_jobs] stores as many rows as it was asked for, after
    the rows that were there, and each is a sample: company, position,
    location and status from the lists of the script, a minimum salary
    between 100000 and 180000, a maximum 20000 to 60000 above it, both
    multiples of 1000, a date of the last 60 days in ISO form, and no URL,
    application date or notes.  This holds for any generator whose draws
    below [n] are in range, when the database is in a file, the clock
    shows dates of [datetime] and the rowids are not used up; the script
    then prints its two lines.  When the path cannot be opened, the
    script ends with the exception of [sqlite3.connect], and nothing is
    drawn, stored or printed. *)
Theorem generated_jobs_are_samples (Rng : Type)
  (randbelow : Z -> Rng -> Z * Rng) (num_jobs : Z) (g : Rng) (w : api.world) :
  in_range randbelow ->
  api.private (api.db_path w) = false ->
  dated (api.now w) ->
  (largest_rowid w (existing w) + Z.max 0 num_jobs
   <= 9223372036854775807)%Z ->
  match api.file w with
  | api.Refused e =>
      api.generate_jobs Rng randbelow num_jobs g w = (api.Raise e, w, g)
  | _ =>
      exists new g' w',
        api.generate_jobs Rng randbelow num_jobs g w = (api.Ok tt, w', g') /\
        api.jobs (api.disk w') = Some (existing w ++ new)%list /\
        List.length new = Z.to_nat num_jobs /\
        Forall (sample_job (api.now w)) new /\
        api.stdout w'
        = (api.stdout w
           ++ ["Database schema initialized";
               ("Generated " ++ api.str_of_int num_jobs
                ++ " sample jobs")%string])%list
  end.
Proof.
  intros Hrange Hfile Hdated Hroom.
  assert (Hopened : (forall e, api.file w <> api.Refused e) ->
    exists new g' w',
      api.generate_jobs Rng randbelow num_jobs g w = (api.Ok tt, w', g') /\
      api.jobs (api.disk w') = Some (existing w ++ new)%list /\
      List.length new = Z.to_nat num_jobs /\
      Forall (sample_job (api.now w)) new /\
      api.stdout w'
      = (api.stdout w
         ++ ["Database schema initialized";
             ("Generated " ++ api.str_of_int num_jobs
              ++ " sample jobs")%string])%list).
  { intros Hopens. unfold api.generate_jobs.
    rewrite (initialize_schema_file w Hfile Hopens).
    set (w1 := {| api.db_path := api.db_path w |}).
    assert (Hs : serves w1 (existing w)).
    { split; [exact Hfile|]. unfold w1, api.disk, existing, api.disk.
      cbn [api.file api.jobs]. now destruct (api.jobs _). }
    rewrite (connect_serves w1 (existing w) Hs).
    unfold api.bind_run at 1. unfold api.on_connection. cbn [fst snd].
    rewrite (cursor_run (opened w1) eq_refl).
    destruct (generate_loop_run Rng randbelow Hrange (Z.to_nat num_jobs) g
                (opened w1) (existing w))
      as (g' & c' & new & E & [Hthread Hjobs] & Howner & Hlen & Hnew).
    - exact (usable_opened w1 (existing w) Hs).
    - exact Hdated.
    - unfold largest_rowid in Hroom. cbn [opened api.work]. unfold w1 at 1.
      unfold api.disk at 1. cbn [api.file api.sqlite_sequence]. lia.
    - rewrite E. unfold api.commit. rewrite (in_its_thread_run _ c' Hthread).
      unfold api.close. cbn [api.owner]. rewrite Howner.
      change (api.owner (opened w1)) with api.main. rewrite Z.eqb_refl.
      exists new, g'. eexists. split; [reflexivity|].
      unfold api.print, api.leave, api.disk.
      cbn [api.db_path api.file api.saved api.stdout]. unfold w1 at 1.
      cbn [api.db_path]. rewrite Hfile.
      split; [exact Hjobs|]. split; [exact Hlen|]. split; [exact Hnew|].
      unfold w1. cbn [api.stdout]. now rewrite <- app_assoc. }
  destruct (api.file w) as [e| |db] eqn:Hstate.
  - unfold api.generate_jobs.
    now rewrite (initialize_schema_refused w e Hfile Hstate).
  - apply Hopened. discriminate.
  - apply Hopened. discriminate.
Qed.

Lemma generated_jobs_are_samples_witness :
  exists new g' w',
    api.generate_jobs Z counter_randbelow 3 0%Z sample_world
      = (api.Ok tt, w', g') /\
    api.jobs (api.disk w') = Some (sample_row :: new) /\
    List.length new = 3 /\
    Forall (sample_job sample_clock) new.
Proof.
  destruct (generated_jobs_are_samples Z counter_randbelow 3 0%Z sample_world)
    as (new & g' & w' & Hrun & Hrows & Hlength & Hnew & _).
  - intros n g Hn. apply Z.mod_pos_bound. exact Hn.
  - reflexivity.
  - intros k. simpl. lia.
  - vm_compute. discriminate.
  - exists new, g', w'. repeat split; assumption.
Defined.
